(** * Public-Assets blog scripts: slug generation, index upsert, image update

    A shallow embedding of the three scripts [add_blog_from_url.py],
    [add_blog_manual.py] and [add_blog_image.py], and the properties of
    their shared operations.

    Modelling conventions.
    - A Python [str] is a [string]; its characters are the code points
      below 256, so [ascii] stands for one code point.  The character
      classes [\w] and [\s] and [str.lower] are the ones Python 3 uses
      for [str] patterns, restricted to that range.
    - [re.sub] is modelled by a small backtracking matcher for the regex
      fragment the scripts use, and a left-to-right substitution loop.
    - The file system is a finite map from path strings to nodes, a
      node being a directory or a file with its content.  Paths are
      built with [os.path.join] exactly as in the scripts and are
      compared as strings, with upper and lower case distinct: [.],
      [..], doubled separators and links are not resolved.  A path
      string stands for its file when it is built from a post id that
      is a single component other than [.] and [..]
      ([Path.component]); what is said about single files other than
      the ones a run writes is said for such ids.
    - An operation looks at the node at its own path and not at the
      ancestors of the path: the directories that [os.makedirs] creates
      on the way are not recorded, and an ancestor that is a regular
      file or is missing, permissions and full disks, which make the
      system call fail, are not seen.  A run of the model may therefore
      return where the program raises, and the results of an upsert are
      stated for the runs that return, or for states in which the files
      that exist already show that the directories are there.
    - A JSON file is held as the document it encodes: the index list,
      a post's metadata object, or raw bytes for anything else.
    - Effects run in a state-and-exception monad over that file system
      and the standard output; [script_dir] stands for the directory of
      the running script.
    - What a script takes from outside is an argument of its model: the
      answer of the network as the results of the page queries, the
      date of the day, the lines typed at the prompts and the text left
      in the editor. *)

From Stdlib Require Import Ascii String List NArith Arith Lia Bool DecimalString.
From Stdlib Require Import Sorting.Sorted Sorting.Permutation.
From Stdlib Require OrderedTypeEx.
From stdpp Require Import gmap strings list fin_maps.
Import ListNotations.

Local Open Scope char_scope.

(* ===================================================================== *)
(** * Characters and character classes                                    *)
(* ===================================================================== *)

Module Chars.

Definition code (c : ascii) : N := N_of_ascii c.

Definition in_range (lo hi : N) (c : ascii) : bool :=
  (N.leb lo (code c) && N.leb (code c) hi)%bool.

(** [str.isalnum] on the code points below 256. *)
Definition is_alnum (c : ascii) : bool :=
  (in_range 48 57 c || in_range 65 90 c || in_range 97 122 c
   || in_range 170 170 c || in_range 178 179 c || in_range 181 181 c
   || in_range 185 186 c || in_range 188 190 c || in_range 192 214 c
   || in_range 216 246 c || in_range 248 255 c)%bool.

Definition is_underscore (c : ascii) : bool := Ascii.eqb c "_".
Definition is_hyphen (c : ascii) : bool := Ascii.eqb c "-".

(** [\w] : alphanumeric or underscore. *)
Definition is_word (c : ascii) : bool := (is_alnum c || is_underscore c)%bool.

(** [\s] : Unicode white space. *)
Definition is_space (c : ascii) : bool :=
  (in_range 9 13 c || in_range 28 32 c || in_range 133 133 c
   || in_range 160 160 c)%bool.

(** [str.lower] on one code point. *)
Definition lower_char (c : ascii) : ascii :=
  if (in_range 65 90 c || in_range 192 214 c || in_range 216 222 c)%bool
  then ascii_of_N (code c + 32) else c.

(** [[^\w\s-]] *)
Definition not_word_space_hyphen (c : ascii) : bool :=
  negb (is_word c || is_space c || is_hyphen c).

(** [[\s_-]] *)
Definition is_separator (c : ascii) : bool :=
  (is_space c || is_underscore c || is_hyphen c)%bool.

End Chars.

(* ===================================================================== *)
(** * The regex fragment and [re.sub]                                     *)
(* ===================================================================== *)

Module Re.

(** The patterns of the scripts are built from character classes, a
    greedy [+] on a class, the anchors [^] and [$], concatenation and
    alternation. *)
Inductive regex : Type :=
| Class (p : ascii -> bool)
| Plus (p : ascii -> bool)
| Bol
| Eol
| Cat (r1 r2 : regex)
| Alt (r1 r2 : regex).

(** Without [re.MULTILINE], [$] matches at the end of the string and
    just before a newline that ends the string. *)
Definition at_end (s : list ascii) : bool :=
  match s with
  | [] => true
  | [c] => Ascii.eqb c "010"
  | _ => false
  end.

(** Greedy repetition after the first character: take one more
    character of the class if the rest of the pattern then matches,
    otherwise stop here. *)
Fixpoint plus_k (p : ascii -> bool)
    (k : list ascii -> option (list ascii)) (s : list ascii)
    : option (list ascii) :=
  match s with
  | c :: s' =>
      if p c then
        match plus_k p k s' with
        | Some rest => Some rest
        | None => k s
        end
      else k s
  | [] => k s
  end.

(** Backtracking match of [r] at the head of [s]; [start] tells whether
    the position is the beginning of the whole string.  The result is
    the text left after the match. *)
Fixpoint match_k (r : regex) (start : bool) (s : list ascii)
    (k : bool -> list ascii -> option (list ascii))
    : option (list ascii) :=
  match r with
  | Class p =>
      match s with
      | c :: s' => if p c then k false s' else None
      | [] => None
      end
  | Plus p =>
      match s with
      | c :: s' => if p c then plus_k p (k false) s' else None
      | [] => None
      end
  | Bol => if start then k start s else None
  | Eol => if at_end s then k start s else None
  | Cat r1 r2 => match_k r1 start s (fun b s' => match_k r2 b s' k)
  | Alt r1 r2 =>
      match match_k r1 start s k with
      | Some rest => Some rest
      | None => match_k r2 start s k
      end
  end.

Definition match_at (r : regex) (start : bool) (s : list ascii)
    : option (list ascii) :=
  match_k r start s (fun _ rest => Some rest).

(** The scan of [re.sub]: at each position try the pattern; a match is
    replaced by [repl] and the scan resumes after it, otherwise the
    character is copied.  An empty match is replaced and the scan moves
    one character on. *)
Fixpoint sub_loop (fuel : nat) (r : regex) (repl : list ascii)
    (start : bool) (s : list ascii) : list ascii :=
  match fuel with
  | O => s
  | S fuel' =>
      match match_at r start s with
      | Some rest =>
          if Nat.ltb (length rest) (length s)
          then repl ++ sub_loop fuel' r repl false rest
          else match s with
               | [] => repl
               | c :: s' => repl ++ c :: sub_loop fuel' r repl false s'
               end
      | None =>
          match s with
          | [] => []
          | c :: s' => c :: sub_loop fuel' r repl false s'
          end
      end
  end.

Definition sub (r : regex) (repl s : list ascii) : list ascii :=
  sub_loop (S (length s)) r repl true s.

End Re.

(* ===================================================================== *)
(** * [slugify]                                                           *)
(* ===================================================================== *)

Module Slug.
Import Chars Re.

Definition chars (s : string) : list ascii := list_ascii_of_string s.
Definition text (l : list ascii) : string := string_of_list_ascii l.

(** [text.lower()] *)
Definition lower (l : list ascii) : list ascii := map lower_char l.

(** [r'[^\w\s-]'] *)
Definition re_strip : regex := Class not_word_space_hyphen.
(** [r'[\s_-]+'] *)
Definition re_runs : regex := Plus is_separator.
(** [r'^-+|-+$'] *)
Definition re_edges : regex :=
  Alt (Cat Bol (Plus is_hyphen)) (Cat (Plus is_hyphen) Eol).

(** [slugify], on the characters of the text. *)
Definition slugify_chars (l : list ascii) : list ascii :=
  let l := sub re_strip [] (lower l) in
  let l := sub re_runs ["-"] l in
  let l := sub re_edges [] l in
  l.

Definition slugify (s : string) : string := text (slugify_chars (chars s)).

End Slug.

(** The slug pipeline in the words of the specification: lower-case,
    strip what is outside a set of kept characters, collapse separator
    runs to one hyphen, trim hyphens at both ends. *)
Module SlugSpec.
Import Chars.

Fixpoint drop_while (p : ascii -> bool) (l : list ascii) : list ascii :=
  match l with
  | c :: l' => if p c then drop_while p l' else l
  | [] => []
  end.

(** Every maximal run of separator characters becomes one hyphen: the
    hyphen is written at the last character of the run. *)
Fixpoint collapse_runs (sep : ascii -> bool) (l : list ascii) : list ascii :=
  match l with
  | [] => []
  | c :: l' =>
      if sep c then
        match l' with
        | c' :: _ => if sep c' then collapse_runs sep l'
                     else "-" :: collapse_runs sep l'
        | [] => ["-"]
        end
      else c :: collapse_runs sep l'
  end.

Definition trim (p : ascii -> bool) (l : list ascii) : list ascii :=
  rev (drop_while p (rev (drop_while p l))).

(** Dropping a trailing run, written front to back. *)
Fixpoint drop_trailing (p : ascii -> bool) (l : list ascii) : list ascii :=
  match l with
  | [] => []
  | c :: l' => if (p c && forallb p l')%bool then [] else c :: drop_trailing p l'
  end.

Definition no_newline (l : list ascii) : bool :=
  forallb (fun c => negb (Ascii.eqb c "010")) l.

Definition pipeline (keep : ascii -> bool) (l : list ascii) : list ascii :=
  trim is_hyphen
    (collapse_runs is_separator (List.filter keep (map lower_char l))).

(** The kept set as the specification words it:
    letters, digits, white space, hyphen. *)
Definition kept_in_spec (c : ascii) : bool :=
  (is_alnum c || is_space c || is_hyphen c)%bool.

(** The kept set of the code: the specification's set and the
    underscore. *)
Definition kept_in_code (c : ascii) : bool :=
  (is_alnum c || is_underscore c || is_space c || is_hyphen c)%bool.

Definition slugify_spec (s : string) : string :=
  Slug.text (pipeline kept_in_spec (Slug.chars s)).

Definition slugify_pipeline (s : string) : string :=
  Slug.text (pipeline kept_in_code (Slug.chars s)).

(** The shape of a slug: words of lower-case alphanumerics joined by
    single hyphens. *)
Definition slug_char (c : ascii) : bool :=
  (is_alnum c && Ascii.eqb (lower_char c) c)%bool.

Fixpoint slug_from (after_hyphen : bool) (l : list ascii) : bool :=
  match l with
  | [] => negb after_hyphen
  | c :: l' =>
      if is_hyphen c then (negb after_hyphen && slug_from true l')%bool
      else (slug_char c && slug_from false l')%bool
  end.

Definition is_slug (l : list ascii) : bool :=
  match l with
  | [] => true
  | _ => slug_from true l
  end.

(** The same shape before trimming: hyphens are single, but one may
    stand at either end. *)
Fixpoint runs_ok (after_hyphen : bool) (l : list ascii) : bool :=
  match l with
  | [] => true
  | c :: l' =>
      if is_hyphen c then (negb after_hyphen && runs_ok true l')%bool
      else (slug_char c && runs_ok false l')%bool
  end.

(** What the first two steps leave: kept characters that [lower]
    does not change. *)
Definition lowered_kept (c : ascii) : bool :=
  (kept_in_code c && Ascii.eqb (lower_char c) c)%bool.

End SlugSpec.

(* ===================================================================== *)
(** * Documents: index entries and post metadata                          *)
(* ===================================================================== *)

(** An entry of [index.json], with the keys the scripts write. *)
Module Entry.
Record t : Type := Make {
  id : string;
  title : string;
  excerpt : string;
  publishedDate : string;
  coverImage : string;
  category : string;
  mediumUrl : string
}.

(** [entry['coverImage'] = path] *)
Definition set_coverImage (path : string) (e : t) : t :=
  Make (id e) (title e) (excerpt e) (publishedDate e) path
       (category e) (mediumUrl e).
End Entry.

(** The content of a post's [blog.json]. *)
Module Blog.
Record t : Type := Make {
  id : string;
  title : string;
  excerpt : string;
  content : string;
  author : string;
  publishedDate : string;
  readTime : string;
  tags : list string;
  mediumUrl : string;
  image : string;
  category : string
}.

(** [blog_data['image'] = path] *)
Definition set_image (path : string) (b : t) : t :=
  Make (id b) (title b) (excerpt b) (content b) (author b)
       (publishedDate b) (readTime b) (tags b) (mediumUrl b) path
       (category b).
End Blog.

(** The [blog_data] dictionary that [extract_medium_info] returns. *)
Module UrlData.
Record t : Type := Make {
  title : string;
  content : string;
  author : string;
  publishedDate : string;
  excerpt : string;
  mediumUrl : string
}.
End UrlData.

(** A blog record whose id and category are known: the [blog_data]
    dictionary that the interactive script collects, and what the URL
    importer works on once it has resolved its optional arguments. *)
Module Post.
Record t : Type := Make {
  id : string;
  title : string;
  excerpt : string;
  content : string;
  author : string;
  publishedDate : string;
  mediumUrl : string;
  category : string
}.
End Post.

(* ===================================================================== *)
(** * Paths                                                               *)
(* ===================================================================== *)

Module Path.

Fixpoint prefix_of (a b : list ascii) : bool :=
  match a, b with
  | [], _ => true
  | x :: a', y :: b' => (Ascii.eqb x y && prefix_of a' b')%bool
  | _ :: _, [] => false
  end.

(** [s.endswith(suffix)] *)
Definition ends_with (suffix s : string) : bool :=
  prefix_of (rev (Slug.chars suffix)) (rev (Slug.chars s)).

(** [s.startswith(prefix)] *)
Definition starts_with (prefix s : string) : bool :=
  prefix_of (Slug.chars prefix) (Slug.chars s).

Fixpoint has_sep (s : string) : bool :=
  match s with
  | EmptyString => false
  | String c s' => (Ascii.eqb c "/" || has_sep s')%bool
  end.

(** [os.path.join(a, b)]: an absolute [b] replaces [a]; otherwise the
    parts are joined by one separator unless [a] is empty or already
    ends with one. *)
Definition join (a b : string) : string :=
  if starts_with "/" b then b
  else if (String.eqb a "" || ends_with "/" a)%bool then a +:+ b
  else a +:+ "/" +:+ b.

(** [os.path.basename(p)]: what follows the last separator. *)
Fixpoint basename (p : string) : string :=
  match p with
  | EmptyString => EmptyString
  | String c p' =>
      if has_sep p' then basename p'
      else if Ascii.eqb c "/" then p' else p
  end.

(** A single path component that names an entry of a directory: no
    separator, not empty, and neither [.] nor [..]. *)
Definition component (s : string) : bool :=
  (negb (has_sep s) && negb (String.eqb s "") && negb (String.eqb s ".")
   && negb (String.eqb s ".."))%bool.

End Path.

(* ===================================================================== *)
(** * The file system, and the monad of the scripts                       *)
(* ===================================================================== *)

Module Os.

Inductive content : Type :=
| Raw (data : list Byte.byte)          (* an image, or anything not JSON *)
| BlogDoc (b : Blog.t)                 (* a JSON object: post metadata *)
| IndexDoc (l : list Entry.t).         (* a JSON list of index entries *)

Inductive node : Type :=
| Dir
| File (c : content).

Record world : Type := World {
  fs : gmap string node;
  stdout : list string
}.

Inductive exn : Type :=
| FileExistsError
| FileNotFoundError
| IsADirectoryError
| SameFileError
| JSONDecodeError
| AttributeError
| TypeError
| NameError
| SystemExit (status : nat).

Inductive outcome (A : Type) : Type :=
| Return (a : A)
| Raise (e : exn).
Arguments Return {A} a.
Arguments Raise {A} e.

Definition M (A : Type) : Type := world -> outcome A * world.

Definition ret {A} (a : A) : M A := fun w => (Return a, w).

Definition raise {A} (e : exn) : M A := fun w => (Raise e, w).

Definition bind {A B} (c : M A) (k : A -> M B) : M B :=
  fun w =>
    match c w with
    | (Return a, w') => k a w'
    | (Raise e, w') => (Raise e, w')
    end.

Definition set_fs (f : gmap string node) (w : world) : world :=
  World f (stdout w).

(** [print(line)] *)
Definition print (line : string) : M unit :=
  fun w => (Return tt, World (fs w) (stdout w ++ [line])).

(** [os.path.exists(p)] *)
Definition path_exists (p : string) : M bool :=
  fun w => (Return (match fs w !! p with Some _ => true | None => false end), w).

(** [os.makedirs(p, exist_ok=True)].  Only the directory itself is
    recorded: the ancestors that the call creates on the way are not,
    and a regular file among them, which makes the call raise, is not
    seen. *)
Definition makedirs (p : string) : M unit :=
  fun w =>
    match fs w !! p with
    | Some (File _) => (Raise FileExistsError, w)
    | _ => (Return tt, set_fs (<[p := Dir]> (fs w)) w)
    end.

(** [open(p, 'r').read()] *)
Definition read_file (p : string) : M content :=
  fun w =>
    match fs w !! p with
    | Some (File c) => (Return c, w)
    | Some Dir => (Raise IsADirectoryError, w)
    | None => (Raise FileNotFoundError, w)
    end.

(** [open(p, 'w').write(c)].  The directory that is to hold the file
    is not looked at. *)
Definition write_file (p : string) (c : content) : M unit :=
  fun w =>
    match fs w !! p with
    | Some Dir => (Raise IsADirectoryError, w)
    | _ => (Return tt, set_fs (<[p := File c]> (fs w)) w)
    end.

(** [json.load] of a file the script then uses as the index list: the
    loops call [entry.get] on each element, which a metadata object's
    keys do not have. *)
Definition load_index (p : string) : M (list Entry.t) :=
  bind (read_file p) (fun c =>
    match c with
    | IndexDoc l => ret l
    | BlogDoc _ => raise AttributeError
    | Raw _ => raise JSONDecodeError
    end).

(** [json.load] of a file the script then uses as a metadata object:
    a list does not take a string subscript. *)
Definition load_blog (p : string) : M Blog.t :=
  bind (read_file p) (fun c =>
    match c with
    | BlogDoc b => ret b
    | IndexDoc _ => raise TypeError
    | Raw _ => raise JSONDecodeError
    end).

(** [shutil.copy2(src, dst)]: into [dst] when it is a directory.  The
    directory that is to hold the copy is not looked at. *)
Definition copy2 (src dst : string) : M unit :=
  fun w =>
    let target :=
      match fs w !! dst with
      | Some Dir => Path.join dst (Path.basename src)
      | _ => dst
      end in
    if String.eqb src target then (Raise SameFileError, w)
    else bind (read_file src) (fun c => write_file target c) w.

(** The files that [os.walk(top)] reports, as full paths.  [os.walk]
    lists the files of a directory before it goes down, in an order
    that the operating system decides; here the order is the one in
    which the map lists its keys, and nothing below depends on which
    file comes first. *)
Definition walk_files (top : string) (w : world) : list string :=
  List.filter (Path.starts_with (top +:+ "/"))
    (map fst
       (List.filter
          (fun kv => match snd kv with File _ => true | Dir => false end)
          (map_to_list (fs w)))).

(** The content of the file at [p], when [p] holds a file. *)
Definition file_at (w : world) (p : string) : option content :=
  match fs w !! p with
  | Some (File c) => Some c
  | _ => None
  end.

(** The status with which the interpreter leaves. *)
Definition exit_status {A} (o : outcome A) : nat :=
  match o with
  | Return _ => 0
  | Raise (SystemExit n) => n
  | Raise _ => 1
  end.

End Os.

Notation "x <- c ;; k" := (Os.bind c (fun x => k))
  (at level 100, c at next level, right associativity).
Notation "c ;;; k" := (Os.bind c (fun _ => k))
  (at level 100, right associativity).

(* ===================================================================== *)
(** * The index update shared by both upsert scripts                      *)
(* ===================================================================== *)

Module Index.

(** The [for ... else] loop: the first entry with the id is replaced,
    and when there is none the new entry is appended. *)
Fixpoint replace_or_append (new : Entry.t) (index_data : list Entry.t)
    : list Entry.t :=
  match index_data with
  | [] => [new]
  | entry :: rest =>
      if String.eqb (Entry.id entry) (Entry.id new)
      then new :: rest
      else entry :: replace_or_append new rest
  end.

(** [index_data.sort(key=lambda x: x['publishedDate'], reverse=True)]:
    a stable sort, so an entry goes before the entries already placed
    unless its date is strictly smaller. *)
Fixpoint insert_desc (x : Entry.t) (l : list Entry.t) : list Entry.t :=
  match l with
  | [] => [x]
  | y :: l' =>
      if String.ltb (Entry.publishedDate x) (Entry.publishedDate y)
      then y :: insert_desc x l'
      else x :: l
  end.

Definition sort_desc (l : list Entry.t) : list Entry.t :=
  fold_right insert_desc [] l.

(** [a] may stand before [b]: the date of [b] is not the larger. *)
Definition date_ge (a b : Entry.t) : Prop :=
  String.leb (Entry.publishedDate b) (Entry.publishedDate a) = true.

Definition sorted_desc (l : list Entry.t) : Prop := Sorted date_ge l.

Definition ids (l : list Entry.t) : list string := map Entry.id l.

Definition has_id (i : string) (l : list Entry.t) : bool :=
  existsb (fun e => String.eqb (Entry.id e) i) l.

Definition with_id (i : string) (l : list Entry.t) : list Entry.t :=
  List.filter (fun e => String.eqb (Entry.id e) i) l.

Definition without_id (i : string) (l : list Entry.t) : list Entry.t :=
  List.filter (fun e => negb (String.eqb (Entry.id e) i)) l.

(** The loop of [update_blog_image]: the first entry with the id gets
    the new cover image.  [relative_image_path] is a local variable
    that is bound only when [blog.json] was found; reading it unbound
    raises [NameError]. *)
Fixpoint set_cover (blog_id : string) (relative_image_path : option string)
    (index_data : list Entry.t) : Os.outcome (list Entry.t) :=
  match index_data with
  | [] => Os.Return []
  | entry :: rest =>
      if String.eqb (Entry.id entry) blog_id then
        match relative_image_path with
        | Some path => Os.Return (Entry.set_coverImage path entry :: rest)
        | None => Os.Raise Os.NameError
        end
      else
        match set_cover blog_id relative_image_path rest with
        | Os.Return rest' => Os.Return (entry :: rest')
        | Os.Raise e => Os.Raise e
        end
  end.

End Index.

(* ===================================================================== *)
(** * The scripts                                                         *)
(* ===================================================================== *)

Section Scripts.
Import Os.

(** [os.path.dirname(os.path.abspath(__file__))] *)
Variable script_dir : string.

Definition blogs_dir : string := Path.join script_dir "Blogs".
Definition all_blogs_dir : string := Path.join blogs_dir "allBlogs".
Definition index_path : string := Path.join blogs_dir "index.json".

(** [os.path.join(blogs_dir, 'allBlogs', blog_id)] *)
Definition blog_dir_of (blog_id : string) : string :=
  Path.join all_blogs_dir blog_id.

Definition blog_json_path_of (blog_id : string) : string :=
  Path.join (blog_dir_of blog_id) "blog.json".

(** [str(n)] for a natural number. *)
Definition str_of_nat (n : nat) : string :=
  NilEmpty.string_of_uint (Nat.to_uint n).

(** [f"{max(1, len(content) // 1000)} min read"] *)
Definition read_time (content : string) : string :=
  str_of_nat (Nat.max 1 (String.length content / 1000)) +:+ " min read".

(** [f"allBlogs/{blog_id}/{image_filename}"] *)
Definition image_path_of (blog_id image_filename : string) : string :=
  "allBlogs/" +:+ blog_id +:+ "/" +:+ image_filename.

(** The first [.svg] file met by the walk over [allBlogs]. *)
Definition find_source_image : M (option string) :=
  fun w =>
    (Return
       (List.find (fun p => Path.ends_with ".svg" (Path.basename p))
          (walk_files all_blogs_dir w)), w).

(** [f"{slugify(category)}.svg"] *)
Definition image_filename_of (category : string) : string :=
  Slug.slugify category +:+ ".svg".

(** The dictionary written to [blog.json]. *)
Definition blog_of (r : Post.t) : Blog.t :=
  Blog.Make (Post.id r) (Post.title r) (Post.excerpt r) (Post.content r)
    (Post.author r) (Post.publishedDate r) (read_time (Post.content r))
    [Post.category r; "AWS"%string] (Post.mediumUrl r)
    (image_path_of (Post.id r) (image_filename_of (Post.category r)))
    (Post.category r).

(** The dictionary put into the index. *)
Definition entry_of (r : Post.t) : Entry.t :=
  Entry.Make (Post.id r) (Post.title r) (Post.excerpt r)
    (Post.publishedDate r)
    (image_path_of (Post.id r) (image_filename_of (Post.category r)))
    (Post.category r) (Post.mediumUrl r).

(** The body that both upsert scripts share, after the id and the
    category are known. *)
Definition upsert (r : Post.t) : M string :=
  let blog_dir := blog_dir_of (Post.id r) in
  makedirs blog_dir ;;;
  let image_filename := image_filename_of (Post.category r) in
  (source_image <- find_source_image ;;
   match source_image with
   | Some src =>
       (* both files are opened before anything is read, and opening
          the destination for writing empties it *)
       read_file src ;;;
       write_file (Path.join blog_dir image_filename) (Raw []) ;;;
       data <- read_file src ;;
       write_file (Path.join blog_dir image_filename) data
   | None => ret tt
   end) ;;;
  write_file (Path.join blog_dir "blog.json") (BlogDoc (blog_of r)) ;;;
  found <- path_exists index_path ;;
  index_data <- (if found then load_index index_path else ret []) ;;
  let index_data := Index.replace_or_append (entry_of r) index_data in
  let index_data := Index.sort_desc index_data in
  write_file index_path (IndexDoc index_data) ;;;
  ret (Post.id r).

(** [if not x]: [None] and the empty string are false. *)
Definition or_default (x : option string) (default : string) : string :=
  match x with
  | Some (String c s) => String c s
  | _ => default
  end.

(** The id and the category that the URL importer settles on. *)
Definition resolve (blog_data : UrlData.t) (blog_id category : option string)
    : Post.t :=
  Post.Make
    (or_default blog_id (Slug.slugify (UrlData.title blog_data)))
    (UrlData.title blog_data) (UrlData.excerpt blog_data)
    (UrlData.content blog_data) (UrlData.author blog_data)
    (UrlData.publishedDate blog_data) (UrlData.mediumUrl blog_data)
    (or_default category "AWS").

(** [add_blog_from_url.create_blog_structure(blog_data, blog_id, category)] *)
Definition create_blog_structure_from_url (blog_data : UrlData.t)
    (blog_id category : option string) : M string :=
  upsert (resolve blog_data blog_id category).

(** [add_blog_manual.create_blog_structure(blog_data)] *)
Definition create_blog_structure_manual (blog_data : Post.t) : M string :=
  upsert blog_data.

(** [add_blog_image.update_blog_image(blog_id, image_path)] *)
Definition update_blog_image (blog_id image_path : string) : M bool :=
  let blog_dir := blog_dir_of blog_id in
  found <- path_exists blog_dir ;;
  if negb found then
    print ("Error: Blog with ID '" +:+ blog_id +:+ "' not found.") ;;;
    ret false
  else
  found <- path_exists image_path ;;
  if negb found then
    print ("Error: Image file '" +:+ image_path +:+ "' not found.") ;;;
    ret false
  else
  let image_filename := Path.basename image_path in
  let dest_image_path := Path.join blog_dir image_filename in
  copy2 image_path dest_image_path ;;;
  let blog_json_path := Path.join blog_dir "blog.json" in
  found <- path_exists blog_json_path ;;
  relative_image_path <-
    (if found then
       blog_data <- load_blog blog_json_path ;;
       let relative_image_path := image_path_of blog_id image_filename in
       write_file blog_json_path
         (BlogDoc (Blog.set_image relative_image_path blog_data)) ;;;
       ret (Some relative_image_path)
     else ret None) ;;
  found <- path_exists index_path ;;
  (if found then
     index_data <- load_index index_path ;;
     match Index.set_cover blog_id relative_image_path index_data with
     | Return index_data => write_file index_path (IndexDoc index_data)
     | Raise e => raise e
     end
   else ret tt) ;;;
  print ("Image '" +:+ image_filename +:+ "' successfully added to blog '"
         +:+ blog_id +:+ "'") ;;;
  print ("Image path: " +:+ dest_image_path) ;;;
  ret true.

(** [add_blog_image.main()] with the parsed [--id] and [--image]. *)
Definition image_main (blog_id image_path : string) : M unit :=
  ok <- update_blog_image blog_id image_path ;;
  if ok then print "Image update completed successfully."
  else raise (SystemExit 1).

(** One run of an upsert script. *)
Inductive call : Type :=
| AddFromUrl (blog_data : UrlData.t) (blog_id category : option string)
| AddManual (blog_data : Post.t).

Definition invoke (c : call) : M string :=
  match c with
  | AddFromUrl d i cat => create_blog_structure_from_url d i cat
  | AddManual d => create_blog_structure_manual d
  end.

(** The record a run upserts. *)
Definition record_of (c : call) : Post.t :=
  match c with
  | AddFromUrl d i cat => resolve d i cat
  | AddManual d => d
  end.

(** The state a run leaves behind, whether it returned or raised. *)
Definition run_call (c : call) (w : world) : world := snd (invoke c w).

Definition run_calls (cs : list call) (w : world) : world :=
  fold_left (fun w c => run_call c w) cs w.

(** The list held by the index file, when it holds one. *)
Definition index_file (w : world) : option (list Entry.t) :=
  match fs w !! index_path with
  | Some (File (IndexDoc l)) => Some l
  | _ => None
  end.

(** What an upsert loads as the index: the empty list when the file
    is absent. *)
Definition loaded_index (w : world) : option (list Entry.t) :=
  match fs w !! index_path with
  | None => Some []
  | Some (File (IndexDoc l)) => Some l
  | _ => None
  end.

Definition is_file (w : world) (p : string) : bool :=
  match fs w !! p with Some (File _) => true | _ => false end.

Definition is_dir (w : world) (p : string) : bool :=
  match fs w !! p with Some Dir => true | _ => false end.

(** The place of the placeholder image of a record. *)
Definition placeholder_path_of (r : Post.t) : string :=
  Path.join (blog_dir_of (Post.id r)) (image_filename_of (Post.category r)).

(** A computation changes nothing outside the paths in [S]. *)
Definition touches {A} (S : string -> Prop) (c : M A) : Prop :=
  forall w p, ~ S p -> fs (snd (c w)) !! p = fs w !! p.

(** The paths one upsert of [r] may change. *)
Definition upsert_paths (r : Post.t) (p : string) : Prop :=
  p = blog_dir_of (Post.id r) \/ p = placeholder_path_of r \/
  p = blog_json_path_of (Post.id r) \/ p = index_path.

(** The index file is as before, unless its path held no file and
    has become a directory. *)
Definition index_kept (w w' : world) : Prop :=
  fs w' !! index_path = fs w !! index_path \/
  (fs w' !! index_path = Some Dir /\
   forall c, fs w !! index_path <> Some (File c)).

Definition keeps_index {A} (c : M A) : Prop :=
  forall w, index_kept w (snd (c w)).

(** What one upsert of [r] does to the index file: when it returns,
    the file holds the loaded list with the entry replaced or
    appended, sorted again; when it raises, the file is as before. *)
Definition index_effect (r : Post.t) (w : world)
    (res : outcome string * world) : Prop :=
  match fst res with
  | Return _ =>
      exists l, loaded_index w = Some l /\
        index_file (snd res) =
          Some (Index.sort_desc (Index.replace_or_append (entry_of r) l))
  | Raise _ => index_file (snd res) = index_file w
  end.

(** No file below [allBlogs] has a name that ends with [.svg]. *)
Definition no_svg_below (w : world) : Prop :=
  forall p c,
    fs w !! p = Some (File c) ->
    Path.starts_with (all_blogs_dir +:+ "/") p = true ->
    Path.ends_with ".svg" (Path.basename p) = false.

(** The same, as a test over the files of the walk. *)
Definition no_svg (w : world) : Prop :=
  forallb (fun p => negb (Path.ends_with ".svg" (Path.basename p)))
    (walk_files all_blogs_dir w) = true.

(** The paths an upsert of [r] touches are free of clashes between
    files and directories.  Nothing is said of their ancestors. *)
Definition writable (w : world) (r : Post.t) : Prop :=
  is_file w (blog_dir_of (Post.id r)) = false /\
  blog_dir_of (Post.id r) <> index_path /\
  is_dir w (placeholder_path_of r) = false /\
  is_dir w (blog_json_path_of (Post.id r)) = false.

End Scripts.

(* ===================================================================== *)
(** * Sample records and states                                           *)
(* ===================================================================== *)

Module Sample.
Import Os.

Definition root : string := "/repo".

Definition nothing : world := World ∅ [].

Definition post_a : Post.t :=
  Post.Make "a" "First post" "intro" "text" "me" "2024-01-01" "" "AWS".

Definition post_b : Post.t :=
  Post.Make "b" "Second post" "intro" "text" "me" "2024-06-01" "" "AWS".


Definition old_a1 : Entry.t :=
  Entry.Make "a" "Old one" "x" "2023-01-01" "allBlogs/a/aws.svg" "AWS" "".

Definition old_a2 : Entry.t :=
  Entry.Make "a" "Old two" "y" "2025-01-01" "allBlogs/a/aws.svg" "AWS" "".

(** An index file, edited by hand, with two entries of one id. *)
Definition doubled : world :=
  World {[ index_path root := File (IndexDoc [old_a1; old_a2]) ]} [].

(** The state after the two upserts of the specification's example. *)
Definition two_posts : world :=
  run_calls root [AddManual post_a; AddManual post_b] nothing.

(** A post directory without [blog.json], an index that lists the
    post, and an image to attach. *)
Definition orphan : world :=
  World (<[ blog_dir_of root "a" := Dir ]>
         (<[ index_path root := File (IndexDoc [entry_of post_a]) ]>
          {[ "/tmp/cover.png"%string := File (Raw []) ]})) [].

End Sample.

(* ===================================================================== *)
(** * More sample states                                                  *)
(* ===================================================================== *)

Module Demo.
Import Os.

(** The two posts of [Sample.two_posts], and an image to attach. *)
Definition with_cover : world :=
  set_fs (<[ "/tmp/cover.png"%string := File (Raw [Byte.x78]) ]>
            (fs Sample.two_posts)) Sample.two_posts.

(** The same after [add_blog_image --id a --image /tmp/cover.png]. *)
Definition attached : world :=
  snd (image_main Sample.root "a" "/tmp/cover.png" with_cover).

(** The two posts, and a directory where an image is expected. *)
Definition with_folder : world :=
  set_fs (<[ "/tmp/pics"%string := Dir ]> (fs Sample.two_posts))
    Sample.two_posts.

(** A post directory without metadata, an index that does not list the
    post, and an image. *)
Definition unlisted : world :=
  World (<[ blog_dir_of Sample.root "c" := Dir ]>
         (<[ index_path Sample.root := File (IndexDoc [entry_of Sample.post_a]) ]>
          {[ "/tmp/cover.png"%string := File (Raw []) ]})) [].

End Demo.

(* ===================================================================== *)
(** * The URL importer: extraction of the record                          *)
(* ===================================================================== *)

(** String methods that [extract_medium_info] uses. *)
Module Text.

(** [s.split(sep)[0]]: what stands before the first [sep]. *)
Fixpoint before (sep : ascii) (l : list ascii) : list ascii :=
  match l with
  | [] => []
  | c :: l' => if Ascii.eqb c sep then [] else c :: before sep l'
  end.

Definition first_field (sep : ascii) (s : string) : string :=
  Slug.text (before sep (Slug.chars s)).

(** [s.strip()]: white space removed at both ends. *)
Definition strip (s : string) : string :=
  Slug.text (SlugSpec.trim Chars.is_space (Slug.chars s)).

(** [s[:n]] *)
Definition prefix (n : nat) (s : string) : string :=
  Slug.text (firstn n (Slug.chars s)).

(** ['#' * n] *)
Fixpoint hashes (n : nat) : string :=
  match n with
  | O => EmptyString
  | S n' => String "#" (hashes n')
  end.

Definition blank_line : string := String "010" (String "010" EmptyString).

(** ["\n\n".join(blocks)] *)
Fixpoint join_blocks (blocks : list string) : string :=
  match blocks with
  | [] => EmptyString
  | [b] => b
  | b :: rest => b +:+ blank_line +:+ join_blocks rest
  end.

End Text.

(** The page as the importer sees it through its queries.  Fetching and
    HTML parsing belong to the libraries [requests] and [bs4]; each field
    is the result of one query of [extract_medium_info]. *)
Module Medium.

(** The elements that [find_all(['p', 'h1', ..., 'h6'])] returns. *)
Inductive tag : Type := P | H1 | H2 | H3 | H4 | H5 | H6.

(** [int(p.name[1])] when [p.name.startswith('h')]. *)
Definition level (t : tag) : option nat :=
  match t with
  | P => None
  | H1 => Some 1 | H2 => Some 2 | H3 => Some 3
  | H4 => Some 4 | H5 => Some 5 | H6 => Some 6
  end.

(** A [meta] element: absent, or present with or without a [content]
    attribute. *)
Definition meta : Type := option (option string).

Record page : Type := Page {
  title : option string;                    (* soup.find('title').text *)
  article : option (list (tag * string));   (* the article's blocks, with .text *)
  author : meta;                            (* meta name="author" *)
  published : meta;                         (* meta property="article:published_time" *)
  description : meta;                       (* meta name="description" *)
  first_paragraph : option string           (* soup.find('p').text *)
}.

(** What [requests.get] and [raise_for_status] give: an exception with
    its text, or the page. *)
Inductive response : Type :=
| Failed (reason : string)
| Loaded (p : page).

(** The body of the [try]: a value, or the text of the exception. *)
Definition attempt (A : Type) : Type := (string + A)%type.

Definition and_then {A B} (a : attempt A) (k : A -> attempt B) : attempt B :=
  match a with
  | inl e => inl e
  | inr x => k x
  end.

(** [elem['content']] *)
Definition content_of (attribute : option string) : attempt string :=
  match attribute with
  | Some v => inr v
  | None => inl "'content'"%string
  end.

(** One block of the article as Markdown. *)
Definition block (b : tag * string) : string :=
  match level (fst b) with
  | Some n => Text.hashes n +:+ " " +:+ Text.strip (snd b)
  | None => Text.strip (snd b)
  end.

Definition placeholder_content (title : string) : string :=
  "# " +:+ title +:+ Text.blank_line
  +:+ "Content not available. Please add your content here.".

Definition extract (url today : string) (r : response)
    : attempt UrlData.t :=
  match r with
  | Failed reason => inl reason
  | Loaded soup =>
      and_then
        (match title soup with
         | Some t => inr (Text.strip (Text.first_field "|" t))
         | None => inl "'NoneType' object has no attribute 'text'"%string
         end) (fun title =>
      let content :=
        match article soup with
        | Some paragraphs => Text.join_blocks (map block paragraphs)
        | None => placeholder_content title
        end in
      and_then
        (match author soup with
         | Some author_elem => content_of author_elem
         | None => inr "Unknown Author"%string
         end) (fun author =>
      and_then
        (match published soup with
         | Some date_elem =>
             and_then (content_of date_elem)
               (fun c => inr (Text.first_field "T" c))
         | None => inr today
         end) (fun publish_date =>
      and_then
        (match description soup with
         | Some excerpt => content_of excerpt
         | None =>
             match first_paragraph soup with
             | Some first_para => inr (Text.prefix 200 first_para +:+ "...")
             | None => inr ("Read about " +:+ title)
             end
         end) (fun excerpt =>
      inr (UrlData.Make title content author publish_date excerpt url)))))
  end.

(** [extract_medium_info(url)]: every exception is caught, reported and
    turned into [None]. *)
Definition extract_medium_info (url today : string) (r : response)
    : Os.M (option UrlData.t) :=
  match extract url today r with
  | inr blog_data => Os.ret (Some blog_data)
  | inl e =>
      Os.print ("Error extracting information from " +:+ url +:+ ": " +:+ e) ;;;
      Os.ret None
  end.

End Medium.

(* ===================================================================== *)
(** * The interactive script: prompts                                     *)
(* ===================================================================== *)

Module Prompt.

(** [input(prompt)]: the prompt is written, and the terminal gives the
    line the user typed. *)
Definition input (prompt typed : string) : Os.M string :=
  Os.print prompt ;;; Os.ret typed.

(** [get_user_input(prompt, default)] *)
Definition get_user_input (prompt : string) (default : option string)
    (typed : string) : Os.M string :=
  match default with
  | Some (String c d) =>
      result <- input (prompt +:+ " [" +:+ String c d +:+ "]: ") typed ;;
      Os.ret (match result with
              | EmptyString => String c d
              | _ => result
              end)
  | _ => input (prompt +:+ ": ") typed
  end.

(** [get_multiline_input(prompt)].  The temporary file and the editor
    are outside the model: [edited] is what the file holds when the user
    comes back. *)
Definition get_multiline_input (prompt edited : string) : Os.M string :=
  Os.print (prompt +:+ " (Your default editor will open)") ;;;
  input "Press Enter when you've finished editing the content..." "" ;;;
  Os.ret edited.

(** The lines the user types, and the text left in the editor. *)
Record answers : Type := Answers {
  title : string;
  blog_id : string;
  author : string;
  category : string;
  medium_url : string;
  publish_date : string;
  excerpt : string;
  content : string
}.

End Prompt.

Section Mains.
Import Os.
Variable script_dir : string.

Definition newline : string := String "010" EmptyString.

(** The last two lines both scripts print. *)
Definition report (blog_id : string) : M unit :=
  print ("Blog directory: /Users/saif/Projects/Public-Assets/Blogs/allBlogs/"
         +:+ blog_id +:+ "/").

(** [add_blog_from_url.main()] with the parsed arguments, the date of
    the day and the answer of the network. *)
Definition url_main (url : string) (blog_id category : option string)
    (today : string) (r : Medium.response) : M unit :=
  print ("Fetching blog data from " +:+ url +:+ "...") ;;;
  blog_data <- Medium.extract_medium_info url today r ;;
  match blog_data with
  | None =>
      print "Failed to extract blog data. Exiting." ;;;
      raise (SystemExit 1)
  | Some blog_data =>
      print ("Creating blog structure for '" +:+ UrlData.title blog_data
             +:+ "'...") ;;;
      blog_id <- create_blog_structure_from_url script_dir blog_data
                   blog_id category ;;
      print ("Blog successfully added with ID: " +:+ blog_id) ;;;
      report blog_id
  end.

(** [add_blog_manual.main()] with the date of the day and the user's
    answers. *)
Definition manual_main (today : string) (a : Prompt.answers) : M unit :=
  print ("=== Add New Blog to Public-Assets Repository ===" +:+ newline) ;;;
  title <- Prompt.get_user_input "Blog title" None (Prompt.title a) ;;
  let suggested_id := Slug.slugify title in
  blog_id <- Prompt.get_user_input "Blog ID" (Some suggested_id)
               (Prompt.blog_id a) ;;
  author <- Prompt.get_user_input "Author" (Some "SolutionsGSI Team"%string)
              (Prompt.author a) ;;
  category <- Prompt.get_user_input "Category" (Some "AWS"%string)
                (Prompt.category a) ;;
  medium_url <- Prompt.get_user_input "Medium URL" (Some ""%string)
                  (Prompt.medium_url a) ;;
  publish_date <- Prompt.get_user_input "Publish date (YYYY-MM-DD)"
                    (Some today) (Prompt.publish_date a) ;;
  excerpt <- Prompt.get_user_input "Blog excerpt (short description)" None
               (Prompt.excerpt a) ;;
  print (newline +:+ "Now you'll enter the blog content in Markdown format.") ;;;
  content <- Prompt.get_multiline_input "Blog content" (Prompt.content a) ;;
  let blog_data :=
    Post.Make blog_id title excerpt content author publish_date medium_url
      category in
  print (newline +:+ "Creating blog structure...") ;;;
  blog_id <- create_blog_structure_manual script_dir blog_data ;;
  print (newline +:+ "Blog successfully added with ID: " +:+ blog_id) ;;;
  report blog_id.

(** The record that the interactive script assembles from the answers. *)
Definition answered (today : string) (a : Prompt.answers) : Post.t :=
  let or_else (typed default : string) : string :=
    match typed with
    | EmptyString => default
    | _ => typed
    end in
  Post.Make
    (or_else (Prompt.blog_id a) (Slug.slugify (Prompt.title a)))
    (Prompt.title a) (Prompt.excerpt a) (Prompt.content a)
    (or_else (Prompt.author a) "SolutionsGSI Team"%string)
    (or_else (Prompt.publish_date a) today)
    (Prompt.medium_url a)
    (or_else (Prompt.category a) "AWS"%string).

End Mains.

Module Demo2.
Import Os.

(** The two posts, the first of them with its placeholder image. *)
Definition with_image : world :=
  set_fs (<[ "/repo/Blogs/allBlogs/a/aws.svg"%string := File (Raw [Byte.x3c]) ]>
            (fs Sample.two_posts)) Sample.two_posts.

End Demo2.

Module Demo3.

(** A third post, of the same day as [Sample.post_b]. *)
Definition post_c : Post.t :=
  Post.Make "c" "Third post" "intro" "text" "me" "2024-06-01" "" "AWS".

(** The two posts, and a regular file in the place where the directory
    of the post ["c"] would be. *)
Definition blocked : Os.world :=
  Os.set_fs (<[ "/repo/Blogs/allBlogs/c"%string := Os.File (Os.Raw []) ]>
               (Os.fs Sample.two_posts)) Sample.two_posts.

(** [Sample.post_a] with a new title and text, and the same date. *)
Definition post_a_edited : Post.t :=
  Post.Make "a" "First post, revised" "intro" "longer text" "me"
    "2024-01-01" "" "AWS".

(** What the importer extracts from a page whose title is punctuation. *)
Definition untitled : UrlData.t :=
  UrlData.Make "?!" "text" "me" "2024-03-01" "intro" "https://medium.com/p/1".

(** A page with a title, two blocks and a date, without author and
    description elements. *)
Definition article_page : Medium.page :=
  Medium.Page (Some " Hello World | Medium "%string)
    (Some [(Medium.H1, "Hello World"%string); (Medium.P, " Short. "%string)])
    None (Some (Some "2024-02-03T10:00:00Z"%string)) None
    (Some "Short."%string).

(** What the importer extracts from it. *)
Definition extracted : UrlData.t :=
  UrlData.Make "Hello World"
    ("# Hello World" +:+ Text.blank_line +:+ "Short.")
    "Unknown Author" "2024-02-03" "Short...." "https://medium.com/p/1".

(** The answers of a user who gives a title, an excerpt and a text and
    accepts every default. *)
Definition typed : Prompt.answers :=
  Prompt.Answers "Hello, World!" "" "" "" "" "" "intro" "text".

End Demo3.

(* ===================================================================== *)
(** * Proofs                                                              *)
(* ===================================================================== *)

Example slugify_title :
  Slug.slugify "  Hello, World_of-- AWS!  "%string = "hello-world-of-aws"%string.
Proof. reflexivity. Qed.

(** ** The three substitutions of [slugify] as list functions *)

Section SubLemmas.
Import Chars Re Slug SlugSpec.

Lemma drop_while_length p l : length (drop_while p l) <= length l.
Proof.
  induction l as [|c l IH]; simpl; [lia|].
  destruct (p c); simpl; lia.
Qed.

Lemma plus_k_greedy p s :
  plus_k p (fun rest => Some rest) s = Some (drop_while p s).
Proof.
  induction s as [|c s IH]; simpl; [reflexivity|].
  destruct (p c); [now rewrite IH | reflexivity].
Qed.

Lemma sub_loop_class p fuel start s :
  length s < fuel ->
  sub_loop fuel (Class p) [] start s = List.filter (fun c => negb (p c)) s.
Proof.
  revert start s.
  induction fuel as [|fuel IH]; intros start s Hlt; [lia|].
  destruct s as [|c s]; [reflexivity|].
  simpl in Hlt. cbn [sub_loop]. unfold match_at. cbn [match_k List.filter].
  destruct (p c); cbn [negb].
  - replace (Nat.ltb (length s) (length (c :: s))) with true
      by (symmetry; apply Nat.ltb_lt; simpl; lia).
    simpl. apply IH. lia.
  - f_equal. apply IH. lia.
Qed.

Lemma sub_class p s :
  sub (Class p) [] s = List.filter (fun c => negb (p c)) s.
Proof. apply sub_loop_class. lia. Qed.

Lemma collapse_runs_run sep c l :
  sep c = true ->
  collapse_runs sep (c :: l) = "-" :: collapse_runs sep (drop_while sep l).
Proof.
  intros Hc. revert c Hc.
  induction l as [|c' l IH]; intros c Hc.
  - simpl. now rewrite Hc.
  - change (collapse_runs sep (c :: c' :: l))
      with (if sep c
            then if sep c' then collapse_runs sep (c' :: l)
                 else "-" :: collapse_runs sep (c' :: l)
            else c :: collapse_runs sep (c' :: l)).
    rewrite Hc. cbn [drop_while].
    destruct (sep c') eqn:Hc'; [now apply IH | reflexivity].
Qed.

Lemma collapse_runs_keep sep c l :
  sep c = false -> collapse_runs sep (c :: l) = c :: collapse_runs sep l.
Proof. intros Hc. simpl. now rewrite Hc. Qed.

Lemma sub_loop_plus p fuel start s :
  length s < fuel ->
  sub_loop fuel (Plus p) ["-"] start s = collapse_runs p s.
Proof.
  revert start s.
  induction fuel as [|fuel IH]; intros start s Hlt; [lia|].
  destruct s as [|c s]; [reflexivity|].
  simpl in Hlt. cbn [sub_loop]. unfold match_at. cbn [match_k].
  destruct (p c) eqn:Hc.
  - rewrite plus_k_greedy, (collapse_runs_run _ _ _ Hc).
    pose proof (drop_while_length p s) as Hd.
    replace (Nat.ltb (length (drop_while p s)) (length (c :: s))) with true
      by (symmetry; apply Nat.ltb_lt; simpl; lia).
    simpl. f_equal. apply IH. lia.
  - rewrite (collapse_runs_keep _ _ _ Hc). f_equal. apply IH. lia.
Qed.

Lemma sub_plus p s : sub (Plus p) ["-"] s = collapse_runs p s.
Proof. apply sub_loop_plus. lia. Qed.

Lemma forallb_rev {A} (p : A -> bool) (l : list A) :
  forallb p (rev l) = forallb p l.
Proof.
  induction l as [|x l IH]; [reflexivity|].
  simpl. rewrite forallb_app, IH. simpl.
  rewrite andb_true_r. apply andb_comm.
Qed.

Lemma drop_while_all p l : forallb p l = true -> drop_while p l = [].
Proof.
  induction l as [|c l IH]; simpl; [reflexivity|].
  destruct (p c); simpl; [exact IH | discriminate].
Qed.

Lemma drop_while_snoc p l c :
  drop_while p (l ++ [c]) =
  if forallb p l then (if p c then [] else [c]) else drop_while p l ++ [c].
Proof.
  induction l as [|x l IH]; simpl; [reflexivity|].
  destruct (p x); simpl; [exact IH | reflexivity].
Qed.

Lemma drop_trailing_rev p l :
  drop_trailing p l = rev (drop_while p (rev l)).
Proof.
  induction l as [|c l IH]; [reflexivity|].
  cbn [drop_trailing rev]. rewrite drop_while_snoc, forallb_rev.
  destruct (forallb p l) eqn:Hall.
  - rewrite andb_true_r. destruct (p c); [reflexivity|].
    rewrite IH, drop_while_all by now rewrite forallb_rev.
    reflexivity.
  - rewrite andb_false_r, rev_app_distr, IH. reflexivity.
Qed.

Lemma no_newline_tail c l : no_newline (c :: l) = true -> no_newline l = true.
Proof. unfold no_newline. simpl. intros H. now apply andb_true_iff in H. Qed.

Lemma no_newline_drop_while p l :
  no_newline l = true -> no_newline (drop_while p l) = true.
Proof.
  induction l as [|c l IH]; intros H; [reflexivity|].
  simpl. destruct (p c); [apply IH; eapply no_newline_tail; eauto | exact H].
Qed.

Lemma at_end_no_newline l :
  no_newline l = true -> at_end l = match l with [] => true | _ => false end.
Proof.
  destruct l as [|c [|c' l]]; try reflexivity.
  unfold no_newline. simpl. rewrite andb_true_r.
  intros H. now apply negb_true_iff in H.
Qed.

(** [-+$] at a position inside the text: the run must reach the end. *)
Lemma plus_k_to_end p l :
  no_newline l = true ->
  plus_k p (fun rest => if at_end rest then Some rest else None) l =
  if forallb p l then Some [] else None.
Proof.
  induction l as [|c l IH]; intros Hnl; [reflexivity|].
  cbn [plus_k forallb].
  destruct (p c); cbn [andb].
  - rewrite IH by (eapply no_newline_tail; eauto).
    destruct (forallb p l); [reflexivity|].
    now rewrite at_end_no_newline.
  - now rewrite at_end_no_newline.
Qed.

Lemma match_edges_inside l :
  no_newline l = true ->
  match_at re_edges false l =
  match l with
  | c :: l' => if (is_hyphen c && forallb is_hyphen l')%bool then Some [] else None
  | [] => None
  end.
Proof.
  intros Hnl. unfold match_at, re_edges. cbn [match_k].
  destruct l as [|c l]; [reflexivity|].
  destruct (is_hyphen c); [|reflexivity].
  rewrite plus_k_to_end by (eapply no_newline_tail; eauto).
  reflexivity.
Qed.

Lemma match_edges_start l :
  no_newline l = true ->
  match_at re_edges true l =
  match l with
  | c :: l' => if is_hyphen c then Some (drop_while is_hyphen l') else None
  | [] => None
  end.
Proof.
  intros Hnl. unfold match_at, re_edges. cbn [match_k].
  destruct l as [|c l]; [reflexivity|].
  destruct (is_hyphen c); [|reflexivity].
  now rewrite plus_k_greedy.
Qed.

Lemma sub_loop_edges_inside fuel l :
  no_newline l = true -> length l < fuel ->
  sub_loop fuel re_edges [] false l = drop_trailing is_hyphen l.
Proof.
  revert l.
  induction fuel as [|fuel IH]; intros l Hnl Hlt; [lia|].
  cbn [sub_loop]. rewrite match_edges_inside by exact Hnl.
  destruct l as [|c l]; [reflexivity|].
  simpl in Hlt. cbn [drop_trailing].
  assert (Htl : no_newline l = true) by (eapply no_newline_tail; eauto).
  destruct (is_hyphen c && forallb is_hyphen l)%bool.
  - simpl. destruct fuel; [lia|]. reflexivity.
  - f_equal. apply IH; [exact Htl | lia].
Qed.

Lemma sub_edges l :
  no_newline l = true -> sub re_edges [] l = trim is_hyphen l.
Proof.
  intros Hnl. unfold sub, trim. rewrite <- drop_trailing_rev.
  cbn [sub_loop]. rewrite match_edges_start by exact Hnl.
  destruct l as [|c l]; [reflexivity|].
  assert (Htl : no_newline l = true) by (eapply no_newline_tail; eauto).
  cbn [drop_while]. destruct (is_hyphen c) eqn:Hc.
  - pose proof (drop_while_length is_hyphen l) as Hd.
    replace (Nat.ltb (length (drop_while is_hyphen l)) (length (c :: l)))
      with true by (symmetry; apply Nat.ltb_lt; simpl; lia).
    cbn [app]. apply sub_loop_edges_inside;
      [now apply no_newline_drop_while | simpl; lia].
  - cbn [drop_trailing]. rewrite Hc. cbn [andb]. f_equal.
    apply sub_loop_edges_inside; [exact Htl | simpl; lia].
Qed.

End SubLemmas.

(** ** Facts about single characters, by enumeration of the 256 codes *)

Section CharFacts.
Import Chars SlugSpec.

Local Ltac by_cases c :=
  destruct c as [[] [] [] [] [] [] [] []]; vm_compute;
  try reflexivity; try discriminate; intros; try discriminate; auto.

Lemma lower_char_idem c : lower_char (lower_char c) = lower_char c.
Proof. by_cases c. Qed.

Lemma kept_code_iff c :
  negb (not_word_space_hyphen c) = kept_in_code c.
Proof. by_cases c. Qed.

Lemma is_hyphen_eq c : is_hyphen c = true -> c = "-".
Proof. unfold is_hyphen. apply Ascii.eqb_eq. Qed.

Lemma hyphen_is_separator c : is_hyphen c = true -> is_separator c = true.
Proof. by_cases c. Qed.

Lemma separator_not_newline c :
  is_separator c = false -> Ascii.eqb c "010" = false.
Proof. by_cases c. Qed.

Lemma lowered_kept_slug c :
  lowered_kept c = true -> is_separator c = false -> slug_char c = true.
Proof. by_cases c. Qed.

Lemma slug_char_not_separator c :
  slug_char c = true -> is_separator c = false.
Proof. by_cases c. Qed.

Lemma slug_char_kept c : slug_char c = true -> kept_in_code c = true.
Proof. by_cases c. Qed.

Lemma slug_char_lower c : slug_char c = true -> lower_char c = c.
Proof. by_cases c. Qed.

Lemma slug_char_not_slash c : slug_char c = true -> Ascii.eqb c "/" = false.
Proof. by_cases c. Qed.

End CharFacts.

(** ** [slugify] is the pipeline, and its result is a slug *)

Section SlugShape.
Import Chars Re Slug SlugSpec.

Lemma collapse_no_newline l :
  no_newline (collapse_runs is_separator l) = true.
Proof.
  induction l as [|c l IH]; [reflexivity|].
  cbn [collapse_runs]. destruct (is_separator c) eqn:Hc.
  - destruct l as [|c' l']; [reflexivity|].
    destruct (is_separator c'); exact IH.
  - unfold no_newline in *. cbn [forallb].
    rewrite (separator_not_newline _ Hc). exact IH.
Qed.

Lemma slugify_chars_pipeline l :
  slugify_chars l = pipeline kept_in_code l.
Proof.
  unfold slugify_chars, pipeline, re_strip, re_runs, lower.
  rewrite sub_class, sub_plus.
  rewrite (filter_ext _ kept_in_code) by (intros c; apply kept_code_iff).
  apply sub_edges, collapse_no_newline.
Qed.

(** *** The result of the pipeline has the shape of a slug *)

Lemma lowered_kept_filter l :
  forallb lowered_kept (List.filter kept_in_code (map lower_char l)) = true.
Proof.
  induction l as [|c l IH]; [reflexivity|].
  cbn [map List.filter].
  destruct (kept_in_code (lower_char c)) eqn:Hk; [|exact IH].
  cbn [forallb]. rewrite IH, andb_true_r.
  unfold lowered_kept. rewrite Hk, lower_char_idem.
  now rewrite Ascii.eqb_refl.
Qed.

Lemma not_separator_not_hyphen c :
  is_separator c = false -> is_hyphen c = false.
Proof.
  intros Hs. destruct (is_hyphen c) eqn:Hh; [|reflexivity].
  apply hyphen_is_separator in Hh. congruence.
Qed.

Lemma collapse_runs_ok l :
  forallb lowered_kept l = true ->
  runs_ok false (collapse_runs is_separator l) = true /\
  (match l with
   | c :: _ => is_separator c = false
   | [] => True
   end -> runs_ok true (collapse_runs is_separator l) = true).
Proof.
  induction l as [|c l IH]; intros Hall; [split; reflexivity|].
  cbn [forallb] in Hall. apply andb_true_iff in Hall as [Hc Hall].
  specialize (IH Hall). destruct IH as [IHf IHt].
  cbn [collapse_runs]. destruct (is_separator c) eqn:Hs.
  - split; [|discriminate].
    destruct l as [|c' l']; [reflexivity|].
    destruct (is_separator c') eqn:Hs'; [exact IHf|].
    cbn [runs_ok]. change (is_hyphen "-") with true. cbn [negb andb].
    now apply IHt.
  - assert (Hok : (slug_char c && runs_ok false (collapse_runs is_separator l))%bool
                  = true)
      by (rewrite IHf, (lowered_kept_slug _ Hc Hs); reflexivity).
    cbn [runs_ok]. rewrite (not_separator_not_hyphen _ Hs).
    split; [exact Hok | intros _; exact Hok].
Qed.

Lemma runs_ok_weaken l : runs_ok true l = true -> runs_ok false l = true.
Proof.
  destruct l as [|c l]; [reflexivity|]. cbn [runs_ok].
  destruct (is_hyphen c); [discriminate | intros H0; exact H0].
Qed.

Lemma drop_while_runs_ok l :
  runs_ok false l = true -> runs_ok true (drop_while is_hyphen l) = true.
Proof.
  destruct l as [|c l]; [reflexivity|].
  cbn [runs_ok drop_while]. destruct (is_hyphen c) eqn:Hc.
  - cbn [negb andb]. intros H.
    destruct l as [|c' l']; [reflexivity|].
    cbn [drop_while]. revert H. cbn [runs_ok].
    destruct (is_hyphen c') eqn:Hc'; [discriminate|].
    intros H0. cbn [runs_ok]. now rewrite Hc'.
  - intros H. cbn [runs_ok]. now rewrite Hc.
Qed.

Lemma drop_trailing_nil p l :
  drop_trailing p l = [] -> forallb p l = true.
Proof.
  destruct l as [|c l]; [reflexivity|]. cbn [drop_trailing forallb].
  destruct (p c && forallb p l)%bool; [reflexivity | discriminate].
Qed.

Lemma drop_trailing_slug b l :
  runs_ok b l = true ->
  match drop_trailing is_hyphen l with
  | [] => True
  | w => slug_from b w = true
  end.
Proof.
  revert b. induction l as [|c l IH]; intros b Hok; [exact I|].
  cbn [drop_trailing].
  destruct (is_hyphen c && forallb is_hyphen l)%bool eqn:Hend; [exact I|].
  cbn [runs_ok] in Hok. cbn [slug_from].
  destruct (is_hyphen c) eqn:Hc.
  - apply andb_true_iff in Hok as [Hb Hok]. rewrite Hb. cbn [andb].
    specialize (IH true Hok).
    destruct (drop_trailing is_hyphen l) eqn:Hw; [|exact IH].
    apply drop_trailing_nil in Hw. cbn [andb] in Hend. congruence.
  - apply andb_true_iff in Hok as [Hs Hok]. rewrite Hs. cbn [andb].
    specialize (IH false Hok).
    destruct (drop_trailing is_hyphen l); [reflexivity | exact IH].
Qed.

Lemma pipeline_is_slug l : is_slug (pipeline kept_in_code l) = true.
Proof.
  unfold pipeline, trim. rewrite <- drop_trailing_rev.
  pose proof (collapse_runs_ok _ (lowered_kept_filter l)) as [Hf _].
  apply drop_while_runs_ok in Hf.
  apply drop_trailing_slug in Hf.
  unfold is_slug.
  destruct (drop_trailing is_hyphen _); [reflexivity | exact Hf].
Qed.

(** *** The pipeline leaves a slug unchanged *)

Lemma slug_from_lower b l : slug_from b l = true -> map lower_char l = l.
Proof.
  revert b. induction l as [|c l IH]; intros b H; [reflexivity|].
  cbn [slug_from] in H. cbn [map].
  destruct (is_hyphen c) eqn:Hc; apply andb_true_iff in H as [H1 H2].
  - apply is_hyphen_eq in Hc. subst c. f_equal. eapply IH; eauto.
  - f_equal; [now apply slug_char_lower | eapply IH; eauto].
Qed.

Lemma slug_from_filter b l :
  slug_from b l = true -> List.filter kept_in_code l = l.
Proof.
  revert b. induction l as [|c l IH]; intros b H; [reflexivity|].
  cbn [slug_from] in H. cbn [List.filter].
  destruct (is_hyphen c) eqn:Hc; apply andb_true_iff in H as [H1 H2].
  - apply is_hyphen_eq in Hc. subst c.
    change (kept_in_code "-") with true. f_equal. eapply IH; eauto.
  - rewrite (slug_char_kept _ H1). f_equal. eapply IH; eauto.
Qed.

Lemma slug_from_collapse b l :
  slug_from b l = true -> collapse_runs is_separator l = l.
Proof.
  revert b. induction l as [|c l IH]; intros b H; [reflexivity|].
  cbn [slug_from] in H.
  destruct (is_hyphen c) eqn:Hc; apply andb_true_iff in H as [H1 H2].
  - rewrite (collapse_runs_run _ _ _ (hyphen_is_separator _ Hc)).
    apply is_hyphen_eq in Hc. subst c. f_equal.
    destruct l as [|c' l']; [discriminate|].
    assert (Hs : is_separator c' = false).
    { cbn [slug_from] in H2.
      destruct (is_hyphen c'); [discriminate|].
      apply andb_true_iff in H2 as [H2 _].
      now apply slug_char_not_separator. }
    cbn [drop_while]. rewrite Hs. eapply IH; eauto.
  - rewrite (collapse_runs_keep _ _ _ (slug_char_not_separator _ H1)).
    f_equal. eapply IH; eauto.
Qed.

Lemma slug_from_not_all_hyphen l :
  slug_from true l = true -> forallb is_hyphen l = false.
Proof.
  destruct l as [|c l]; [discriminate|]. cbn [slug_from forallb].
  destruct (is_hyphen c); [discriminate | reflexivity].
Qed.

Lemma slug_from_drop_trailing b l :
  slug_from b l = true -> drop_trailing is_hyphen l = l.
Proof.
  revert b. induction l as [|c l IH]; intros b H; [reflexivity|].
  cbn [slug_from] in H. cbn [drop_trailing].
  destruct (is_hyphen c) eqn:Hc; apply andb_true_iff in H as [H1 H2].
  - rewrite (slug_from_not_all_hyphen _ H2). cbn [andb].
    f_equal. eapply IH; eauto.
  - cbn [andb]. f_equal. eapply IH; eauto.
Qed.

Lemma slug_from_drop_while l :
  slug_from true l = true -> drop_while is_hyphen l = l.
Proof.
  destruct l as [|c l]; [reflexivity|]. cbn [slug_from drop_while].
  destruct (is_hyphen c); [discriminate | reflexivity].
Qed.

Lemma pipeline_fixes_slug l :
  is_slug l = true -> pipeline kept_in_code l = l.
Proof.
  destruct l as [|c l]; [reflexivity|].
  unfold is_slug. generalize (c :: l). clear c l. intros l H.
  unfold pipeline, trim. rewrite <- drop_trailing_rev.
  rewrite (slug_from_lower _ _ H), (slug_from_filter _ _ H),
    (slug_from_collapse _ _ H), (slug_from_drop_while _ H).
  eapply slug_from_drop_trailing; eauto.
Qed.

Lemma chars_text l : chars (text l) = l.
Proof. apply list_ascii_of_string_of_list_ascii. Qed.

End SlugShape.

(** ** Paths: suffixes and [os.path.join] *)

Section PathFacts.
Import Path.

Lemma chars_app a b : Slug.chars (a +:+ b) = Slug.chars a ++ Slug.chars b.
Proof.
  unfold Slug.chars. induction a as [|c a IH]; [reflexivity|].
  cbn. now rewrite <- IH.
Qed.

Lemma chars_inj a b : Slug.chars a = Slug.chars b -> a = b.
Proof.
  unfold Slug.chars. intros H.
  rewrite <- (string_of_list_ascii_of_string a),
          <- (string_of_list_ascii_of_string b).
  now rewrite H.
Qed.

Lemma chars_length a : length (Slug.chars a) = String.length a.
Proof.
  unfold Slug.chars. induction a as [|c a IH]; [reflexivity|].
  cbn. now rewrite IH.
Qed.

Lemma app_length_string a b :
  String.length (a +:+ b) = String.length a + String.length b.
Proof. rewrite <- !chars_length, chars_app. apply length_app. Qed.

Lemma app_inv_l a b c : a +:+ b = a +:+ c -> b = c.
Proof.
  intros H. apply chars_inj. apply (f_equal Slug.chars) in H.
  rewrite !chars_app in H. now apply app_inv_head in H.
Qed.


Lemma app_assoc_string a b c : (a +:+ b) +:+ c = a +:+ b +:+ c.
Proof.
  apply chars_inj. rewrite !chars_app. symmetry. apply app_assoc.
Qed.

Lemma prefix_of_app x y z :
  length x <= length y -> prefix_of x (y ++ z) = prefix_of x y.
Proof.
  revert y. induction x as [|c x IH]; intros [|d y] Hlen;
    simpl in *; try reflexivity; try lia.
  rewrite IH by lia. reflexivity.
Qed.

(** A suffix no longer than [t] is decided by [t] alone. *)
Lemma ends_with_app suf pre t :
  String.length suf <= String.length t ->
  ends_with suf (pre +:+ t) = ends_with suf t.
Proof.
  intros Hlen. unfold ends_with.
  rewrite chars_app, rev_app_distr. apply prefix_of_app.
  now rewrite !length_rev, !chars_length.
Qed.

Lemma join_suffix a b : exists pre, join a b = pre +:+ b.
Proof.
  unfold join. destruct (starts_with "/" b).
  - now exists ""%string.
  - destruct (String.eqb a "" || ends_with "/" a)%bool.
    + now exists a.
    + exists (a +:+ "/")%string. now rewrite app_assoc_string.
Qed.

Lemma ends_with_join suf a b :
  String.length suf <= String.length b ->
  ends_with suf (join a b) = ends_with suf b.
Proof.
  intros Hlen. destruct (join_suffix a b) as [pre ->].
  now apply ends_with_app.
Qed.

Lemma join_relative a b :
  starts_with "/" b = false ->
  join a b = a +:+ b \/ join a b = a +:+ "/" +:+ b.
Proof.
  intros Hb. unfold join. rewrite Hb.
  destruct (String.eqb a "" || ends_with "/" a)%bool; auto.
Qed.

Lemma join_longer a b :
  starts_with "/" b = false -> b <> ""%string -> join a b <> a.
Proof.
  intros Hb Hne Heq.
  assert (Hlen : String.length (join a b) = String.length a) by now rewrite Heq.
  assert (0 < String.length b) by (destruct b; [congruence | simpl; lia]).
  destruct (join_relative a b Hb) as [E|E]; rewrite E in Hlen;
    rewrite !app_length_string in Hlen; simpl in Hlen; lia.
Qed.

Lemma has_sep_starts_with s : has_sep s = false -> starts_with "/" s = false.
Proof.
  intros H. destruct s as [|c s]; [reflexivity|].
  cbn [has_sep] in H. apply orb_false_iff in H as [H1 _].
  unfold starts_with.
  change (Slug.chars (String c s)) with (c :: Slug.chars s).
  change (Slug.chars "/") with ["/"]. cbn [prefix_of].
  rewrite Ascii.eqb_sym, H1. reflexivity.
Qed.

Lemma has_sep_app a b : has_sep (a +:+ b) = (has_sep a || has_sep b)%bool.
Proof.
  induction a as [|c a IH]; [reflexivity|].
  change (String c a +:+ b) with (String c (a +:+ b)).
  cbn [has_sep]. rewrite IH. now rewrite orb_assoc.
Qed.

Lemma has_sep_chars s :
  has_sep s = false -> forall c, In c (Slug.chars s) -> Ascii.eqb c "/" = false.
Proof.
  unfold Slug.chars. induction s as [|d s IH]; intros Hs c Hin.
  - destruct Hin.
  - cbn [has_sep] in Hs. apply orb_false_iff in Hs as [H1 H2].
    destruct Hin as [->|Hin]; [exact H1 | now apply IH].
Qed.

Lemma has_sep_ends_with s : has_sep s = false -> ends_with "/" s = false.
Proof.
  intros H. unfold ends_with. change (rev (Slug.chars "/")) with ["/"].
  destruct (rev (Slug.chars s)) as [|c l] eqn:E; [reflexivity|].
  cbn [prefix_of]. rewrite andb_true_r, Ascii.eqb_sym.
  apply (has_sep_chars s H). apply in_rev. rewrite E. now left.
Qed.

(** The base name of [pre/t] is [t] when [t] has no separator. *)
Lemma basename_after_sep pre t :
  has_sep t = false -> basename (pre +:+ "/" +:+ t) = t.
Proof.
  intros Ht. induction pre as [|c pre IH].
  - change ("" +:+ "/" +:+ t) with (String "/" t).
    cbn [basename]. rewrite Ht. now rewrite Ascii.eqb_refl.
  - change (String c pre +:+ "/" +:+ t) with (String c (pre +:+ "/" +:+ t)).
    cbn [basename]. rewrite has_sep_app.
    change ("/" +:+ t) with (String "/" t). cbn [has_sep].
    rewrite Ascii.eqb_refl, orb_true_r. exact IH.
Qed.

End PathFacts.

(** ** The index list: replace-or-append and the stable sort *)

Section IndexFacts.
Import Index.

Lemma ltb_false_leb a b : String.ltb a b = false -> String.leb b a = true.
Proof.
  unfold String.ltb, String.leb. rewrite (String.compare_antisym b a).
  destruct (String.compare a b); simpl; congruence.
Qed.

Lemma ltb_true_leb a b : String.ltb a b = true -> String.leb a b = true.
Proof.
  unfold String.ltb, String.leb.
  destruct (String.compare a b); simpl; congruence.
Qed.

Lemma leb_ltb_false a b : String.leb b a = true -> String.ltb a b = false.
Proof.
  unfold String.ltb, String.leb. rewrite (String.compare_antisym b a).
  destruct (String.compare a b); simpl; congruence.
Qed.

Lemma insert_desc_perm x l : Permutation (insert_desc x l) (x :: l).
Proof.
  induction l as [|y l IH]; simpl; [reflexivity|].
  destruct (String.ltb _ _); [|reflexivity].
  rewrite IH. apply perm_swap.
Qed.

Lemma sort_desc_perm l : Permutation (sort_desc l) l.
Proof.
  induction l as [|x l IH]; simpl; [reflexivity|].
  rewrite insert_desc_perm. now constructor.
Qed.

Lemma insert_desc_sorted x l :
  sorted_desc l -> sorted_desc (insert_desc x l).
Proof.
  unfold sorted_desc.
  induction l as [|y l IH]; intros Hs; simpl.
  - repeat constructor.
  - inversion Hs as [|? ? Hl Hhd]; subst.
    destruct (String.ltb _ _) eqn:Hlt.
    + constructor; [now apply IH|].
      destruct l as [|z l]; simpl.
      * constructor. now apply ltb_true_leb.
      * destruct (String.ltb (Entry.publishedDate x) (Entry.publishedDate z)).
        -- inversion Hhd; subst. now constructor.
        -- constructor. now apply ltb_true_leb.
    + constructor; [exact Hs|]. constructor. now apply ltb_false_leb.
Qed.

Lemma sort_desc_sorted l : sorted_desc (sort_desc l).
Proof.
  induction l as [|x l IH]; simpl; [constructor|].
  now apply insert_desc_sorted.
Qed.

(** A stable sort leaves a sorted list as it is. *)
Lemma sort_desc_fixed l : sorted_desc l -> sort_desc l = l.
Proof.
  unfold sorted_desc.
  induction l as [|x l IH]; intros Hs; [reflexivity|].
  inversion Hs as [|? ? Hl Hhd]; subst.
  simpl. rewrite (IH Hl).
  destruct l as [|y l]; [reflexivity|].
  inversion Hhd as [|? ? Hge]; subst. simpl.
  now rewrite (leb_ltb_false _ _ Hge).
Qed.


Lemma replace_or_append_ids new l :
  ids (replace_or_append new l) =
  if has_id (Entry.id new) l then ids l else ids l ++ [Entry.id new].
Proof.
  unfold ids, has_id.
  induction l as [|e l IH]; [reflexivity|].
  simpl. destruct (String.eqb (Entry.id e) (Entry.id new)) eqn:E; simpl.
  - apply String.eqb_eq in E. now rewrite E.
  - rewrite IH. now destruct (existsb _ l).
Qed.

Lemma replace_or_append_in new l : In new (replace_or_append new l).
Proof.
  induction l as [|e l IH]; simpl; [now left|].
  destruct (String.eqb _ _); simpl; auto.
Qed.


Lemma has_id_in i l : has_id i l = true <-> In i (ids l).
Proof.
  unfold has_id, ids. rewrite existsb_exists, in_map_iff.
  split; intros [e [H1 H2]]; exists e.
  - apply String.eqb_eq in H2. auto.
  - split; [tauto|]. apply String.eqb_eq. tauto.
Qed.

Lemma replace_or_append_nodup new l :
  NoDup (ids l) -> NoDup (ids (replace_or_append new l)).
Proof.
  intros Hnd. rewrite replace_or_append_ids.
  destruct (has_id (Entry.id new) l) eqn:E; [exact Hnd|].
  apply NoDup_app. split; [exact Hnd|]. split.
  - intros x Hx Hk. apply list_elem_of_In in Hx, Hk.
    destruct Hk as [<-|[]]. apply has_id_in in Hx. congruence.
  - apply NoDup_singleton.
Qed.


Lemma ids_perm l l' : Permutation l l' -> Permutation (ids l) (ids l').
Proof. apply Permutation_map. Qed.

Lemma sort_desc_nodup l : NoDup (ids l) -> NoDup (ids (sort_desc l)).
Proof.
  intros H. now rewrite (ids_perm _ _ (sort_desc_perm l)).
Qed.

(** With one entry per id, an entry is the only one of its id. *)
Lemma with_id_unique e l :
  NoDup (ids l) -> In e l -> with_id (Entry.id e) l = [e].
Proof.
  unfold with_id.
  induction l as [|x l IH]; intros Hnd Hin; [destruct Hin|].
  simpl in Hnd. apply NoDup_cons in Hnd as [Hx Hnd].
  rewrite list_elem_of_In in Hx.
  assert (Hnone : forall i, ~ In i (ids l) ->
            List.filter (fun e0 => String.eqb (Entry.id e0) i) l = []).
  { clear. intros i Hi. induction l as [|y l IH]; [reflexivity|].
    simpl. destruct (String.eqb (Entry.id y) i) eqn:E.
    - apply String.eqb_eq in E. exfalso. apply Hi. now left.
    - apply IH. intros H. apply Hi. now right. }
  simpl. destruct Hin as [->|Hin].
  - rewrite String.eqb_refl. f_equal. now apply Hnone.
  - destruct (String.eqb (Entry.id x) (Entry.id e)) eqn:E.
    + apply String.eqb_eq in E. exfalso. apply Hx. rewrite E.
      now apply in_map.
    + now apply IH.
Qed.

(** Replacing an entry by itself changes nothing. *)
Lemma replace_or_append_same e l :
  NoDup (ids l) -> In e l -> replace_or_append e l = l.
Proof.
  induction l as [|x l IH]; intros Hnd Hin; [destruct Hin|].
  simpl in Hnd. apply NoDup_cons in Hnd as [Hx Hnd].
  rewrite list_elem_of_In in Hx.
  simpl. destruct (String.eqb (Entry.id x) (Entry.id e)) eqn:E.
  - destruct Hin as [->|Hin]; [reflexivity|].
    apply String.eqb_eq in E. exfalso. apply Hx. rewrite E.
    now apply in_map.
  - destruct Hin as [->|Hin]; [now rewrite String.eqb_refl in E|].
    f_equal. now apply IH.
Qed.

End IndexFacts.

(** ** Steps of the monad *)

Section MonadFacts.
Import Os.

Lemma bind_return {A B} (c : M A) (k : A -> M B) w a w' :
  c w = (Return a, w') -> bind c k w = k a w'.
Proof. intros H. unfold bind. now rewrite H. Qed.

Lemma makedirs_ok p w :
  (forall c, fs w !! p <> Some (File c)) ->
  makedirs p w = (Return tt, set_fs (<[p := Dir]> (fs w)) w).
Proof.
  intros H. unfold makedirs.
  destruct (fs w !! p) as [[|c]|] eqn:E; try reflexivity.
  now destruct (H c).
Qed.

Lemma write_file_ok p c w :
  fs w !! p <> Some Dir ->
  write_file p c w = (Return tt, set_fs (<[p := File c]> (fs w)) w).
Proof.
  intros H. unfold write_file.
  destruct (fs w !! p) as [[|c']|] eqn:E; try reflexivity.
  now destruct H.
Qed.

Lemma read_file_ok p c w :
  fs w !! p = Some (File c) -> read_file p w = (Return c, w).
Proof. intros H. unfold read_file. now rewrite H. Qed.

(** The walk reports exactly the files below [top]. *)
Lemma walk_files_spec top w p :
  In p (walk_files top w) <->
  (exists c, fs w !! p = Some (File c)) /\
  Path.starts_with (top +:+ "/") p = true.
Proof.
  unfold walk_files. rewrite filter_In, in_map_iff. split.
  - intros [[[k v] [Hk Hin]] Hpre]. simpl in Hk. subst k.
    apply filter_In in Hin as [Hin Hf]. simpl in Hf.
    apply list_elem_of_In, elem_of_map_to_list in Hin.
    destruct v as [|c]; [discriminate|]. eauto.
  - intros [[c Hc] Hpre]. split; [|exact Hpre].
    exists (p, File c). split; [reflexivity|].
    apply filter_In. split; [|reflexivity].
    now apply list_elem_of_In, elem_of_map_to_list.
Qed.

End MonadFacts.

(** ** The paths of one upsert are pairwise distinct *)

Section ScriptPaths.
Import Path.
Variable script_dir : string.

Lemma slug_from_no_sep b l :
  SlugSpec.slug_from b l = true -> has_sep (Slug.text l) = false.
Proof.
  revert b. induction l as [|c l IH]; intros b H; [reflexivity|].
  cbn [SlugSpec.slug_from] in H.
  change (Slug.text (c :: l)) with (String c (Slug.text l)).
  cbn [has_sep].
  destruct (Chars.is_hyphen c) eqn:Hc; apply andb_true_iff in H as [H1 H2].
  - apply is_hyphen_eq in Hc. subst c. rewrite (IH _ H2). reflexivity.
  - rewrite (slug_char_not_slash _ H1), (IH _ H2). reflexivity.
Qed.

Lemma slugify_no_sep s : has_sep (Slug.slugify s) = false.
Proof.
  unfold Slug.slugify. rewrite slugify_chars_pipeline.
  pose proof (pipeline_is_slug (Slug.chars s)) as H.
  destruct (SlugSpec.pipeline SlugSpec.kept_in_code (Slug.chars s)) as [|c l];
    [reflexivity|].
  eapply slug_from_no_sep. exact H.
Qed.

Lemma svg_name_relative s :
  starts_with "/" (Slug.slugify s +:+ ".svg") = false.
Proof.
  apply has_sep_starts_with. rewrite has_sep_app, slugify_no_sep.
  reflexivity.
Qed.

Lemma svg_name_nonempty s : Slug.slugify s +:+ ".svg" <> ""%string.
Proof.
  intros H. apply (f_equal String.length) in H.
  rewrite app_length_string in H. simpl in H. lia.
Qed.

Lemma ends_with_svg_name a s :
  ends_with ".svg" (join a (Slug.slugify s +:+ ".svg")) = true.
Proof.
  rewrite ends_with_join by (rewrite app_length_string; simpl; lia).
  now rewrite ends_with_app by (simpl; lia).
Qed.

Lemma ends_with_svg_blog_json a : ends_with ".svg" (join a "blog.json") = false.
Proof. now rewrite ends_with_join by (simpl; lia). Qed.

Lemma ends_with_svg_index : ends_with ".svg" (index_path script_dir) = false.
Proof. unfold index_path. now rewrite ends_with_join by (simpl; lia). Qed.

Lemma dest_not_blog_dir a s : join a (Slug.slugify s +:+ ".svg") <> a.
Proof. apply join_longer; [apply svg_name_relative | apply svg_name_nonempty]. Qed.

Lemma blog_json_not_blog_dir a : join a "blog.json" <> a.
Proof. apply join_longer; [reflexivity | discriminate]. Qed.

Lemma blog_json_not_dest a a' s :
  join a "blog.json" <> join a' (Slug.slugify s +:+ ".svg").
Proof.
  intros H. pose proof (ends_with_svg_name a' s) as H1.
  rewrite <- H, ends_with_svg_blog_json in H1. discriminate.
Qed.

Lemma index_not_dest a s :
  index_path script_dir <> join a (Slug.slugify s +:+ ".svg").
Proof.
  intros H. pose proof (ends_with_svg_name a s) as H1.
  rewrite <- H, ends_with_svg_index in H1. discriminate.
Qed.

Lemma index_not_blog_json a : index_path script_dir <> join a "blog.json".
Proof.
  intros H.
  assert (H1 : ends_with "x.json" (index_path script_dir) = true)
    by (unfold index_path; now rewrite ends_with_join by (simpl; lia)).
  rewrite H, ends_with_join in H1 by (simpl; lia). discriminate.
Qed.

End ScriptPaths.

(** ** The index that an upsert loads *)

Section UpsertFacts.
Import Os.
Variable script_dir : string.

Local Abbreviation ip := (index_path script_dir).

Lemma loaded_index_cases w l :
  loaded_index script_dir w = Some l ->
  (fs w !! ip = None /\ l = []) \/ fs w !! ip = Some (File (IndexDoc l)).
Proof.
  unfold loaded_index.
  destruct (fs w !! ip) as [[|[| |l0]]|]; intros H; try discriminate;
    inversion H; auto.
Qed.

End UpsertFacts.

(** ** What an upsert does in an arbitrary state *)

Section Effects.
Import Os.
Variable script_dir : string.

Local Abbreviation ip := (index_path script_dir).

Lemma index_kept_refl w : index_kept script_dir w w.
Proof. now left. Qed.

Lemma index_kept_trans w1 w2 w3 :
  index_kept script_dir w1 w2 -> index_kept script_dir w2 w3 ->
  index_kept script_dir w1 w3.
Proof.
  intros [H12|[H12 N1]] [H23|[H23 N2]].
  - left. congruence.
  - right. split; [exact H23|]. intros c. rewrite <- H12. apply N2.
  - right. split; [congruence | exact N1].
  - right. split; [exact H23 | exact N1].
Qed.

Lemma index_kept_file w w' :
  index_kept script_dir w w' ->
  index_file script_dir w' = index_file script_dir w.
Proof.
  unfold index_file. intros [H|[H N]]; rewrite H; [reflexivity|].
  destruct (fs w !! ip) as [[|c]|]; try reflexivity.
  now destruct (N c).
Qed.

Lemma index_kept_loaded w w' l :
  index_kept script_dir w w' ->
  loaded_index script_dir w' = Some l -> loaded_index script_dir w = Some l.
Proof.
  unfold loaded_index. intros [H|[H N]]; rewrite H; [tauto | discriminate].
Qed.

Lemma keeps_index_bind {A B} (c : M A) (k : A -> M B) :
  keeps_index script_dir c -> (forall a, keeps_index script_dir (k a)) ->
  keeps_index script_dir (bind c k).
Proof.
  intros Hc Hk w. unfold bind. specialize (Hc w).
  destruct (c w) as [[a|e] w1]; simpl in *; [|exact Hc].
  eapply index_kept_trans; [exact Hc | apply Hk].
Qed.

Lemma keeps_index_ret {A} (a : A) : keeps_index script_dir (ret a).
Proof. intros w. apply index_kept_refl. Qed.

Lemma keeps_index_read p : keeps_index script_dir (read_file p).
Proof.
  intros w. unfold read_file.
  destruct (fs w !! p) as [[|c]|]; apply index_kept_refl.
Qed.

Lemma keeps_index_find : keeps_index script_dir (find_source_image script_dir).
Proof. intros w. apply index_kept_refl. Qed.

Lemma keeps_index_makedirs p : keeps_index script_dir (makedirs p).
Proof.
  intros w. unfold makedirs.
  destruct (fs w !! p) as [[|c]|] eqn:E; simpl; try apply index_kept_refl.
  - destruct (decide (p = ip)) as [->|Hne].
    + left. simpl. now rewrite lookup_insert_eq.
    + left. simpl. now rewrite lookup_insert_ne.
  - destruct (decide (p = ip)) as [->|Hne].
    + right. simpl. rewrite lookup_insert_eq. split; [reflexivity|].
      intros c. rewrite E. discriminate.
    + left. simpl. now rewrite lookup_insert_ne.
Qed.

Lemma keeps_index_write p c : p <> ip -> keeps_index script_dir (write_file p c).
Proof.
  intros Hne w. unfold write_file.
  destruct (fs w !! p) as [[|c']|]; simpl; try apply index_kept_refl;
    left; simpl; now rewrite lookup_insert_ne.
Qed.

Lemma index_effect_after r w w1 res :
  index_kept script_dir w w1 ->
  index_effect script_dir r w1 res -> index_effect script_dir r w res.
Proof.
  intros Hk. unfold index_effect. destruct (fst res).
  - intros (l & Hl & Hres). exists l. split; [|exact Hres].
    eapply index_kept_loaded; eauto.
  - intros ->. now apply index_kept_file.
Qed.

Lemma index_effect_bind {A} r (c : M A) (k : A -> M string) :
  keeps_index script_dir c ->
  (forall a w1, index_effect script_dir r w1 (k a w1)) ->
  forall w, index_effect script_dir r w (bind c k w).
Proof.
  intros Hc Hk w. unfold bind. specialize (Hc w).
  destruct (c w) as [[a|e] w1] eqn:E; simpl in Hc.
  - eapply index_effect_after; [exact Hc | apply Hk].
  - unfold index_effect. simpl. now apply index_kept_file.
Qed.

(** The last part of an upsert: load the index, update it, write it. *)
Lemma index_effect_tail r w :
  index_effect script_dir r w
    ((found <- path_exists ip ;;
      index_data <- (if found then load_index ip else ret []) ;;
      write_file ip
        (IndexDoc (Index.sort_desc
                     (Index.replace_or_append (entry_of r) index_data))) ;;;
      ret (Post.id r)) w).
Proof.
  unfold index_effect, bind, path_exists, load_index, bind, read_file,
    write_file, ret, raise, loaded_index, index_file.
  destruct (fs w !! ip) as [[|[d|b|l]]|] eqn:E; simpl; rewrite ?E; simpl;
    rewrite ?E; try reflexivity.
  - exists l. split; [reflexivity|]. now rewrite lookup_insert_eq.
  - exists []. split; [reflexivity|]. now rewrite lookup_insert_eq.
Qed.

Lemma upsert_effect r w :
  index_effect script_dir r w (upsert script_dir r w).
Proof.
  unfold upsert.
  apply index_effect_bind; [apply keeps_index_makedirs|]. intros _ w1.
  apply index_effect_bind.
  { assert (Hdest : Path.join (blog_dir_of script_dir (Post.id r))
                      (image_filename_of (Post.category r)) <> ip)
      by (intros H; symmetry in H; revert H; apply index_not_dest).
    apply keeps_index_bind; [apply keeps_index_find|].
    intros [src|]; [|apply keeps_index_ret].
    apply keeps_index_bind; [apply keeps_index_read|]. intros _.
    apply keeps_index_bind; [now apply keeps_index_write|]. intros _.
    apply keeps_index_bind; [apply keeps_index_read|].
    intros c. now apply keeps_index_write. }
  intros _ w2.
  apply index_effect_bind.
  { apply keeps_index_write.
    intros H. symmetry in H. revert H. apply index_not_blog_json. }
  intros _ w3. apply index_effect_tail.
Qed.

(** *** The paths an upsert touches *)

Lemma touches_bind {A B} S (c : M A) (k : A -> M B) :
  touches S c -> (forall a, touches S (k a)) -> touches S (bind c k).
Proof.
  intros Hc Hk w p Hp. unfold bind. specialize (Hc w p Hp).
  destruct (c w) as [[a|e] w1]; simpl in *; [|exact Hc].
  rewrite (Hk a w1 p Hp). exact Hc.
Qed.

Lemma touches_ret {A} S (a : A) : touches S (ret a).
Proof. now intros w p _. Qed.

Lemma touches_read S q : touches S (read_file q).
Proof.
  intros w p _. unfold read_file. now destruct (fs w !! q) as [[|c]|].
Qed.

Lemma touches_exists S q : touches S (path_exists q).
Proof. now intros w p _. Qed.

Lemma touches_load_index S q : touches S (load_index q).
Proof.
  apply touches_bind; [apply touches_read|].
  intros [d|b|l]; now intros w p _.
Qed.

Lemma touches_makedirs (S : string -> Prop) q : S q -> touches S (makedirs q).
Proof.
  intros Hq w p Hp. unfold makedirs.
  destruct (fs w !! q) as [[|c]|]; simpl; try reflexivity;
    apply lookup_insert_ne; congruence.
Qed.

Lemma touches_write (S : string -> Prop) q c : S q -> touches S (write_file q c).
Proof.
  intros Hq w p Hp. unfold write_file.
  destruct (fs w !! q) as [[|c']|]; simpl; try reflexivity;
    apply lookup_insert_ne; congruence.
Qed.

Lemma upsert_touches r :
  touches (upsert_paths script_dir r) (upsert script_dir r).
Proof.
  unfold upsert, upsert_paths.
  apply touches_bind; [apply touches_makedirs; auto|]. intros _.
  apply touches_bind.
  { apply touches_bind; [now intros w p _|].
    intros [src|]; [|apply touches_ret].
    apply touches_bind; [apply touches_read|]. intros _.
    apply touches_bind; [apply touches_write; right; now left|]. intros _.
    apply touches_bind; [apply touches_read|].
    intros c. apply touches_write. right. now left. }
  intros _.
  apply touches_bind; [apply touches_write; right; right; now left|].
  intros _.
  apply touches_bind; [apply touches_exists|]. intros found.
  apply touches_bind.
  { destruct found; [apply touches_load_index | apply touches_ret]. }
  intros l.
  apply touches_bind; [apply touches_write; auto 6 | intros _; apply touches_ret].
Qed.

Lemma invoke_upsert c : invoke script_dir c = upsert script_dir (record_of c).
Proof. now destruct c. Qed.

End Effects.

(* ===================================================================== *)
(** * Properties of slug generation                                       *)
(* ===================================================================== *)

(** C4. [slugify] is idempotent: for every input string [x],
    [slugify (slugify x) = slugify x]. *)
Theorem slugify_idempotent (x : string) :
  Slug.slugify (Slug.slugify x) = Slug.slugify x.
Proof.
  unfold Slug.slugify. rewrite chars_text, !slugify_chars_pipeline.
  f_equal. apply pipeline_fixes_slug, pipeline_is_slug.
Qed.

(** C5, as the specification words it, fails: with the kept set
    {letters, digits, white space, hyphen} the underscore of ["a_b"]
    would be stripped and the result would be ["ab"], while the code
    keeps it through the first substitution and turns it into a hyphen. *)
Lemma slugify_keeps_underscore :
  Slug.slugify "a_b" = "a-b"%string /\
  SlugSpec.slugify_spec "a_b" = "ab"%string /\
  Slug.slugify "a_b" <> SlugSpec.slugify_spec "a_b".
Proof. repeat split. discriminate. Qed.

(** C5, amended.  [slugify] computes, on every input string, the
    pipeline: lower-case the input, strip every character outside
    {letters, digits, underscore, white space, hyphen}, collapse each run
    of white space, underscores and hyphens to one hyphen, and trim the
    hyphens at both ends.  Being a function of its argument alone, it
    gives the same id for the same title. *)
Theorem slugify_is_pipeline (s : string) :
  Slug.slugify s = SlugSpec.slugify_pipeline s.
Proof.
  unfold Slug.slugify, SlugSpec.slugify_pipeline.
  now rewrite slugify_chars_pipeline.
Qed.

(* ===================================================================== *)
(** * The upsert: sequences, paths and runs                               *)
(* ===================================================================== *)

Section UpsertSequences.
Import Os.
Variable script_dir : string.

Local Abbreviation ip := (index_path script_dir).

Lemma index_file_loaded w l :
  index_file script_dir w = Some l -> loaded_index script_dir w = Some l.
Proof.
  unfold index_file, loaded_index.
  now destruct (fs w !! ip) as [[|[d|b|l0]]|].
Qed.

Lemma loaded_index_file w l :
  loaded_index script_dir w = Some l ->
  index_file script_dir w = Some l \/ (fs w !! ip = None /\ l = []).
Proof.
  unfold index_file, loaded_index.
  destruct (fs w !! ip) as [[|[d|b|l0]]|]; intros H; try discriminate;
    inversion H; auto.
Qed.

(** A property of index lists that holds of the empty list and is kept
    by the update holds of the index file after every run. *)
Lemma run_call_invariant (Q : list Entry.t -> Prop) c w :
  Q [] ->
  (forall e l, Q l -> Q (Index.sort_desc (Index.replace_or_append e l))) ->
  (forall l, index_file script_dir w = Some l -> Q l) ->
  forall l, index_file script_dir (run_call script_dir c w) = Some l -> Q l.
Proof.
  intros Hnil Hstep Hw l. unfold run_call. rewrite invoke_upsert.
  pose proof (upsert_effect script_dir (record_of c) w) as He.
  unfold index_effect in He.
  destruct (fst (upsert script_dir (record_of c) w)).
  - destruct He as (l0 & Hl0 & Hres). rewrite Hres. intros [= <-].
    apply Hstep.
    destruct (loaded_index_file w l0 Hl0) as [H|[_ ->]]; auto.
  - rewrite He. apply Hw.
Qed.

Lemma run_calls_invariant (Q : list Entry.t -> Prop) cs w :
  Q [] ->
  (forall e l, Q l -> Q (Index.sort_desc (Index.replace_or_append e l))) ->
  (forall l, index_file script_dir w = Some l -> Q l) ->
  forall l, index_file script_dir (run_calls script_dir cs w) = Some l -> Q l.
Proof.
  intros Hnil Hstep. revert w.
  induction cs as [|c cs IH]; intros w Hw; [exact Hw|].
  simpl. apply IH. now apply run_call_invariant.
Qed.

End UpsertSequences.

Section PlainIds.
Import Os Path.
Variable script_dir : string.

Local Abbreviation A := (all_blogs_dir script_dir).

Lemma eqb_empty_length s : 0 < String.length s -> String.eqb s "" = false.
Proof. destruct s; simpl; [lia | reflexivity]. Qed.

Lemma eqb_empty_false s : String.eqb s "" = false -> 0 < String.length s.
Proof. destruct s; simpl; [discriminate | lia]. Qed.

Lemma all_blogs_nonempty : String.eqb A "" = false.
Proof.
  apply eqb_empty_length. unfold all_blogs_dir.
  destruct (join_suffix (blogs_dir script_dir) "allBlogs") as [pre ->].
  rewrite app_length_string. simpl. lia.
Qed.

Lemma all_blogs_no_trailing_sep : ends_with "/" A = false.
Proof. unfold all_blogs_dir. now rewrite ends_with_join by (simpl; lia). Qed.

(** The directory of a post whose id has no separator. *)
Lemma blog_dir_plain i :
  has_sep i = false -> blog_dir_of script_dir i = A +:+ "/" +:+ i.
Proof.
  intros Hi. unfold blog_dir_of, join.
  now rewrite (has_sep_starts_with _ Hi), all_blogs_nonempty,
    all_blogs_no_trailing_sep.
Qed.

Lemma plain_trailing_sep i :
  has_sep i = false ->
  ends_with "/" (A +:+ "/" +:+ i) = String.eqb i "".
Proof.
  intros Hi. destruct (String.eqb i "") eqn:E.
  - apply String.eqb_eq in E. subst i.
    change ("/" +:+ "") with "/"%string.
    now rewrite ends_with_app by (simpl; lia).
  - rewrite <- app_assoc_string.
    rewrite ends_with_app by (apply eqb_empty_false in E; simpl; lia).
    now apply has_sep_ends_with.
Qed.

(** The metadata file of a post whose id has no separator. *)
Lemma blog_json_plain i :
  has_sep i = false ->
  blog_json_path_of script_dir i =
    (A +:+ "/" +:+ i) +:+ (if String.eqb i "" then "" else "/") +:+ "blog.json".
Proof.
  intros Hi. unfold blog_json_path_of. rewrite (blog_dir_plain i Hi).
  unfold join at 1. change (starts_with "/" "blog.json") with false.
  cbv iota. rewrite (plain_trailing_sep i Hi).
  rewrite eqb_empty_length
    by (rewrite !app_length_string; simpl; lia).
  cbn [orb]. now destruct (String.eqb i "").
Qed.



End PlainIds.

Section StoredImagePath.
Import Os Path.
Variable script_dir : string.

Local Abbreviation B := (blogs_dir script_dir).
Local Abbreviation A := (all_blogs_dir script_dir).

Lemma no_svg_spec w : no_svg script_dir w <-> no_svg_below script_dir w.
Proof.
  unfold no_svg, no_svg_below. rewrite forallb_forall. split.
  - intros H p c Hc Hpre. apply negb_true_iff, H, walk_files_spec. eauto.
  - intros H p Hin. apply walk_files_spec in Hin as [[c Hc] Hpre].
    apply negb_true_iff. eauto.
Qed.

Lemma blogs_nonempty : String.eqb B "" = false.
Proof.
  apply eqb_empty_length. unfold blogs_dir.
  destruct (join_suffix script_dir "Blogs") as [pre ->].
  rewrite app_length_string. simpl. lia.
Qed.

Lemma blogs_no_trailing_sep : ends_with "/" B = false.
Proof. unfold blogs_dir. now rewrite ends_with_join by (simpl; lia). Qed.

Lemma join_blogs x :
  starts_with "/" x = false -> join B x = B +:+ "/" +:+ x.
Proof.
  intros Hx. unfold join.
  now rewrite Hx, blogs_nonempty, blogs_no_trailing_sep.
Qed.

Lemma all_blogs_shape : A = B +:+ "/allBlogs".
Proof. unfold all_blogs_dir. now rewrite join_blogs. Qed.

Lemma prefix_of_self x y : prefix_of x (x ++ y) = true.
Proof.
  induction x as [|c x IH]; [reflexivity|].
  simpl. now rewrite Ascii.eqb_refl.
Qed.

Lemma starts_with_app p s : starts_with p (p +:+ s) = true.
Proof. unfold starts_with. rewrite chars_app. apply prefix_of_self. Qed.

(** The path stored in the documents, resolved against [Blogs]. *)
Lemma stored_path_shape i fn :
  join B (image_path_of i fn) = (A +:+ "/") +:+ i +:+ "/" +:+ fn /\
  join B (image_path_of i fn) = (A +:+ "/" +:+ i) +:+ "/" +:+ fn.
Proof.
  assert (H : join B (image_path_of i fn) = B +:+ "/" +:+ image_path_of i fn).
  { apply join_blogs. unfold starts_with, image_path_of.
    rewrite chars_app. reflexivity. }
  rewrite H, all_blogs_shape. unfold image_path_of.
  split; apply chars_inj; rewrite !chars_app;
    change (Slug.chars "/allBlogs") with (Slug.chars "/" ++ Slug.chars "allBlogs");
    change (Slug.chars "allBlogs/") with (Slug.chars "allBlogs" ++ Slug.chars "/");
    now rewrite <- !app_assoc.
Qed.

Lemma image_filename_no_sep cat : has_sep (image_filename_of cat) = false.
Proof.
  unfold image_filename_of. now rewrite has_sep_app, slugify_no_sep.
Qed.

Lemma image_filename_svg cat : ends_with ".svg" (image_filename_of cat) = true.
Proof.
  unfold image_filename_of. now rewrite ends_with_app by (simpl; lia).
Qed.

(** Without an SVG file below [allBlogs], nothing is a file at the
    stored path. *)
Lemma stored_path_free w i cat :
  no_svg_below script_dir w ->
  is_file w (join B (image_path_of i (image_filename_of cat))) = false.
Proof.
  intros Hno. unfold is_file.
  destruct (fs w !! join B (image_path_of i (image_filename_of cat)))
    as [[|c]|] eqn:E; try reflexivity.
  specialize (Hno _ _ E).
  destruct (stored_path_shape i (image_filename_of cat)) as [S1 S2].
  rewrite S1 in Hno at 1. rewrite starts_with_app in Hno.
  rewrite S2, basename_after_sep, image_filename_svg in Hno
    by apply image_filename_no_sep.
  now specialize (Hno eq_refl).
Qed.

End StoredImagePath.

(** ** The placeholder image, and the state that a run leaves *)

Section PlaceholderCopy.
Import Os.
Variable script_dir : string.

Local Abbreviation ip := (index_path script_dir).
Local Abbreviation bd r := (blog_dir_of script_dir (Post.id r)).
Local Abbreviation bj r := (blog_json_path_of script_dir (Post.id r)).
Local Abbreviation dest r := (placeholder_path_of script_dir r).

(** What the search for a placeholder and its copy leave: nothing new
    without an SVG file; otherwise the content of such a file at the
    target, or nothing at all when the file found is the target
    itself, which is emptied when it is opened for writing. *)
Lemma place_image_cases w target :
  fs w !! target <> Some Dir ->
  exists f2,
    (source_image <- find_source_image script_dir ;;
     match source_image with
     | Some src =>
         read_file src ;;;
         write_file target (Raw []) ;;;
         data <- read_file src ;;
         write_file target data
     | None => ret tt
     end) w = (Return tt, set_fs f2 w) /\
    ((no_svg_below script_dir w /\ f2 = fs w) \/
     (exists src c,
        fs w !! src = Some (File c) /\
        Path.starts_with (all_blogs_dir script_dir +:+ "/") src = true /\
        Path.ends_with ".svg" (Path.basename src) = true /\
        f2 = <[target := File (if decide (src = target) then Raw [] else c)]>
               (fs w))).
Proof.
  intros Ht. unfold bind at 1. unfold find_source_image.
  destruct (List.find _ _) as [src|] eqn:F.
  - apply find_some in F as [Hin Hsvg].
    apply walk_files_spec in Hin as [[c Hc] Hpre].
    rewrite (bind_return _ _ _ _ _ (read_file_ok _ _ _ Hc)).
    rewrite (bind_return _ _ _ _ _ (write_file_ok _ _ _ Ht)).
    set (w1 := set_fs (<[target := File (Raw [])]> (fs w)) w).
    set (d := if decide (src = target) then Raw [] else c).
    assert (Hd : fs w1 !! src = Some (File d)).
    { subst w1 d. cbn [fs set_fs]. destruct (decide (src = target)) as [->|Hn].
      - apply lookup_insert_eq.
      - now rewrite lookup_insert_ne. }
    rewrite (bind_return _ _ _ _ _ (read_file_ok _ _ _ Hd)).
    rewrite write_file_ok
      by (subst w1; cbn [fs set_fs]; rewrite lookup_insert_eq; discriminate).
    exists (<[target := File d]> (fs w)). split.
    + subst w1. cbn [fs set_fs]. unfold set_fs. cbn [stdout].
      now rewrite insert_insert_eq.
    + right. exists src, c. auto.
  - exists (fs w). split; [now destruct w|]. left. split; [|reflexivity].
    intros p c Hc Hpre.
    pose proof (find_none _ _ F p) as Hn. cbv beta in Hn.
    apply Hn, walk_files_spec. eauto.
Qed.

(** The state after the post directory is made has the files of the
    state before. *)
Lemma files_after_makedirs w q p c :
  (forall c0, fs w !! q <> Some (File c0)) ->
  <[q := Dir]> (fs w) !! p = Some (File c) <-> fs w !! p = Some (File c).
Proof.
  intros Hq. destruct (decide (q = p)) as [->|Hn].
  - rewrite lookup_insert_eq. split; [discriminate|]. intros H. now destruct (Hq c).
  - now rewrite lookup_insert_ne.
Qed.

(** The whole upsert, with the state it leaves spelled out. *)
Lemma upsert_full w r l :
  writable script_dir w r ->
  loaded_index script_dir w = Some l ->
  exists f2,
    upsert script_dir r w =
      (Return (Post.id r),
       set_fs (<[ip := File (IndexDoc
                  (Index.sort_desc (Index.replace_or_append (entry_of r) l)))]>
                 (<[bj r := File (BlogDoc (blog_of r))]> f2)) w) /\
    ((no_svg_below script_dir w /\ f2 = <[bd r := Dir]> (fs w)) \/
     (exists src c,
        fs w !! src = Some (File c) /\
        Path.starts_with (all_blogs_dir script_dir +:+ "/") src = true /\
        Path.ends_with ".svg" (Path.basename src) = true /\
        f2 = <[dest r := File (if decide (src = dest r) then Raw [] else c)]>
               (<[bd r := Dir]> (fs w)))).
Proof.
  intros (Hbd & Hne & Hdest & Hbj) Hl.
  unfold is_file, is_dir in *.
  assert (Hd1 : dest r <> bd r) by apply dest_not_blog_dir.
  assert (Hd2 : bj r <> bd r) by apply blog_json_not_blog_dir.
  assert (Hd3 : bj r <> dest r) by apply blog_json_not_dest.
  assert (Hd4 : ip <> dest r) by apply index_not_dest.
  assert (Hd5 : ip <> bj r) by apply index_not_blog_json.
  assert (Hnf : forall c0, fs w !! bd r <> Some (File c0))
    by (intros c0 E; rewrite E in Hbd; discriminate).
  unfold upsert.
  rewrite (bind_return _ _ _ _ _ (makedirs_ok (bd r) w Hnf)).
  set (w1 := set_fs (<[bd r := Dir]> (fs w)) w).
  destruct (place_image_cases w1 (dest r)) as (f2 & E & Hcases).
  { subst w1. cbn [fs set_fs]. rewrite lookup_insert_ne by auto.
    intros E. rewrite E in Hdest. discriminate. }
  change (Path.join (bd r) (image_filename_of (Post.category r)))
    with (dest r).
  rewrite (bind_return _ _ _ _ _ E). clear E.
  change (set_fs f2 w1) with (set_fs f2 w).
  assert (Hf2 : forall p, p <> dest r -> p <> bd r -> f2 !! p = fs w !! p).
  { intros p H1 H2. destruct Hcases as [[_ ->]|(src & c & _ & _ & _ & ->)];
      subst w1; cbn [fs set_fs]; now rewrite ?lookup_insert_ne by auto. }
  change (Path.join (bd r) "blog.json") with (bj r).
  rewrite (bind_return _ _ _ _ _ (write_file_ok (bj r) _ (set_fs f2 w)
             ltac:(cbn [fs set_fs]; rewrite Hf2 by auto;
                   intros E; rewrite E in Hbj; discriminate))).
  cbn [fs set_fs].
  set (f3 := <[bj r := File (BlogDoc (blog_of r))]> f2).
  change (set_fs f3 (set_fs f2 w)) with (set_fs f3 w).
  assert (Hip : f3 !! ip = fs w !! ip).
  { subst f3. rewrite lookup_insert_ne by auto. now apply Hf2. }
  exists f2. split.
  - unfold bind at 1. unfold path_exists. cbn [fs set_fs]. rewrite Hip.
    destruct (loaded_index_cases script_dir w l Hl) as [[E ->]|E]; rewrite E.
    + unfold bind at 1. unfold ret at 1.
      rewrite (bind_return _ _ _ _ _ (write_file_ok ip _ (set_fs f3 w)
                 ltac:(cbn [fs set_fs]; rewrite Hip, E; discriminate))).
      reflexivity.
    + unfold bind at 1. unfold load_index, bind at 1.
      rewrite (read_file_ok ip (IndexDoc l) (set_fs f3 w))
        by (cbn [fs set_fs]; now rewrite Hip).
      unfold ret at 1.
      rewrite (bind_return _ _ _ _ _ (write_file_ok ip _ (set_fs f3 w)
                 ltac:(cbn [fs set_fs]; rewrite Hip, E; discriminate))).
      reflexivity.
  - destruct Hcases as [[Hno ->]|(src & c & Hc & Hpre & Hsvg & ->)].
    + left. split; [|reflexivity]. intros p c Hc. apply Hno with (c := c).
      subst w1. cbn [fs set_fs]. now apply files_after_makedirs.
    + right. exists src, c. subst w1. cbn [fs set_fs] in *.
      apply files_after_makedirs in Hc; auto.
Qed.

End PlaceholderCopy.

Section MorePathFacts.
Import Path.

Lemma basename_plain p : has_sep p = false -> basename p = p.
Proof.
  destruct p as [|c p]; [reflexivity|]. cbn [has_sep basename].
  intros H. apply orb_false_iff in H as [H1 H2]. now rewrite H2, H1.
Qed.

Lemma chars_of_text l : Slug.chars (Slug.text l) = l.
Proof. apply list_ascii_of_string_of_list_ascii. Qed.

Lemma prefix_of_length a b : prefix_of a b = true -> length a <= length b.
Proof.
  revert b. induction a as [|x a IH]; intros [|y b] H; simpl in *;
    try lia; try discriminate.
  apply andb_true_iff in H as [_ H]. apply IH in H. lia.
Qed.

Lemma ends_with_sep_split a :
  ends_with "/" a = true -> exists a', a = a' +:+ "/".
Proof.
  unfold ends_with. change (rev (Slug.chars "/")) with ["/"].
  destruct (rev (Slug.chars a)) as [|c t] eqn:E; [discriminate|].
  cbn [prefix_of]. rewrite andb_true_r. intros H.
  apply Ascii.eqb_eq in H. subst c.
  exists (Slug.text (rev t)). apply chars_inj.
  rewrite chars_app, chars_of_text.
  rewrite <- (rev_involutive (Slug.chars a)), E. reflexivity.
Qed.

(** The base name of a joined path is the part joined last, when that
    part has no separator. *)
Lemma basename_join a name :
  has_sep name = false -> basename (join a name) = name.
Proof.
  intros Hn. unfold join. rewrite (has_sep_starts_with _ Hn).
  destruct (String.eqb a "") eqn:Ea.
  - apply String.eqb_eq in Ea. subst a. cbn [orb].
    change ("" +:+ name) with name. now apply basename_plain.
  - cbn [orb]. destruct (ends_with "/" a) eqn:Es.
    + apply ends_with_sep_split in Es as [a' ->].
      rewrite app_assoc_string. now apply basename_after_sep.
    + now apply basename_after_sep.
Qed.

Lemma basename_suffix p : exists pre, p = pre +:+ basename p.
Proof.
  induction p as [|c p [pre IH]]; [now exists ""%string|].
  cbn [basename]. destruct (has_sep p).
  - exists (String c pre). rewrite IH at 1. reflexivity.
  - destruct (Ascii.eqb c "/").
    + now exists (String c "").
    + now exists ""%string.
Qed.

Lemma ends_with_basename suf p :
  ends_with suf (basename p) = true -> ends_with suf p = true.
Proof.
  intros H. destruct (basename_suffix p) as [pre E]. rewrite E.
  rewrite ends_with_app; [exact H|].
  unfold ends_with in H. apply prefix_of_length in H.
  now rewrite !length_rev, !chars_length in H.
Qed.

End MorePathFacts.

Section PlaceholderFacts.
Import Os.
Variable script_dir : string.

Lemma placeholder_basename r :
  Path.basename (placeholder_path_of script_dir r)
  = image_filename_of (Post.category r).
Proof. apply basename_join, image_filename_no_sep. Qed.

Lemma placeholder_is_svg r :
  Path.ends_with ".svg" (Path.basename (placeholder_path_of script_dir r)) = true.
Proof. rewrite placeholder_basename. apply image_filename_svg. Qed.

(** The placeholder of a post whose id has no separator lies below
    [allBlogs]. *)
Lemma placeholder_below r :
  Path.has_sep (Post.id r) = false ->
  Path.starts_with (all_blogs_dir script_dir +:+ "/")
    (placeholder_path_of script_dir r) = true.
Proof.
  intros Hid. unfold placeholder_path_of.
  rewrite (blog_dir_plain script_dir _ Hid).
  destruct (join_relative
              (all_blogs_dir script_dir +:+ "/" +:+ Post.id r)
              (image_filename_of (Post.category r))) as [E|E];
    [apply has_sep_starts_with, image_filename_no_sep | |];
    rewrite E, !app_assoc_string,
      <- (app_assoc_string (all_blogs_dir script_dir) "/");
    apply starts_with_app.
Qed.

End PlaceholderFacts.

(** ** The runs that return *)

Section Returns.
Import Os.
Variable script_dir : string.

Local Abbreviation ip := (index_path script_dir).
Local Abbreviation bd r := (blog_dir_of script_dir (Post.id r)).
Local Abbreviation bj r := (blog_json_path_of script_dir (Post.id r)).
Local Abbreviation dest r := (placeholder_path_of script_dir r).

Lemma bind_returns {A B} (c : M A) (k : A -> M B) w b w' :
  bind c k w = (Return b, w') ->
  exists a w1, c w = (Return a, w1) /\ k a w1 = (Return b, w').
Proof. unfold bind. destruct (c w) as [[a|e] w1]; [eauto | discriminate]. Qed.

Lemma write_file_returns p c w u w' :
  write_file p c w = (Return u, w') ->
  fs w !! p <> Some Dir /\ w' = set_fs (<[p := File c]> (fs w)) w.
Proof.
  unfold write_file.
  destruct (fs w !! p) as [[|c0]|]; intros H; try discriminate;
    inversion H; (split; [discriminate | reflexivity]).
Qed.

(** Without an SVG file the search finds nothing and nothing is
    copied, whatever stands at the target. *)
Lemma place_image_none w target :
  no_svg_below script_dir w ->
  (source_image <- find_source_image script_dir ;;
   match source_image with
   | Some src =>
       read_file src ;;;
       write_file target (Raw []) ;;;
       data <- read_file src ;;
       write_file target data
   | None => ret tt
   end) w = (Return tt, w).
Proof.
  intros Hno. unfold bind at 1. unfold find_source_image.
  destruct (List.find _ _) as [src|] eqn:F; [|reflexivity].
  apply find_some in F as [Hin Hsvg].
  apply walk_files_spec in Hin as [[c Hc] Hpre].
  rewrite (Hno _ _ Hc Hpre) in Hsvg. discriminate.
Qed.

Lemma place_image_returns w target u w' :
  (source_image <- find_source_image script_dir ;;
   match source_image with
   | Some src =>
       read_file src ;;;
       write_file target (Raw []) ;;;
       data <- read_file src ;;
       write_file target data
   | None => ret tt
   end) w = (Return u, w') ->
  exists f2,
    w' = set_fs f2 w /\
    ((no_svg_below script_dir w /\ f2 = fs w) \/
     (exists src c,
        fs w !! src = Some (File c) /\
        Path.starts_with (all_blogs_dir script_dir +:+ "/") src = true /\
        Path.ends_with ".svg" (Path.basename src) = true /\
        f2 = <[target := File (if decide (src = target) then Raw [] else c)]>
               (fs w))).
Proof.
  intros H.
  assert (Hdec : fs w !! target = Some Dir \/ fs w !! target <> Some Dir)
    by (destruct (fs w !! target) as [[|c0]|];
        [now left | right; discriminate | right; discriminate]).
  destruct Hdec as [Ht|Ht].
  - unfold bind at 1 in H. unfold find_source_image in H.
    destruct (List.find _ _) as [src|] eqn:F.
    + exfalso. apply find_some in F as [Hin _].
      apply walk_files_spec in Hin as [[c Hc] _].
      rewrite (bind_return _ _ _ _ _ (read_file_ok _ _ _ Hc)) in H.
      unfold bind at 1 in H. unfold write_file in H. rewrite Ht in H.
      discriminate.
    + unfold ret in H. injection H as _ <-.
      exists (fs w). split; [now destruct w|]. left. split; [|reflexivity].
      intros p c Hc Hpre.
      pose proof (find_none _ _ F p) as Hn. cbv beta in Hn.
      apply Hn, walk_files_spec. eauto.
  - destruct (place_image_cases script_dir w target Ht) as (f2 & E & Hcases).
    rewrite E in H. injection H as _ <-. exists f2. split; [reflexivity|].
    exact Hcases.
Qed.

(** What is known of a run of the upsert that returns: the value is
    the id, the index could be loaded, and the state is the old one
    with the post directory, possibly the placeholder image, the
    metadata file and the new index. *)
Lemma upsert_returns r w i w' :
  upsert script_dir r w = (Return i, w') ->
  i = Post.id r /\
  (forall c, fs w !! bd r <> Some (File c)) /\
  bd r <> ip /\
  exists l f2,
    loaded_index script_dir w = Some l /\
    w' = set_fs (<[ip := File (IndexDoc
                   (Index.sort_desc (Index.replace_or_append (entry_of r) l)))]>
                  (<[bj r := File (BlogDoc (blog_of r))]> f2)) w /\
    ((no_svg_below script_dir w /\ f2 = <[bd r := Dir]> (fs w)) \/
     (exists src c,
        fs w !! src = Some (File c) /\
        Path.starts_with (all_blogs_dir script_dir +:+ "/") src = true /\
        Path.ends_with ".svg" (Path.basename src) = true /\
        f2 = <[dest r := File (if decide (src = dest r) then Raw [] else c)]>
               (<[bd r := Dir]> (fs w)))).
Proof.
  intros H.
  assert (Hd1 : dest r <> bd r) by apply dest_not_blog_dir.
  assert (Hd2 : bj r <> bd r) by apply blog_json_not_blog_dir.
  assert (Hd3 : bj r <> dest r) by apply blog_json_not_dest.
  assert (Hd4 : ip <> dest r) by apply index_not_dest.
  assert (Hd5 : ip <> bj r) by apply index_not_blog_json.
  unfold upsert in H. cbv zeta in H.
  change (Path.join (bd r) (image_filename_of (Post.category r)))
    with (dest r) in H.
  change (Path.join (bd r) "blog.json") with (bj r) in H.
  apply bind_returns in H as (u1 & w1 & E1 & H).
  assert (Hnf : forall c, fs w !! bd r <> Some (File c)).
  { intros c Ec. unfold makedirs in E1. rewrite Ec in E1. discriminate. }
  rewrite (makedirs_ok _ _ Hnf) in E1. injection E1 as _ <-.
  apply bind_returns in H as (u2 & w2 & E2 & H).
  apply place_image_returns in E2 as (f2 & -> & Hcases).
  apply bind_returns in H as (u3 & w3 & E3 & H).
  apply write_file_returns in E3 as (Hbj & ->).
  apply bind_returns in H as (found & w4 & E4 & H).
  unfold path_exists in E4. injection E4 as <- <-.
  apply bind_returns in H as (index_data & w5 & E5 & H).
  apply bind_returns in H as (u6 & w6 & E6 & H).
  apply write_file_returns in E6 as (Hip & ->).
  unfold ret in H. injection H as <- <-.
  cbn [fs set_fs] in *.
  set (f3 := <[bj r := File (BlogDoc (blog_of r))]> f2) in *.
  assert (Hf2 : forall p, p <> dest r -> p <> bd r -> f2 !! p = fs w !! p).
  { intros p H1 H2. destruct Hcases as [[_ ->]|(src & c & _ & _ & _ & ->)];
      now rewrite ?lookup_insert_ne by auto. }
  assert (Hf2bd : f2 !! bd r = Some Dir).
  { destruct Hcases as [[_ ->]|(src & c & _ & _ & _ & ->)];
      rewrite ?lookup_insert_ne by auto; apply lookup_insert_eq. }
  assert (Nb : bd r <> ip).
  { intros Eb. assert (Hd : f3 !! ip = Some Dir).
    { subst f3. rewrite lookup_insert_ne by auto. now rewrite <- Eb. }
    rewrite Hd in E5. unfold load_index, bind, read_file in E5.
    cbn [fs set_fs] in E5. rewrite Hd in E5. discriminate. }
  assert (Hip3 : f3 !! ip = fs w !! ip).
  { subst f3. rewrite lookup_insert_ne by auto. apply Hf2; auto. }
  assert (Hl : loaded_index script_dir w = Some index_data /\
               w5 = set_fs f3 w).
  { rewrite Hip3 in E5. unfold loaded_index.
    destruct (fs w !! ip) as [[|[d|b|l0]]|] eqn:Ei.
    - unfold load_index, bind, read_file in E5. cbn [fs set_fs] in E5.
      rewrite Hip3 in E5. discriminate.
    - unfold load_index, bind, read_file in E5. cbn [fs set_fs] in E5.
      rewrite Hip3 in E5. discriminate.
    - unfold load_index, bind, read_file in E5. cbn [fs set_fs] in E5.
      rewrite Hip3 in E5. discriminate.
    - unfold load_index, bind, read_file in E5. cbn [fs set_fs] in E5.
      rewrite Hip3 in E5. unfold ret in E5. now injection E5 as <- <-.
    - unfold ret in E5. now injection E5 as <- <-. }
  destruct Hl as [Hl ->].
  split; [reflexivity|]. split; [exact Hnf|]. split; [exact Nb|].
  exists index_data, f2. split; [exact Hl|]. split; [reflexivity|].
  destruct Hcases as [[Hno ->]|(src & c & Hc & Hpre & Hsvg & ->)].
  - left. split; [|reflexivity]. intros p c Hc. apply Hno with (c := c).
    cbn [fs set_fs]. now apply files_after_makedirs.
  - right. exists src, c. cbn [fs set_fs] in *.
    apply files_after_makedirs in Hc; auto.
Qed.

(** Without an SVG file the upsert returns as soon as the post
    directory can be made, the metadata file can be written and the
    index can be loaded. *)
Lemma upsert_no_svg w r l :
  no_svg_below script_dir w ->
  (forall c, fs w !! bd r <> Some (File c)) ->
  bd r <> ip ->
  fs w !! bj r <> Some Dir ->
  loaded_index script_dir w = Some l ->
  upsert script_dir r w =
    (Return (Post.id r),
     set_fs (<[ip := File (IndexDoc
                (Index.sort_desc (Index.replace_or_append (entry_of r) l)))]>
               (<[bj r := File (BlogDoc (blog_of r))]>
                  (<[bd r := Dir]> (fs w)))) w).
Proof.
  intros Hno Hnf Hne Hbj Hl.
  assert (Hd2 : bj r <> bd r) by apply blog_json_not_blog_dir.
  assert (Hd5 : ip <> bj r) by apply index_not_blog_json.
  unfold upsert.
  rewrite (bind_return _ _ _ _ _ (makedirs_ok (bd r) w Hnf)).
  set (w1 := set_fs (<[bd r := Dir]> (fs w)) w).
  assert (Hno1 : no_svg_below script_dir w1).
  { intros p c Hc. apply Hno with (c := c).
    subst w1. cbn [fs set_fs] in Hc. now apply files_after_makedirs in Hc. }
  rewrite (bind_return _ _ _ _ _ (place_image_none w1 _ Hno1)).
  change (Path.join (bd r) "blog.json") with (bj r).
  rewrite (bind_return _ _ _ _ _ (write_file_ok (bj r) _ w1
             ltac:(subst w1; cbn [fs set_fs];
                   now rewrite lookup_insert_ne by auto))).
  subst w1. cbn [fs set_fs].
  set (f3 := <[bj r := File (BlogDoc (blog_of r))]> (<[bd r := Dir]> (fs w))).
  change (set_fs f3 (set_fs (<[bd r := Dir]> (fs w)) w)) with (set_fs f3 w).
  assert (Hip : f3 !! ip = fs w !! ip).
  { subst f3. now rewrite !lookup_insert_ne by auto. }
  unfold bind at 1. unfold path_exists. cbn [fs set_fs]. rewrite Hip.
  destruct (loaded_index_cases script_dir w l Hl) as [[E ->]|E]; rewrite E.
  - unfold bind at 1. unfold ret at 1.
    rewrite (bind_return _ _ _ _ _ (write_file_ok ip _ (set_fs f3 w)
               ltac:(cbn [fs set_fs]; rewrite Hip, E; discriminate))).
    reflexivity.
  - unfold bind at 1. unfold load_index, bind at 1.
    rewrite (read_file_ok ip (IndexDoc l) (set_fs f3 w))
      by (cbn [fs set_fs]; now rewrite Hip).
    unfold ret at 1.
    rewrite (bind_return _ _ _ _ _ (write_file_ok ip _ (set_fs f3 w)
               ltac:(cbn [fs set_fs]; rewrite Hip, E; discriminate))).
    reflexivity.
Qed.

(** The index after a run that returns. *)
Lemma upsert_returns_index r w i w' :
  upsert script_dir r w = (Return i, w') ->
  i = Post.id r /\
  exists l,
    loaded_index script_dir w = Some l /\
    index_file script_dir w' =
      Some (Index.sort_desc (Index.replace_or_append (entry_of r) l)).
Proof.
  intros H. apply upsert_returns in H as (-> & _ & _ & l & f2 & Hl & -> & _).
  split; [reflexivity|]. exists l. split; [exact Hl|].
  unfold index_file. cbn [fs set_fs]. now rewrite lookup_insert_eq.
Qed.

(** The metadata file after a run that returns. *)
Lemma upsert_returns_blog r w i w' :
  upsert script_dir r w = (Return i, w') ->
  fs w' !! bj r = Some (File (BlogDoc (blog_of r))).
Proof.
  intros H. apply upsert_returns in H as (-> & _ & _ & l & f2 & Hl & -> & _).
  cbn [fs set_fs]. rewrite lookup_insert_ne by apply index_not_blog_json.
  apply lookup_insert_eq.
Qed.

(** An upsert writes nothing to the standard output. *)
Lemma upsert_returns_stdout r w i w' :
  upsert script_dir r w = (Return i, w') -> stdout w' = stdout w.
Proof.
  intros H. now apply upsert_returns in H as (-> & _ & _ & l & f2 & Hl & -> & _).
Qed.

End Returns.

(** ** Every run of the upsert, and ids that are single components *)

Section EveryRun.
Import Os.
Variable script_dir : string.

Local Abbreviation ip := (index_path script_dir).
Local Abbreviation A := (all_blogs_dir script_dir).
Local Abbreviation bd r := (blog_dir_of script_dir (Post.id r)).
Local Abbreviation bj r := (blog_json_path_of script_dir (Post.id r)).
Local Abbreviation dest r := (placeholder_path_of script_dir r).

Lemma touches_place (S : string -> Prop) target :
  S target ->
  touches S
    (source_image <- find_source_image script_dir ;;
     match source_image with
     | Some src =>
         read_file src ;;;
         write_file target (Raw []) ;;;
         data <- read_file src ;;
         write_file target data
     | None => ret tt
     end).
Proof.
  intros Ht. apply touches_bind; [now intros w p _|].
  intros [src|]; [|apply touches_ret].
  apply touches_bind; [apply touches_read|]. intros _.
  apply touches_bind; [now apply touches_write|]. intros _.
  apply touches_bind; [apply touches_read|].
  intros c. now apply touches_write.
Qed.

Lemma touches_index_update (S : string -> Prop) r :
  S ip ->
  touches S
    (found <- path_exists ip ;;
     index_data <- (if found then load_index ip else ret []) ;;
     write_file ip
       (IndexDoc (Index.sort_desc
                    (Index.replace_or_append (entry_of r) index_data))) ;;;
     ret (Post.id r)).
Proof.
  intros Hi. apply touches_bind; [apply touches_exists|]. intros found.
  apply touches_bind.
  { destruct found; [apply touches_load_index | apply touches_ret]. }
  intros l. apply touches_bind; [now apply touches_write|].
  intros _. apply touches_ret.
Qed.

(** The metadata file after any run: written when the run returns, and
    written or left as it was when the run raises. *)
Lemma upsert_blog_json r w :
  match upsert script_dir r w with
  | (Return _, w') => fs w' !! bj r = Some (File (BlogDoc (blog_of r)))
  | (Raise _, w') =>
      fs w' !! bj r = fs w !! bj r \/
      fs w' !! bj r = Some (File (BlogDoc (blog_of r)))
  end.
Proof.
  assert (Hd2 : bj r <> bd r) by apply blog_json_not_blog_dir.
  assert (Hd3 : bj r <> dest r) by apply blog_json_not_dest.
  assert (Hd5 : ip <> bj r) by apply index_not_blog_json.
  unfold upsert. cbv zeta.
  change (Path.join (bd r) (image_filename_of (Post.category r)))
    with (dest r).
  change (Path.join (bd r) "blog.json") with (bj r).
  unfold bind at 1.
  pose proof (touches_makedirs (fun p => p = bd r) (bd r) eq_refl w (bj r) Hd2)
    as T1.
  destruct (makedirs (bd r) w) as [[u1|e1] w1]; cbn [snd] in T1;
    [|now left].
  unfold bind at 1.
  pose proof (touches_place (fun p => p = dest r) (dest r) eq_refl w1 (bj r) Hd3)
    as T2.
  match goal with
  | |- context [match ?c w1 with _ => _ end] =>
      destruct (c w1) as [[u2|e2] w2]
  end; cbn [snd] in T2; [|left; congruence].
  unfold bind at 1. unfold write_file at 1.
  destruct (fs w2 !! bj r) as [[|c0]|] eqn:E2; [left; congruence | |].
  - set (w3 := set_fs _ w2).
    pose proof (touches_index_update (fun p => p = ip) r eq_refl w3 (bj r)
                  ltac:(congruence)) as T3.
    assert (H3 : fs w3 !! bj r = Some (File (BlogDoc (blog_of r))))
      by (subst w3; cbn [fs set_fs]; apply lookup_insert_eq).
    match goal with
    | |- match ?c with _ => _ end =>
        destruct c as [[u4|e4] w4]
    end; cbn [snd] in T3; [|right]; congruence.
  - set (w3 := set_fs _ w2).
    pose proof (touches_index_update (fun p => p = ip) r eq_refl w3 (bj r)
                  ltac:(congruence)) as T3.
    assert (H3 : fs w3 !! bj r = Some (File (BlogDoc (blog_of r))))
      by (subst w3; cbn [fs set_fs]; apply lookup_insert_eq).
    match goal with
    | |- match ?c with _ => _ end =>
        destruct c as [[u4|e4] w4]
    end; cbn [snd] in T3; [|right]; congruence.
Qed.

(** No run turns the post directory into a file, or a file there into
    something else. *)
Lemma upsert_keeps_post_dir r w :
  bd r <> ip ->
  file_at (snd (upsert script_dir r w)) (bd r) = file_at w (bd r).
Proof.
  intros Hne. unfold file_at.
  destruct (fs w !! bd r) as [[|c]|] eqn:E.
  - assert (Hnf : forall c, fs w !! bd r <> Some (File c))
      by (intros c; rewrite E; discriminate).
    unfold upsert. cbv zeta.
    rewrite (bind_return _ _ _ _ _ (makedirs_ok _ _ Hnf)).
    match goal with
    | |- context [snd (?c ?w1)] =>
        assert (T : touches (fun p => p = dest r \/ p = bj r \/ p = ip) c)
    end.
    { apply touches_bind; [apply touches_place; now left|]. intros _.
      apply touches_bind; [apply touches_write; right; now left|]. intros _.
      apply touches_index_update. right. now right. }
    rewrite T.
    + cbn [fs set_fs]. now rewrite lookup_insert_eq.
    + intros [H|[H|H]].
      * symmetry in H. revert H. apply dest_not_blog_dir.
      * symmetry in H. revert H. apply blog_json_not_blog_dir.
      * contradiction.
  - unfold upsert, bind at 1, makedirs. rewrite E. cbn [snd]. now rewrite E.
  - assert (Hnf : forall c, fs w !! bd r <> Some (File c))
      by (intros c; rewrite E; discriminate).
    unfold upsert. cbv zeta.
    rewrite (bind_return _ _ _ _ _ (makedirs_ok _ _ Hnf)).
    match goal with
    | |- context [snd (?c ?w1)] =>
        assert (T : touches (fun p => p = dest r \/ p = bj r \/ p = ip) c)
    end.
    { apply touches_bind; [apply touches_place; now left|]. intros _.
      apply touches_bind; [apply touches_write; right; now left|]. intros _.
      apply touches_index_update. right. now right. }
    rewrite T.
    + cbn [fs set_fs]. now rewrite lookup_insert_eq.
    + intros [H|[H|H]].
      * symmetry in H. revert H. apply dest_not_blog_dir.
      * symmetry in H. revert H. apply blog_json_not_blog_dir.
      * contradiction.
Qed.

Lemma component_parts i :
  Path.component i = true ->
  Path.has_sep i = false /\ String.eqb i "" = false /\
  i <> "."%string /\ i <> ".."%string.
Proof.
  unfold Path.component. intros H.
  apply andb_true_iff in H as [H H4]. apply andb_true_iff in H as [H H3].
  apply andb_true_iff in H as [H1 H2].
  apply negb_true_iff in H1, H2, H3, H4.
  repeat split; auto; now apply String.eqb_neq.
Qed.

(** The paths of a post whose id is a single component. *)
Lemma component_paths r :
  Path.component (Post.id r) = true ->
  bd r = A +:+ "/" +:+ Post.id r /\
  bj r = A +:+ "/" +:+ Post.id r +:+ "/blog.json" /\
  dest r = A +:+ "/" +:+ Post.id r +:+ "/"
             +:+ Slug.slugify (Post.category r) +:+ ".svg" /\
  bd r <> ip.
Proof.
  intros Hc. apply component_parts in Hc as (Hs & He & _ & _).
  assert (Hbd : bd r = A +:+ "/" +:+ Post.id r)
    by now apply blog_dir_plain.
  split; [exact Hbd|]. split; [|split].
  - rewrite (blog_json_plain script_dir _ Hs), He.
    now rewrite !app_assoc_string.
  - unfold placeholder_path_of, image_filename_of. rewrite Hbd.
    unfold Path.join. rewrite svg_name_relative.
    rewrite (plain_trailing_sep script_dir _ Hs), He.
    rewrite eqb_empty_length by (rewrite !app_length_string; simpl; lia).
    cbn [orb]. now rewrite !app_assoc_string.
  - rewrite Hbd. unfold index_path.
    rewrite all_blogs_shape, join_blogs by reflexivity.
    rewrite !app_assoc_string. intros H. apply app_inv_l in H.
    discriminate.
Qed.

End EveryRun.

(* ===================================================================== *)
(** * Properties of the upsert                                            *)
(* ===================================================================== *)

(** The example of the specification: upserting ["a"] of 2024-01-01 and
    then ["b"] of 2024-06-01 gives the index [[b; a]]. *)
Example index_after_a_then_b :
  index_file Sample.root Sample.two_posts
  = Some [entry_of Sample.post_b; entry_of Sample.post_a].
Proof. vm_compute. reflexivity. Qed.

(** C1, as stated for every index state, fails: when the index file
    already holds two entries of the id (it can, being a plain file),
    each upsert replaces only the first of them, and after two upserts
    of the same record the index has two entries of that id. *)
Lemma upsert_twice_on_doubled_index :
  option_map (Index.with_id (Post.id Sample.post_a))
    (index_file Sample.root
       (run_calls Sample.root
          [AddManual Sample.post_a; AddManual Sample.post_a] Sample.doubled))
  = Some [entry_of Sample.post_a; entry_of Sample.post_a].
Proof. vm_compute. reflexivity. Qed.

(** C1, amended.  For every index state with at most one entry per id
    and every record: when two upserts of the record in a row both
    return, the index holds exactly one entry with the record's id,
    which carries the record's values, and the second upsert has left
    the index as the first one made it.  And every index that a sequence
    of upserts produces from an index with at most one entry per id (an
    empty or absent one in particular) has at most one entry per id. *)
Theorem upsert_twice_one_entry (script_dir : string) :
  (forall (c : call) (w w1 w2 : Os.world) (i1 i2 : string),
      (forall l, index_file script_dir w = Some l -> NoDup (Index.ids l)) ->
      invoke script_dir c w = (Os.Return i1, w1) ->
      invoke script_dir c w1 = (Os.Return i2, w2) ->
      exists l2,
        index_file script_dir w1 = Some l2 /\
        index_file script_dir w2 = Some l2 /\
        Index.with_id (Post.id (record_of c)) l2 = [entry_of (record_of c)] /\
        NoDup (Index.ids l2)) /\
  (forall (cs : list call) (w : Os.world),
      (forall l, index_file script_dir w = Some l -> NoDup (Index.ids l)) ->
      forall l, index_file script_dir (run_calls script_dir cs w) = Some l ->
                NoDup (Index.ids l)).
Proof.
  split.
  - intros c w w1 w2 i1 i2 Hnd H1 H2. rewrite invoke_upsert in H1, H2.
    set (r := record_of c) in *. set (e := entry_of r).
    apply upsert_returns_index in H1 as (_ & l & Hl & I1).
    apply upsert_returns_index in H2 as (_ & l' & Hl' & I2).
    set (l1 := Index.sort_desc (Index.replace_or_append (entry_of r) l)) in *.
    rewrite (index_file_loaded script_dir w1 l1 I1) in Hl'.
    injection Hl' as <-.
    assert (Hndl : NoDup (Index.ids l)).
    { destruct (loaded_index_file script_dir w l Hl) as [H|[_ ->]];
        [now apply Hnd | constructor]. }
    assert (Hnd1 : NoDup (Index.ids l1))
      by now apply sort_desc_nodup, replace_or_append_nodup.
    assert (Hin1 : In e l1).
    { eapply Permutation_in;
        [symmetry; apply sort_desc_perm | apply replace_or_append_in]. }
    exists l1. split; [exact I1|]. split; [|split; [|exact Hnd1]].
    + rewrite I2. f_equal. fold e.
      rewrite (replace_or_append_same e l1 Hnd1 Hin1).
      apply sort_desc_fixed, sort_desc_sorted.
    + apply (with_id_unique e l1 Hnd1 Hin1).
  - intros cs w Hw l.
    apply (run_calls_invariant script_dir (fun l => NoDup (Index.ids l))); auto.
    + constructor.
    + intros e0 l0 H0. now apply sort_desc_nodup, replace_or_append_nodup.
Qed.

Lemma upsert_twice_one_entry_witness :
  exists l2,
    index_file Sample.root
      (run_call Sample.root (AddManual Sample.post_b) Sample.two_posts)
      = Some l2 /\
    index_file Sample.root
      (run_call Sample.root (AddManual Sample.post_b)
         (run_call Sample.root (AddManual Sample.post_b) Sample.two_posts))
      = Some l2 /\
    Index.with_id "b" l2 = [entry_of Sample.post_b] /\
    NoDup (Index.ids l2).
Proof.
  apply (proj1 (upsert_twice_one_entry Sample.root)
           (AddManual Sample.post_b) Sample.two_posts
           (run_call Sample.root (AddManual Sample.post_b) Sample.two_posts)
           (run_call Sample.root (AddManual Sample.post_b)
              (run_call Sample.root (AddManual Sample.post_b) Sample.two_posts))
           "b"%string "b"%string).
  - intros l. vm_compute. intros [= <-].
    apply (bool_decide_unpack _). vm_compute. reflexivity.
  - vm_compute. reflexivity.
  - vm_compute. reflexivity.
Defined.

(** C2.  For every sequence of upsert runs that starts from an empty or
    absent index, the list in the index file is sorted by
    [publishedDate] in descending order after each run of the sequence;
    and every upsert that returns has written such a list. *)
Theorem index_sorted_after_upserts (script_dir : string) :
  (forall (c : call) (w w' : Os.world) (i : string),
      invoke script_dir c w = (Os.Return i, w') ->
      exists l, index_file script_dir w' = Some l /\ Index.sorted_desc l) /\
  (forall (cs : list call) (w0 : Os.world),
      Os.fs w0 !! index_path script_dir = None \/
      index_file script_dir w0 = Some [] ->
      forall (n : nat) (l : list Entry.t),
        index_file script_dir (run_calls script_dir (firstn n cs) w0) = Some l ->
        Index.sorted_desc l).
Proof.
  split.
  - intros c w w' i E. rewrite invoke_upsert in E.
    pose proof (upsert_effect script_dir (record_of c) w) as He.
    unfold index_effect in He. rewrite E in He. simpl in He.
    destruct He as (l0 & _ & Hres).
    eexists. split; [exact Hres | apply sort_desc_sorted].
  - intros cs w0 H0 n.
    apply (run_calls_invariant script_dir Index.sorted_desc).
    + constructor.
    + intros e l _. apply sort_desc_sorted.
    + intros l Hl. destruct H0 as [H0|H0].
      * unfold index_file in Hl. rewrite H0 in Hl. discriminate.
      * rewrite H0 in Hl. injection Hl as <-. constructor.
Qed.

Lemma index_sorted_after_upserts_witness :
  (exists l, index_file Sample.root Sample.two_posts = Some l /\
             Index.sorted_desc l) /\
  Index.sorted_desc [entry_of Sample.post_b; entry_of Sample.post_a].
Proof.
  split.
  - apply (proj1 (index_sorted_after_upserts Sample.root)
             (AddManual Sample.post_b)
             (run_calls Sample.root [AddManual Sample.post_a] Sample.nothing)
             Sample.two_posts "b"%string).
    vm_compute. reflexivity.
  - apply (proj2 (index_sorted_after_upserts Sample.root)
             [AddManual Sample.post_a; AddManual Sample.post_b] Sample.nothing
             (or_introl eq_refl) 2).
    vm_compute. reflexivity.
Defined.




(** C6.  For every record, the [readTime] field of the metadata file
    that the upsert writes is the decimal numeral of
    [max 1 (len content / 1000)] followed by [" min read"], where the
    division is the integer division that rounds down: so it is in
    every run that returns, and a run that raises has written that
    document or has left the metadata file as it was. *)
Theorem upsert_read_time (script_dir : string) (c : call) (w : Os.world) :
  let r := record_of c in
  let content := Post.content r in
  let minutes := Nat.max 1 (String.length content / 1000) in
  let expected :=
    (NilEmpty.string_of_uint (Nat.to_uint minutes) +:+ " min read")%string in
  let path := blog_json_path_of script_dir (Post.id r) in
  (forall i w',
      invoke script_dir c w = (Os.Return i, w') ->
      exists b,
        Os.fs w' !! path = Some (Os.File (Os.BlogDoc b)) /\
        Blog.readTime b = expected) /\
  (forall e w',
      invoke script_dir c w = (Os.Raise e, w') ->
      Os.fs w' !! path = Os.fs w !! path \/
      exists b,
        Os.fs w' !! path = Some (Os.File (Os.BlogDoc b)) /\
        Blog.readTime b = expected) /\
  (String.length content < 2000 -> expected = "1 min read"%string) /\
  (1000 <= String.length content ->
   minutes * 1000 <= String.length content < (minutes + 1) * 1000).
Proof.
  intros r content minutes expected path.
  rewrite invoke_upsert. fold r.
  pose proof (upsert_blog_json script_dir r w) as Hb.
  assert (Hrt : Blog.readTime (blog_of r) = expected) by reflexivity.
  split; [|split].
  - intros i w' E. rewrite E in Hb. exists (blog_of r). now split.
  - intros e w' E. rewrite E in Hb. destruct Hb as [Hb|Hb]; [now left|].
    right. exists (blog_of r). now split.
  - subst expected minutes. generalize (String.length content). intros n.
    pose proof (Nat.div_mod_eq n 1000) as Hdm.
    pose proof (Nat.mod_upper_bound n 1000 ltac:(lia)) as Hlt.
    split; intros Hn.
    + assert (n / 1000 < 2) by (apply Nat.Div0.div_lt_upper_bound; lia).
      assert (Hm : Nat.max 1 (n / 1000) = 1) by lia.
      now rewrite Hm.
    + assert (1 <= n / 1000) by (apply Nat.div_le_lower_bound; lia). lia.
Qed.

Lemma upsert_read_time_witness :
  exists b,
    Os.fs (run_call Sample.root (AddManual Sample.post_a) Sample.nothing)
      !! blog_json_path_of Sample.root "a"
      = Some (Os.File (Os.BlogDoc b)) /\
    Blog.readTime b = "1 min read"%string.
Proof.
  apply (proj1 (upsert_read_time Sample.root (AddManual Sample.post_a)
                  Sample.nothing) "a"%string).
  vm_compute. reflexivity.
Defined.




(** C10, as stated, fails in its first part: with no SVG file below the
    post collection root an upsert need not succeed.  When a regular
    file stands in the place of the post directory the run raises, and
    neither a metadata file nor an index entry is written. *)
Lemma upsert_fails_without_svg :
  no_svg Sample.root Demo3.blocked /\
  invoke Sample.root (AddManual Demo3.post_c) Demo3.blocked
    = (Os.Raise Os.FileExistsError, Demo3.blocked) /\
  Os.fs Demo3.blocked !! blog_json_path_of Sample.root "c" = None /\
  option_map (Index.has_id "c") (index_file Sample.root Demo3.blocked)
    = Some false.
Proof. repeat split; vm_compute; reflexivity. Qed.

(** C10, amended.  When no SVG file exists below the post collection
    root, every upsert that returns has written the metadata file and
    the index entry with the image path
    [allBlogs/<id>/<slugified-category>.svg] although it has created no
    image: the place of the placeholder is as before, and when the id is
    a single path component, the stored path is that place and no file
    is there, so the record refers to a file that does not exist. *)
Theorem upsert_without_svg (script_dir : string) (c : call)
    (w w' : Os.world) (i : string) :
  no_svg script_dir w ->
  invoke script_dir c w = (Os.Return i, w') ->
  let r := record_of c in
  let stored :=
    ("allBlogs/" +:+ Post.id r +:+ "/" +:+
     Slug.slugify (Post.category r) +:+ ".svg")%string in
  i = Post.id r /\
  (exists b,
     Os.fs w' !! blog_json_path_of script_dir (Post.id r)
       = Some (Os.File (Os.BlogDoc b)) /\
     Blog.image b = stored) /\
  (exists l' e,
     index_file script_dir w' = Some l' /\
     In e l' /\ Entry.id e = Post.id r /\ Entry.coverImage e = stored) /\
  Os.fs w' !! placeholder_path_of script_dir r
    = Os.fs w !! placeholder_path_of script_dir r /\
  (Path.component (Post.id r) = true ->
   Path.join (blogs_dir script_dir) stored = placeholder_path_of script_dir r /\
   is_file w' (placeholder_path_of script_dir r) = false).
Proof.
  intros Hno E r stored. rewrite invoke_upsert in E. fold r in E.
  apply no_svg_spec in Hno.
  assert (Hd1 : placeholder_path_of script_dir r
                <> blog_dir_of script_dir (Post.id r))
    by apply dest_not_blog_dir.
  assert (Hd3 : blog_json_path_of script_dir (Post.id r)
                <> placeholder_path_of script_dir r)
    by apply blog_json_not_dest.
  assert (Hd4 : index_path script_dir <> placeholder_path_of script_dir r)
    by apply index_not_dest.
  pose proof (upsert_returns_blog script_dir r w i w' E) as Hbj.
  pose proof (upsert_returns_index script_dir r w i w' E) as (Hi & l & Hl & I).
  apply upsert_returns in E as (_ & _ & _ & l0 & f2 & _ & -> & Hcases).
  destruct Hcases as [[_ ->]|(src & d & Hd & Hp & He & _)];
    [|rewrite (Hno _ _ Hd Hp) in He; discriminate].
  assert (Hdest : Os.fs
            (Os.set_fs
               (<[index_path script_dir :=
                    Os.File (Os.IndexDoc
                       (Index.sort_desc
                          (Index.replace_or_append (entry_of r) l0)))]>
                  (<[blog_json_path_of script_dir (Post.id r) :=
                       Os.File (Os.BlogDoc (blog_of r))]>
                     (<[blog_dir_of script_dir (Post.id r) := Os.Dir]>
                        (Os.fs w)))) w)
            !! placeholder_path_of script_dir r
          = Os.fs w !! placeholder_path_of script_dir r).
  { cbn [Os.fs Os.set_fs]. now rewrite !lookup_insert_ne by auto. }
  split; [exact Hi|]. split; [|split; [|split]].
  - exists (blog_of r). split; [exact Hbj | reflexivity].
  - eexists. exists (entry_of r). split; [exact I|]. split; [|now split].
    eapply Permutation_in;
      [symmetry; apply sort_desc_perm | apply replace_or_append_in].
  - exact Hdest.
  - intros Hc.
    pose proof (stored_path_free script_dir w (Post.id r) (Post.category r) Hno)
      as Hfree.
    change (image_path_of (Post.id r) (image_filename_of (Post.category r)))
      with stored in Hfree.
    assert (Hs : Path.join (blogs_dir script_dir) stored
                 = placeholder_path_of script_dir r).
    { destruct (component_paths script_dir r Hc) as (_ & _ & -> & _).
      destruct (stored_path_shape script_dir (Post.id r)
                  (image_filename_of (Post.category r))) as [_ S2].
      change (image_path_of (Post.id r) (image_filename_of (Post.category r)))
        with stored in S2.
      rewrite S2. unfold image_filename_of. now rewrite !app_assoc_string. }
    split; [exact Hs|]. rewrite Hs in Hfree.
    unfold is_file in *. now rewrite Hdest.
Qed.

Lemma upsert_without_svg_witness :
  "third-post"%string
    = Post.id (resolve (UrlData.Make "Third Post!" "text" "me" "2024-03-01"
                          "intro" "") None (Some "Data Lakes"%string)) /\
  (exists b,
     Os.fs (run_call Sample.root
              (AddFromUrl
                 (UrlData.Make "Third Post!" "text" "me" "2024-03-01" "intro" "")
                 None (Some "Data Lakes"%string)) Sample.two_posts)
       !! blog_json_path_of Sample.root "third-post"
       = Some (Os.File (Os.BlogDoc b)) /\
     Blog.image b = "allBlogs/third-post/data-lakes.svg"%string) /\
  (exists l' e,
     index_file Sample.root
       (run_call Sample.root
          (AddFromUrl
             (UrlData.Make "Third Post!" "text" "me" "2024-03-01" "intro" "")
             None (Some "Data Lakes"%string)) Sample.two_posts) = Some l' /\
     In e l' /\ Entry.id e = "third-post"%string /\
     Entry.coverImage e = "allBlogs/third-post/data-lakes.svg"%string) /\
  Os.fs (run_call Sample.root
           (AddFromUrl
              (UrlData.Make "Third Post!" "text" "me" "2024-03-01" "intro" "")
              None (Some "Data Lakes"%string)) Sample.two_posts)
    !! "/repo/Blogs/allBlogs/third-post/data-lakes.svg"%string
    = Os.fs Sample.two_posts
        !! "/repo/Blogs/allBlogs/third-post/data-lakes.svg"%string /\
  (Path.component "third-post" = true ->
   Path.join (blogs_dir Sample.root) "allBlogs/third-post/data-lakes.svg"
     = "/repo/Blogs/allBlogs/third-post/data-lakes.svg"%string /\
   is_file (run_call Sample.root
              (AddFromUrl
                 (UrlData.Make "Third Post!" "text" "me" "2024-03-01" "intro" "")
                 None (Some "Data Lakes"%string)) Sample.two_posts)
     "/repo/Blogs/allBlogs/third-post/data-lakes.svg" = false).
Proof.
  apply (upsert_without_svg Sample.root
           (AddFromUrl
              (UrlData.Make "Third Post!" "text" "me" "2024-03-01" "intro" "")
              None (Some "Data Lakes"%string))
           Sample.two_posts
           (run_call Sample.root
              (AddFromUrl
                 (UrlData.Make "Third Post!" "text" "me" "2024-03-01" "intro" "")
                 None (Some "Data Lakes"%string)) Sample.two_posts)
           "third-post"%string).
  - vm_compute. reflexivity.
  - vm_compute. reflexivity.
Defined.

(* ===================================================================== *)
(** * Properties of the image update                                      *)
(* ===================================================================== *)

(** C7.  When the blog directory or the image file does not exist, the
    image update prints the error, the script exits with status 1, and
    no file is changed: the whole file system, and with it the post
    directory, the metadata file and the index file, is as before. *)
Theorem image_update_missing (script_dir blog_id image_path : string)
    (w : Os.world) :
  Os.fs w !! blog_dir_of script_dir blog_id = None \/
  Os.fs w !! image_path = None ->
  exists line,
    (line = "Error: Blog with ID '" +:+ blog_id +:+ "' not found." \/
     line = "Error: Image file '" +:+ image_path +:+ "' not found.") /\
    update_blog_image script_dir blog_id image_path w
      = (Os.Return false, Os.World (Os.fs w) (Os.stdout w ++ [line])) /\
    image_main script_dir blog_id image_path w
      = (Os.Raise (Os.SystemExit 1),
         Os.World (Os.fs w) (Os.stdout w ++ [line])) /\
    Os.exit_status (fst (image_main script_dir blog_id image_path w)) = 1.
Proof.
  intros H.
  assert (Hu : exists line,
             (line = "Error: Blog with ID '" +:+ blog_id +:+ "' not found." \/
              line = "Error: Image file '" +:+ image_path +:+ "' not found.") /\
             update_blog_image script_dir blog_id image_path w
             = (Os.Return false, Os.World (Os.fs w) (Os.stdout w ++ [line]))).
  { unfold update_blog_image, Os.bind at 1, Os.path_exists.
    destruct (Os.fs w !! blog_dir_of script_dir blog_id) as [n|] eqn:Ed.
    - destruct H as [H|H]; [discriminate|].
      cbn [negb]. unfold Os.bind at 1. rewrite H. cbn [negb].
      eexists. split; [right; reflexivity | reflexivity].
    - cbn [negb]. eexists. split; [left; reflexivity | reflexivity]. }
  destruct Hu as (line & Hline & Hu). exists line.
  split; [exact Hline|]. split; [exact Hu|].
  unfold image_main, Os.bind. rewrite Hu. split; reflexivity.
Qed.

Lemma image_update_missing_witness :
  exists line,
    (line = "Error: Blog with ID 'zzz' not found."%string \/
     line = "Error: Image file '/tmp/cover.png' not found."%string) /\
    update_blog_image Sample.root "zzz" "/tmp/cover.png" Sample.two_posts
      = (Os.Return false,
         Os.World (Os.fs Sample.two_posts)
           (Os.stdout Sample.two_posts ++ [line])) /\
    image_main Sample.root "zzz" "/tmp/cover.png" Sample.two_posts
      = (Os.Raise (Os.SystemExit 1),
         Os.World (Os.fs Sample.two_posts)
           (Os.stdout Sample.two_posts ++ [line])) /\
    Os.exit_status
      (fst (image_main Sample.root "zzz" "/tmp/cover.png" Sample.two_posts)) = 1.
Proof.
  apply (image_update_missing Sample.root "zzz" "/tmp/cover.png"
           Sample.two_posts).
  left. vm_compute. reflexivity.
Defined.

Lemma set_cover_unbound i l :
  Index.has_id i l = true -> Index.set_cover i None l = Os.Raise Os.NameError.
Proof.
  induction l as [|e l IH]; [discriminate|].
  simpl. destruct (String.eqb (Entry.id e) i); [reflexivity|].
  simpl. intros H. now rewrite IH.
Qed.

(** C9.  The image update is not total.  In a state where the blog
    directory of the id exists, the image exists, [blog.json] is absent
    and the index file has an entry for the id, the update copies the
    image and then raises [NameError]: [relative_image_path] is bound
    only in the branch that found [blog.json], and the index loop reads
    it.  The script ends with status 1, the image copied and the index
    file as before. *)
Theorem image_update_name_error (script_dir blog_id image_path : string)
    (w : Os.world) (img : Os.content) (l : list Entry.t) :
  let dest :=
    Path.join (blog_dir_of script_dir blog_id) (Path.basename image_path) in
  Os.fs w !! blog_dir_of script_dir blog_id = Some Os.Dir ->
  Os.fs w !! image_path = Some (Os.File img) ->
  Os.fs w !! blog_json_path_of script_dir blog_id = None ->
  Os.fs w !! index_path script_dir = Some (Os.File (Os.IndexDoc l)) ->
  Index.has_id blog_id l = true ->
  Os.fs w !! dest = None ->
  dest <> blog_json_path_of script_dir blog_id ->
  update_blog_image script_dir blog_id image_path w
    = (Os.Raise Os.NameError,
       Os.World (<[dest := Os.File img]> (Os.fs w)) (Os.stdout w)) /\
  Os.exit_status (fst (image_main script_dir blog_id image_path w)) = 1.
Proof.
  intros dest Hbd Himg Hbj Hip Hid Hdest Hne.
  assert (N1 : image_path <> dest) by congruence.
  assert (N2 : dest <> index_path script_dir) by congruence.
  assert (Hu : update_blog_image script_dir blog_id image_path w
               = (Os.Raise Os.NameError,
                  Os.World (<[dest := Os.File img]> (Os.fs w)) (Os.stdout w))).
  { unfold update_blog_image.
    unfold Os.bind at 1, Os.path_exists at 1. rewrite Hbd. cbn [negb].
    unfold Os.bind at 1, Os.path_exists at 1. rewrite Himg. cbn [negb].
    fold dest.
    assert (Hcopy : Os.copy2 image_path dest w
                    = (Os.Return tt, Os.set_fs (<[dest := Os.File img]> (Os.fs w)) w)).
    { unfold Os.copy2. rewrite Hdest.
      apply String.eqb_neq in N1. rewrite N1.
      rewrite (bind_return _ _ _ _ _ (read_file_ok _ _ _ Himg)).
      apply write_file_ok. rewrite Hdest. discriminate. }
    rewrite (bind_return _ _ _ _ _ Hcopy).
    unfold Os.bind at 1, Os.path_exists at 1. cbn [Os.fs Os.set_fs].
    change (Path.join (blog_dir_of script_dir blog_id) "blog.json")
      with (blog_json_path_of script_dir blog_id).
    rewrite lookup_insert_ne, Hbj by exact Hne.
    unfold Os.bind at 1, Os.ret at 1.
    unfold Os.bind at 1, Os.path_exists at 1. cbn [Os.fs Os.set_fs].
    rewrite lookup_insert_ne, Hip by exact N2.
    unfold Os.bind at 1, Os.bind at 1, Os.load_index.
    erewrite bind_return
      by (apply read_file_ok; cbn [Os.fs Os.set_fs];
          rewrite lookup_insert_ne by exact N2; exact Hip).
    unfold Os.ret at 1. rewrite (set_cover_unbound _ _ Hid).
    reflexivity. }
  split; [exact Hu|].
  unfold image_main, Os.bind. now rewrite Hu.
Qed.

Lemma image_update_name_error_witness :
  update_blog_image Sample.root "a" "/tmp/cover.png" Sample.orphan
    = (Os.Raise Os.NameError,
       Os.World (<["/repo/Blogs/allBlogs/a/cover.png"%string := Os.File (Os.Raw [])]>
                   (Os.fs Sample.orphan))
         (Os.stdout Sample.orphan)) /\
  Os.exit_status
    (fst (image_main Sample.root "a" "/tmp/cover.png" Sample.orphan)) = 1.
Proof.
  apply (image_update_name_error Sample.root "a" "/tmp/cover.png"
           Sample.orphan (Os.Raw []) [entry_of Sample.post_a]);
    try (vm_compute; reflexivity).
  vm_compute. discriminate.
Defined.

(* ===================================================================== *)
(** * Further properties of the image update                              *)
(* ===================================================================== *)

Section CoverLoop.

Lemma set_cover_bound i path l :
  exists l',
    Index.set_cover i (Some path) l = Os.Return l' /\
    Index.ids l' = Index.ids l /\
    map Entry.publishedDate l' = map Entry.publishedDate l /\
    Index.without_id i l' = Index.without_id i l /\
    (Index.has_id i l = true ->
     exists e, In e l' /\ Entry.id e = i /\ Entry.coverImage e = path).
Proof.
  induction l as [|e l (l' & E & Hids & Hdates & Hout & Hin)].
  - exists []. repeat split; auto. discriminate.
  - cbn [Index.set_cover]. destruct (String.eqb (Entry.id e) i) eqn:Ei.
    + exists (Entry.set_coverImage path e :: l). repeat split; auto.
      * unfold Index.without_id. cbn [List.filter Entry.id Entry.set_coverImage].
        now rewrite Ei.
      * intros _. exists (Entry.set_coverImage path e).
        split; [now left|]. split; [now apply String.eqb_eq | reflexivity].
    + rewrite E. exists (e :: l'). split; [reflexivity|].
      split; [cbn; now f_equal|]. split; [cbn; now f_equal|]. split.
      * unfold Index.without_id in *. cbn [List.filter]. rewrite Ei.
        cbn [negb]. now f_equal.
      * unfold Index.has_id. cbn [existsb]. rewrite Ei. cbn [orb].
        intros H. destruct (Hin H) as (e' & H1 & H2). exists e'.
        split; [now right | exact H2].
Qed.

Lemma set_cover_absent i rel l :
  Index.has_id i l = false -> Index.set_cover i rel l = Os.Return l.
Proof.
  induction l as [|e l IH]; [reflexivity|].
  unfold Index.has_id. cbn [existsb Index.set_cover].
  destruct (String.eqb (Entry.id e) i); [discriminate|].
  cbn [orb]. intros H. now rewrite (IH H).
Qed.

Lemma sorted_desc_dates l l' :
  map Entry.publishedDate l' = map Entry.publishedDate l ->
  Index.sorted_desc l -> Index.sorted_desc l'.
Proof.
  unfold Index.sorted_desc. revert l'.
  induction l as [|x l IH]; intros [|x' l'] Hm Hs; try discriminate;
    [constructor|].
  simpl in Hm. injection Hm as Hx Hm.
  inversion Hs as [|? ? Hl Hhd]; subst.
  constructor; [now apply IH|].
  destruct l' as [|y' l'], l as [|y l]; try discriminate; constructor.
  simpl in Hm. injection Hm as Hy _.
  inversion Hhd; subst. unfold Index.date_ge in *. now rewrite Hx, Hy.
Qed.

End CoverLoop.

Section ImageUpdate.
Import Os.
Variable script_dir : string.

Local Abbreviation ip := (index_path script_dir).

Lemma copy2_ok src dst img w :
  fs w !! src = Some (File img) ->
  fs w !! dst <> Some Dir ->
  src <> dst ->
  copy2 src dst w = (Return tt, set_fs (<[dst := File img]> (fs w)) w).
Proof.
  intros Hsrc Hdst Hne. unfold copy2.
  destruct (fs w !! dst) as [[|c]|] eqn:E; [now destruct Hdst| |];
    apply String.eqb_neq in Hne; rewrite Hne;
    rewrite (bind_return _ _ _ _ _ (read_file_ok _ _ _ Hsrc));
    apply write_file_ok; rewrite E; discriminate.
Qed.

Lemma load_index_ok p l w :
  fs w !! p = Some (File (IndexDoc l)) -> load_index p w = (Return l, w).
Proof.
  intros H. unfold load_index.
  now rewrite (bind_return _ _ _ _ _ (read_file_ok _ _ _ H)).
Qed.

Lemma load_blog_ok p b w :
  fs w !! p = Some (File (BlogDoc b)) -> load_blog p w = (Return b, w).
Proof.
  intros H. unfold load_blog.
  now rewrite (bind_return _ _ _ _ _ (read_file_ok _ _ _ H)).
Qed.

Lemma path_exists_some p n w :
  fs w !! p = Some n -> path_exists p w = (Return true, w).
Proof. intros H. unfold path_exists. now rewrite H. Qed.

Lemma path_exists_none p w :
  fs w !! p = None -> path_exists p w = (Return false, w).
Proof. intros H. unfold path_exists. now rewrite H. Qed.

End ImageUpdate.

Section ImageUpdateRuns.
Import Os.
Variable script_dir : string.

(** The whole run of the update when everything it looks for is there. *)
Lemma image_update_run blog_id image_path w n img b l l' :
  let image_filename := Path.basename image_path in
  let dest := Path.join (blog_dir_of script_dir blog_id) image_filename in
  let rel := image_path_of blog_id image_filename in
  fs w !! blog_dir_of script_dir blog_id = Some n ->
  fs w !! image_path = Some (File img) ->
  fs w !! blog_json_path_of script_dir blog_id = Some (File (BlogDoc b)) ->
  fs w !! index_path script_dir = Some (File (IndexDoc l)) ->
  fs w !! dest <> Some Dir ->
  image_path <> dest ->
  dest <> blog_json_path_of script_dir blog_id ->
  dest <> index_path script_dir ->
  Index.set_cover blog_id (Some rel) l = Return l' ->
  update_blog_image script_dir blog_id image_path w
  = (Return true,
     World (<[index_path script_dir := File (IndexDoc l')]>
              (<[blog_json_path_of script_dir blog_id
                 := File (BlogDoc (Blog.set_image rel b))]>
                 (<[dest := File img]> (fs w))))
       ((stdout w
         ++ ["Image '" +:+ image_filename +:+ "' successfully added to blog '"
             +:+ blog_id +:+ "'"])
        ++ ["Image path: " +:+ dest])).
Proof.
  intros image_filename dest rel Hbd Himg Hbj Hip Hdest N1 N2 N3 Hcover.
  assert (N4 : index_path script_dir <> blog_json_path_of script_dir blog_id)
    by apply index_not_blog_json.
  unfold update_blog_image.
  rewrite (bind_return _ _ _ _ _ (path_exists_some _ _ _ Hbd)). cbn [negb].
  rewrite (bind_return _ _ _ _ _ (path_exists_some _ _ _ Himg)). cbn [negb].
  fold image_filename. fold dest.
  rewrite (bind_return _ _ _ _ _ (copy2_ok _ _ _ _ Himg Hdest N1)).
  change (Path.join (blog_dir_of script_dir blog_id) "blog.json")
    with (blog_json_path_of script_dir blog_id).
  set (w1 := set_fs (<[dest := File img]> (fs w)) w).
  assert (Hbj1 : fs w1 !! blog_json_path_of script_dir blog_id
                 = Some (File (BlogDoc b)))
    by (subst w1; cbn [fs set_fs]; now rewrite lookup_insert_ne).
  rewrite (bind_return _ _ _ _ _ (path_exists_some _ _ _ Hbj1)).
  unfold bind at 1. unfold bind at 1.
  rewrite (load_blog_ok _ _ _ Hbj1).
  rewrite (bind_return _ _ _ _ _
             (write_file_ok _ _ w1 ltac:(rewrite Hbj1; discriminate))).
  unfold ret at 1. fold rel.
  set (w2 := set_fs _ w1).
  assert (Hip2 : fs w2 !! index_path script_dir = Some (File (IndexDoc l)))
    by (subst w2 w1; cbn [fs set_fs]; now rewrite !lookup_insert_ne).
  rewrite (bind_return _ _ _ _ _ (path_exists_some _ _ _ Hip2)).
  unfold bind at 1. unfold bind at 1.
  rewrite (load_index_ok _ _ _ Hip2), Hcover.
  rewrite (write_file_ok _ _ w2) by (rewrite Hip2; discriminate).
  reflexivity.
Qed.

End ImageUpdateRuns.

(** X1.  When the post directory, the image, [blog.json] and the index
    file are all there, the update returns [True] and the script exits
    with status 0: the image is copied into the post directory under its
    base name, [blog.json] keeps every field but [image], which becomes
    [allBlogs/<id>/<base name>], the index is written back, and the two
    lines of success are printed. *)
Theorem image_update_done (script_dir blog_id image_path : string)
    (w : Os.world) (n : Os.node) (img : Os.content) (b : Blog.t)
    (l : list Entry.t) :
  let image_filename := Path.basename image_path in
  let dest := Path.join (blog_dir_of script_dir blog_id) image_filename in
  let rel := ("allBlogs/" +:+ blog_id +:+ "/" +:+ image_filename)%string in
  Os.fs w !! blog_dir_of script_dir blog_id = Some n ->
  Os.fs w !! image_path = Some (Os.File img) ->
  Os.fs w !! blog_json_path_of script_dir blog_id
    = Some (Os.File (Os.BlogDoc b)) ->
  Os.fs w !! index_path script_dir = Some (Os.File (Os.IndexDoc l)) ->
  Os.fs w !! dest <> Some Os.Dir ->
  image_path <> dest ->
  dest <> blog_json_path_of script_dir blog_id ->
  dest <> index_path script_dir ->
  exists w',
    update_blog_image script_dir blog_id image_path w = (Os.Return true, w') /\
    Os.exit_status (fst (image_main script_dir blog_id image_path w)) = 0 /\
    Os.fs w' !! dest = Some (Os.File img) /\
    Os.fs w' !! blog_json_path_of script_dir blog_id
      = Some (Os.File (Os.BlogDoc (Blog.set_image rel b))) /\
    (exists l', Os.fs w' !! index_path script_dir
                = Some (Os.File (Os.IndexDoc l'))) /\
    (forall p, p <> dest -> p <> blog_json_path_of script_dir blog_id ->
               p <> index_path script_dir -> Os.fs w' !! p = Os.fs w !! p) /\
    Os.stdout w'
      = Os.stdout w
        ++ ["Image '" +:+ image_filename +:+ "' successfully added to blog '"
            +:+ blog_id +:+ "'";
            "Image path: " +:+ dest].
Proof.
  intros image_filename dest rel Hbd Himg Hbj Hip Hdest N1 N2 N3.
  destruct (set_cover_bound blog_id rel l) as (l' & Hcover & _).
  pose proof (image_update_run script_dir blog_id image_path w n img b l l'
                Hbd Himg Hbj Hip Hdest N1 N2 N3 Hcover) as Hrun.
  fold image_filename dest in Hrun.
  eexists. split; [exact Hrun|].
  split; [unfold image_main, Os.bind; now rewrite Hrun|].
  cbn [Os.fs Os.stdout].
  assert (N4 : index_path script_dir <> blog_json_path_of script_dir blog_id)
    by apply index_not_blog_json.
  split; [now rewrite !lookup_insert_ne, lookup_insert_eq by auto|].
  split; [now rewrite lookup_insert_ne, lookup_insert_eq by auto|].
  split; [eexists; apply lookup_insert_eq|].
  split; [intros p H1 H2 H3; now rewrite !lookup_insert_ne by auto|].
  now rewrite <- app_assoc.
Qed.

Lemma image_update_done_witness :
  exists w',
    update_blog_image Sample.root "a" "/tmp/cover.png" Demo.with_cover
      = (Os.Return true, w') /\
    Os.exit_status
      (fst (image_main Sample.root "a" "/tmp/cover.png" Demo.with_cover)) = 0 /\
    Os.fs w' !! "/repo/Blogs/allBlogs/a/cover.png"%string
      = Some (Os.File (Os.Raw [Byte.x78])) /\
    Os.fs w' !! blog_json_path_of Sample.root "a"
      = Some (Os.File (Os.BlogDoc
                (Blog.set_image "allBlogs/a/cover.png" (blog_of Sample.post_a)))) /\
    (exists l', Os.fs w' !! index_path Sample.root
                = Some (Os.File (Os.IndexDoc l'))) /\
    (forall p, p <> "/repo/Blogs/allBlogs/a/cover.png"%string ->
               p <> blog_json_path_of Sample.root "a" ->
               p <> index_path Sample.root ->
               Os.fs w' !! p = Os.fs Demo.with_cover !! p) /\
    Os.stdout w'
      = Os.stdout Demo.with_cover
        ++ ["Image 'cover.png' successfully added to blog 'a'"%string;
            "Image path: /repo/Blogs/allBlogs/a/cover.png"%string].
Proof.
  apply (image_update_done Sample.root "a" "/tmp/cover.png" Demo.with_cover
           Os.Dir (Os.Raw [Byte.x78]) (blog_of Sample.post_a)
           [entry_of Sample.post_b; entry_of Sample.post_a]);
    try (vm_compute; reflexivity); vm_compute; discriminate.
Defined.

(** X2.  A successful image update keeps the shape of the index: the
    same ids in the same places and the same dates, so a sorted index
    stays sorted and an index without duplicate ids stays so; the entries
    of other ids are unchanged; and when the id is listed, an entry of
    that id now has [coverImage] equal to the [image] path written to
    [blog.json]. *)
Theorem image_update_index (script_dir blog_id image_path : string)
    (w : Os.world) (n : Os.node) (img : Os.content) (b : Blog.t)
    (l : list Entry.t) :
  let dest :=
    Path.join (blog_dir_of script_dir blog_id) (Path.basename image_path) in
  Os.fs w !! blog_dir_of script_dir blog_id = Some n ->
  Os.fs w !! image_path = Some (Os.File img) ->
  Os.fs w !! blog_json_path_of script_dir blog_id
    = Some (Os.File (Os.BlogDoc b)) ->
  Os.fs w !! index_path script_dir = Some (Os.File (Os.IndexDoc l)) ->
  Os.fs w !! dest <> Some Os.Dir ->
  image_path <> dest ->
  dest <> blog_json_path_of script_dir blog_id ->
  dest <> index_path script_dir ->
  exists w' l' b',
    update_blog_image script_dir blog_id image_path w = (Os.Return true, w') /\
    index_file script_dir w' = Some l' /\
    Os.fs w' !! blog_json_path_of script_dir blog_id
      = Some (Os.File (Os.BlogDoc b')) /\
    Index.ids l' = Index.ids l /\
    map Entry.publishedDate l' = map Entry.publishedDate l /\
    Index.without_id blog_id l' = Index.without_id blog_id l /\
    (Index.sorted_desc l -> Index.sorted_desc l') /\
    (NoDup (Index.ids l) -> NoDup (Index.ids l')) /\
    (Index.has_id blog_id l = true ->
     exists e, In e l' /\ Entry.id e = blog_id /\
               Entry.coverImage e = Blog.image b').
Proof.
  intros dest Hbd Himg Hbj Hip Hdest N1 N2 N3.
  destruct (set_cover_bound blog_id
              (image_path_of blog_id (Path.basename image_path)) l)
    as (l' & Hcover & Hids & Hdates & Hout & Hin).
  pose proof (image_update_run script_dir blog_id image_path w n img b l l'
                Hbd Himg Hbj Hip Hdest N1 N2 N3 Hcover) as Hrun.
  eexists. exists l'. eexists. split; [exact Hrun|].
  assert (N4 : index_path script_dir <> blog_json_path_of script_dir blog_id)
    by apply index_not_blog_json.
  split; [unfold index_file; cbn [Os.fs]; now rewrite lookup_insert_eq|].
  split; [cbn [Os.fs]; now rewrite lookup_insert_ne, lookup_insert_eq by auto|].
  repeat split; auto.
  - now apply sorted_desc_dates.
  - now rewrite Hids.
Qed.

Lemma image_update_index_witness :
  exists w' l' b',
    update_blog_image Sample.root "a" "/tmp/cover.png" Demo.with_cover
      = (Os.Return true, w') /\
    index_file Sample.root w' = Some l' /\
    Os.fs w' !! blog_json_path_of Sample.root "a"
      = Some (Os.File (Os.BlogDoc b')) /\
    Index.ids l' = ["b"; "a"]%string /\
    map Entry.publishedDate l' = ["2024-06-01"; "2024-01-01"]%string /\
    Index.without_id "a" l' = [entry_of Sample.post_b] /\
    (Index.sorted_desc [entry_of Sample.post_b; entry_of Sample.post_a] ->
     Index.sorted_desc l') /\
    (NoDup (Index.ids [entry_of Sample.post_b; entry_of Sample.post_a]) ->
     NoDup (Index.ids l')) /\
    (Index.has_id "a" [entry_of Sample.post_b; entry_of Sample.post_a] = true ->
     exists e, In e l' /\ Entry.id e = "a"%string /\
               Entry.coverImage e = Blog.image b').
Proof.
  apply (image_update_index Sample.root "a" "/tmp/cover.png" Demo.with_cover
           Os.Dir (Os.Raw [Byte.x78]) (blog_of Sample.post_a)
           [entry_of Sample.post_b; entry_of Sample.post_a]);
    try (vm_compute; reflexivity); vm_compute; discriminate.
Defined.

(** X3.  When the post directory is there, [blog.json] is absent and the
    index lists no entry of the id, the update still returns [True]: the
    image is copied, the index file is written back with the same list,
    and no [blog.json] is created.  (With an entry of the id it raises
    instead, see C9.) *)
Theorem image_update_unlisted (script_dir blog_id image_path : string)
    (w : Os.world) (img : Os.content) (l : list Entry.t) :
  let dest :=
    Path.join (blog_dir_of script_dir blog_id) (Path.basename image_path) in
  Os.fs w !! blog_dir_of script_dir blog_id = Some Os.Dir ->
  Os.fs w !! image_path = Some (Os.File img) ->
  Os.fs w !! blog_json_path_of script_dir blog_id = None ->
  Os.fs w !! index_path script_dir = Some (Os.File (Os.IndexDoc l)) ->
  Index.has_id blog_id l = false ->
  Os.fs w !! dest <> Some Os.Dir ->
  image_path <> dest ->
  dest <> blog_json_path_of script_dir blog_id ->
  dest <> index_path script_dir ->
  exists w',
    update_blog_image script_dir blog_id image_path w = (Os.Return true, w') /\
    Os.fs w' = <[dest := Os.File img]> (Os.fs w) /\
    index_file script_dir w' = Some l /\
    Os.fs w' !! blog_json_path_of script_dir blog_id = None.
Proof.
  intros dest Hbd Himg Hbj Hip Hid Hdest N1 N2 N3.
  unfold update_blog_image.
  rewrite (bind_return _ _ _ _ _ (path_exists_some _ _ _ Hbd)). cbn [negb].
  rewrite (bind_return _ _ _ _ _ (path_exists_some _ _ _ Himg)). cbn [negb].
  fold dest.
  rewrite (bind_return _ _ _ _ _ (copy2_ok _ _ _ _ Himg Hdest N1)).
  change (Path.join (blog_dir_of script_dir blog_id) "blog.json")
    with (blog_json_path_of script_dir blog_id).
  set (w1 := Os.set_fs (<[dest := Os.File img]> (Os.fs w)) w).
  assert (Hbj1 : Os.fs w1 !! blog_json_path_of script_dir blog_id = None)
    by (subst w1; cbn [Os.fs Os.set_fs]; now rewrite lookup_insert_ne).
  assert (Hip1 : Os.fs w1 !! index_path script_dir
                 = Some (Os.File (Os.IndexDoc l)))
    by (subst w1; cbn [Os.fs Os.set_fs]; now rewrite lookup_insert_ne).
  rewrite (bind_return _ _ _ _ _ (path_exists_none _ _ Hbj1)).
  unfold Os.bind at 1, Os.ret at 1.
  rewrite (bind_return _ _ _ _ _ (path_exists_some _ _ _ Hip1)).
  unfold Os.bind at 1. unfold Os.bind at 1.
  rewrite (load_index_ok _ _ _ Hip1), (set_cover_absent _ _ _ Hid).
  rewrite (write_file_ok _ _ w1) by (rewrite Hip1; discriminate).
  eexists. split; [reflexivity|]. cbn [Os.fs Os.set_fs].
  split; [apply insert_id; now rewrite lookup_insert_ne|].
  split; [unfold index_file; cbn [Os.fs]; now rewrite lookup_insert_eq|].
  rewrite lookup_insert_ne by apply index_not_blog_json.
  exact Hbj1.
Qed.

Lemma image_update_unlisted_witness :
  exists w',
    update_blog_image Sample.root "c" "/tmp/cover.png" Demo.unlisted
      = (Os.Return true, w') /\
    Os.fs w' = <["/repo/Blogs/allBlogs/c/cover.png"%string := Os.File (Os.Raw [])]>
                 (Os.fs Demo.unlisted) /\
    index_file Sample.root w' = Some [entry_of Sample.post_a] /\
    Os.fs w' !! blog_json_path_of Sample.root "c" = None.
Proof.
  apply (image_update_unlisted Sample.root "c" "/tmp/cover.png" Demo.unlisted
           (Os.Raw []) [entry_of Sample.post_a]);
    try (vm_compute; reflexivity); vm_compute; discriminate.
Defined.

(** X4.  A directory given as the image passes the existence check, and
    the copy then fails: the update raises, the script ends with status
    1, and neither a file nor the output has changed. *)
Theorem image_update_directory (script_dir blog_id image_path : string)
    (w : Os.world) (n : Os.node) :
  Os.fs w !! blog_dir_of script_dir blog_id = Some n ->
  Os.fs w !! image_path = Some Os.Dir ->
  exists e,
    (e = Os.IsADirectoryError \/ e = Os.SameFileError) /\
    update_blog_image script_dir blog_id image_path w = (Os.Raise e, w) /\
    Os.exit_status (fst (image_main script_dir blog_id image_path w)) = 1.
Proof.
  intros Hbd Himg.
  assert (Hu : exists e,
             (e = Os.IsADirectoryError \/ e = Os.SameFileError) /\
             update_blog_image script_dir blog_id image_path w
             = (Os.Raise e, w)).
  { unfold update_blog_image.
    rewrite (bind_return _ _ _ _ _ (path_exists_some _ _ _ Hbd)). cbn [negb].
    rewrite (bind_return _ _ _ _ _ (path_exists_some _ _ _ Himg)). cbn [negb].
    unfold Os.bind at 1, Os.copy2.
    destruct (String.eqb image_path _).
    - exists Os.SameFileError. auto.
    - unfold Os.bind, Os.read_file. rewrite Himg.
      exists Os.IsADirectoryError. auto. }
  destruct Hu as (e & He & Hu). exists e. split; [exact He|].
  split; [exact Hu|]. unfold image_main, Os.bind. rewrite Hu.
  destruct He as [-> | ->]; reflexivity.
Qed.

Lemma image_update_directory_witness :
  exists e,
    (e = Os.IsADirectoryError \/ e = Os.SameFileError) /\
    update_blog_image Sample.root "a" "/tmp/pics" Demo.with_folder
      = (Os.Raise e, Demo.with_folder) /\
    Os.exit_status
      (fst (image_main Sample.root "a" "/tmp/pics" Demo.with_folder)) = 1.
Proof.
  apply (image_update_directory Sample.root "a" "/tmp/pics" Demo.with_folder
           Os.Dir); vm_compute; reflexivity.
Defined.

(** X5.  An image that already lies in the post directory under its own
    name cannot be attached again: source and destination of the copy
    are the same file, the update raises [SameFileError] before
    [blog.json] or the index is looked at, and nothing has changed. *)
Theorem image_update_same_file (script_dir blog_id image_path : string)
    (w : Os.world) (n : Os.node) (img : Os.content) :
  Os.fs w !! blog_dir_of script_dir blog_id = Some n ->
  Os.fs w !! image_path = Some (Os.File img) ->
  Path.join (blog_dir_of script_dir blog_id) (Path.basename image_path)
    = image_path ->
  update_blog_image script_dir blog_id image_path w
    = (Os.Raise Os.SameFileError, w) /\
  Os.exit_status (fst (image_main script_dir blog_id image_path w)) = 1.
Proof.
  intros Hbd Himg Hsame.
  assert (Hu : update_blog_image script_dir blog_id image_path w
               = (Os.Raise Os.SameFileError, w)).
  { unfold update_blog_image.
    rewrite (bind_return _ _ _ _ _ (path_exists_some _ _ _ Hbd)). cbn [negb].
    rewrite (bind_return _ _ _ _ _ (path_exists_some _ _ _ Himg)). cbn [negb].
    unfold Os.bind at 1, Os.copy2. rewrite Hsame, Himg.
    now rewrite String.eqb_refl. }
  split; [exact Hu|]. unfold image_main, Os.bind. now rewrite Hu.
Qed.

Lemma image_update_same_file_witness :
  update_blog_image Sample.root "a" "/repo/Blogs/allBlogs/a/cover.png"
    Demo.attached
    = (Os.Raise Os.SameFileError, Demo.attached) /\
  Os.exit_status
    (fst (image_main Sample.root "a" "/repo/Blogs/allBlogs/a/cover.png"
            Demo.attached)) = 1.
Proof.
  apply (image_update_same_file Sample.root "a"
           "/repo/Blogs/allBlogs/a/cover.png" Demo.attached
           Os.Dir (Os.Raw [Byte.x78])); vm_compute; reflexivity.
Defined.

(* ===================================================================== *)
(** * Further properties of the upsert                                    *)
(* ===================================================================== *)

(** X6.  When some SVG file exists below [allBlogs] and the id is a
    single path component, every upsert that returns has left a file at
    the place of the record's placeholder image: it holds the content of
    an SVG file that existed below [allBlogs] before, and nothing
    exactly when that file was the placeholder itself.  (The id is asked
    to be a component so that the path of the placeholder is the string
    under which the walk reports that file.) *)
Theorem upsert_places_image (script_dir : string) (c : call)
    (w w' : Os.world) (i svg : string) (data : Os.content) :
  invoke script_dir c w = (Os.Return i, w') ->
  Path.component (Post.id (record_of c)) = true ->
  Os.fs w !! svg = Some (Os.File data) ->
  Path.starts_with (all_blogs_dir script_dir +:+ "/") svg = true ->
  Path.ends_with ".svg" (Path.basename svg) = true ->
  exists src d,
    Os.fs w !! src = Some (Os.File d) /\
    Path.starts_with (all_blogs_dir script_dir +:+ "/") src = true /\
    Path.ends_with ".svg" (Path.basename src) = true /\
    Os.fs w' !! placeholder_path_of script_dir (record_of c)
      = Some (Os.File
                (if decide (src = placeholder_path_of script_dir (record_of c))
                 then Os.Raw [] else d)).
Proof.
  intros E _ Hsvg Hpre Hend. rewrite invoke_upsert in E.
  set (r := record_of c) in *.
  apply upsert_returns in E as (_ & _ & _ & l & f2 & _ & -> & Hcases).
  destruct Hcases as [[Hno _]|(src & d & Hd & Hp & He & ->)].
  { rewrite (Hno _ _ Hsvg Hpre) in Hend. discriminate. }
  exists src, d. split; [exact Hd|]. split; [exact Hp|]. split; [exact He|].
  cbn [Os.fs Os.set_fs].
  rewrite lookup_insert_ne by apply index_not_dest.
  rewrite lookup_insert_ne by apply blog_json_not_dest.
  apply lookup_insert_eq.
Qed.

Lemma upsert_places_image_witness :
  exists src d,
    Os.fs Demo2.with_image !! src = Some (Os.File d) /\
    Path.starts_with (all_blogs_dir Sample.root +:+ "/") src = true /\
    Path.ends_with ".svg" (Path.basename src) = true /\
    Os.fs (run_call Sample.root (AddManual Sample.post_b) Demo2.with_image)
      !! placeholder_path_of Sample.root Sample.post_b
      = Some (Os.File
                (if decide (src = placeholder_path_of Sample.root Sample.post_b)
                 then Os.Raw [] else d)).
Proof.
  apply (upsert_places_image Sample.root (AddManual Sample.post_b)
           Demo2.with_image
           (run_call Sample.root (AddManual Sample.post_b) Demo2.with_image)
           "b" "/repo/Blogs/allBlogs/a/aws.svg" (Os.Raw [Byte.x3c]));
    vm_compute; reflexivity.
Defined.

(** X7.  When the record's own placeholder is the only SVG file below
    [allBlogs], upserting the record again empties it: the file found by
    the walk is the destination of the copy, and the destination is
    opened for writing before the source is read. *)
Theorem upsert_empties_own_image (script_dir : string) (c : call)
    (w : Os.world) (l : list Entry.t) (data : Os.content) :
  let own := placeholder_path_of script_dir (record_of c) in
  writable script_dir w (record_of c) ->
  loaded_index script_dir w = Some l ->
  Path.has_sep (Post.id (record_of c)) = false ->
  Os.fs w !! own = Some (Os.File data) ->
  (forall p d, Os.fs w !! p = Some (Os.File d) ->
     Path.starts_with (all_blogs_dir script_dir +:+ "/") p = true ->
     Path.ends_with ".svg" (Path.basename p) = true -> p = own) ->
  exists w',
    invoke script_dir c w = (Os.Return (Post.id (record_of c)), w') /\
    Os.fs w' !! own = Some (Os.File (Os.Raw [])).
Proof.
  intros own Hw Hl Hid Hown Honly. rewrite invoke_upsert.
  set (r := record_of c) in *.
  destruct (upsert_full script_dir w r l Hw Hl) as (f2 & E & Hcases).
  destruct Hcases as [[Hno _]|(src & d & Hd & Hp & He & ->)].
  { pose proof (placeholder_is_svg script_dir r) as H.
    pose proof (Hno _ _ Hown (placeholder_below script_dir r Hid)) as H'.
    unfold own in *. congruence. }
  eexists. split; [exact E|]. cbn [Os.fs Os.set_fs].
  rewrite lookup_insert_ne by apply index_not_dest.
  rewrite lookup_insert_ne by apply blog_json_not_dest.
  fold own. rewrite (Honly src d Hd Hp He).
  rewrite lookup_insert_eq. now rewrite decide_True.
Qed.

Lemma upsert_empties_own_image_witness :
  exists w',
    invoke Sample.root (AddManual Sample.post_a) Demo2.with_image
      = (Os.Return "a"%string, w') /\
    Os.fs w' !! "/repo/Blogs/allBlogs/a/aws.svg"%string
      = Some (Os.File (Os.Raw [])).
Proof.
  apply (upsert_empties_own_image Sample.root (AddManual Sample.post_a)
           Demo2.with_image [entry_of Sample.post_b; entry_of Sample.post_a]
           (Os.Raw [Byte.x3c])); try (vm_compute; reflexivity).
  - repeat split; try (vm_compute; reflexivity). vm_compute. discriminate.
  - intros p d Hp Hpre Hend.
    assert (Hin : In p (Os.walk_files (all_blogs_dir Sample.root)
                          Demo2.with_image)).
    { apply (proj2 (walk_files_spec _ _ _)).
      split; [exists d; exact Hp | exact Hpre]. }
    clear Hp Hpre. revert Hin Hend. vm_compute.
    intros [<-|[<-|[<-|[]]]] Hend; try reflexivity; discriminate.
Defined.

(** X8.  Without SVG files below [allBlogs] and with at most one index
    entry per id, the upsert is idempotent on the whole state: when a
    run has returned, running it again on the state it left returns
    again and changes nothing, neither a file nor a directory. *)
Theorem upsert_again_changes_nothing (script_dir : string) (c : call)
    (w w1 : Os.world) (i : string) :
  invoke script_dir c w = (Os.Return i, w1) ->
  (forall l, index_file script_dir w = Some l -> NoDup (Index.ids l)) ->
  no_svg script_dir w ->
  invoke script_dir c w1 = (Os.Return i, w1).
Proof.
  intros E Hnd Hno. rewrite invoke_upsert in *.
  set (r := record_of c) in *.
  apply no_svg_spec in Hno.
  assert (N1 : index_path script_dir <> blog_json_path_of script_dir (Post.id r))
    by apply index_not_blog_json.
  assert (N2 : blog_json_path_of script_dir (Post.id r)
               <> blog_dir_of script_dir (Post.id r))
    by apply blog_json_not_blog_dir.
  pose proof (upsert_returns_index script_dir r w i w1 E) as (_ & l1 & Hl1 & I1).
  apply upsert_returns in E as (-> & Hnf & N3 & l & f2 & Hl & -> & Hcases).
  rewrite Hl in Hl1. injection Hl1 as <-.
  destruct Hcases as [[_ ->]|(src & d & Hd & Hp & He & _)];
    [|rewrite (Hno _ _ Hd Hp) in He; discriminate].
  assert (Hndl : NoDup (Index.ids l)).
  { destruct (loaded_index_file script_dir w l Hl) as [H|[_ ->]];
      [now apply Hnd | constructor]. }
  set (l1 := Index.sort_desc (Index.replace_or_append (entry_of r) l)) in *.
  set (F1 := <[index_path script_dir := Os.File (Os.IndexDoc l1)]>
               (<[blog_json_path_of script_dir (Post.id r)
                  := Os.File (Os.BlogDoc (blog_of r))]>
                  (<[blog_dir_of script_dir (Post.id r) := Os.Dir]> (Os.fs w))))
    in *.
  assert (Hl1 : loaded_index script_dir (Os.set_fs F1 w) = Some l1)
    by now apply index_file_loaded.
  assert (Hnd1 : NoDup (Index.ids l1))
    by now apply sort_desc_nodup, replace_or_append_nodup.
  assert (Hin1 : In (entry_of r) l1).
  { eapply Permutation_in;
      [symmetry; apply sort_desc_perm | apply replace_or_append_in]. }
  assert (Hfix : Index.sort_desc (Index.replace_or_append (entry_of r) l1)
                 = l1).
  { rewrite (replace_or_append_same (entry_of r) l1 Hnd1 Hin1).
    apply sort_desc_fixed, sort_desc_sorted. }
  assert (Hbd : F1 !! blog_dir_of script_dir (Post.id r) = Some Os.Dir)
    by (subst F1; rewrite !lookup_insert_ne by auto; apply lookup_insert_eq).
  assert (Hbj : F1 !! blog_json_path_of script_dir (Post.id r)
                = Some (Os.File (Os.BlogDoc (blog_of r))))
    by (subst F1; rewrite lookup_insert_ne by auto; apply lookup_insert_eq).
  assert (Hno1 : no_svg_below script_dir (Os.set_fs F1 w)).
  { intros p d Hd Hp. cbn [Os.fs Os.set_fs] in Hd.
    destruct (Path.ends_with ".svg" (Path.basename p)) eqn:He; [|reflexivity].
    exfalso. pose proof (ends_with_basename _ _ He) as Hs.
    subst F1.
    rewrite lookup_insert_ne in Hd
      by (intros H; rewrite <- H, ends_with_svg_index in Hs; discriminate).
    rewrite lookup_insert_ne in Hd
      by (intros H; unfold blog_json_path_of in H;
          rewrite <- H, ends_with_svg_blog_json in Hs; discriminate).
    destruct (decide (blog_dir_of script_dir (Post.id r) = p)) as [<-|Hn].
    + rewrite lookup_insert_eq in Hd. discriminate.
    + rewrite lookup_insert_ne in Hd by auto.
      rewrite (Hno _ _ Hd Hp) in He. discriminate. }
  rewrite (upsert_no_svg script_dir (Os.set_fs F1 w) r l1 Hno1).
  - rewrite Hfix. f_equal.
    cbn [Os.fs Os.set_fs]. unfold Os.set_fs. cbn [Os.stdout]. f_equal.
    rewrite (insert_id F1 _ _ Hbd), (insert_id F1 _ _ Hbj).
    apply insert_id. subst F1. apply lookup_insert_eq.
  - intros c0. cbn [Os.fs Os.set_fs]. rewrite Hbd. discriminate.
  - exact N3.
  - cbn [Os.fs Os.set_fs]. rewrite Hbj. discriminate.
  - exact Hl1.
Qed.

Lemma upsert_again_changes_nothing_witness :
  invoke Sample.root (AddManual Sample.post_a)
    (run_call Sample.root (AddManual Sample.post_a) Sample.two_posts)
    = (Os.Return "a"%string,
       run_call Sample.root (AddManual Sample.post_a) Sample.two_posts).
Proof.
  apply (upsert_again_changes_nothing Sample.root (AddManual Sample.post_a)
           Sample.two_posts
           (run_call Sample.root (AddManual Sample.post_a) Sample.two_posts)
           "a").
  - vm_compute. reflexivity.
  - intros l. vm_compute. intros [= <-].
    apply (bool_decide_unpack _). vm_compute. reflexivity.
  - vm_compute. reflexivity.
Defined.

Section Confinement.
Import Os.
Variable script_dir : string.

Lemma file_at_same w w' p : fs w' !! p = fs w !! p -> file_at w' p = file_at w p.
Proof. unfold file_at. now intros ->. Qed.

Lemma slug_is_component s :
  Slug.slugify s = ""%string \/ Path.component (Slug.slugify s) = true.
Proof.
  pose proof (pipeline_is_slug (Slug.chars s)) as Hs.
  pose proof (slugify_no_sep s) as Hn.
  unfold Slug.slugify in *. rewrite slugify_chars_pipeline in *.
  set (l := SlugSpec.pipeline SlugSpec.kept_in_code (Slug.chars s)) in *.
  unfold Path.component. rewrite Hn. cbn [negb andb].
  destruct l as [|c1 [|c2 [|c3 l]]]; [now left | right .. ].
  - destruct (Ascii.eqb c1 ".") eqn:E.
    + apply Ascii.eqb_eq in E. subst c1. discriminate.
    + cbn. rewrite E. reflexivity.
  - destruct (Ascii.eqb c1 ".") eqn:E.
    + apply Ascii.eqb_eq in E. subst c1. discriminate.
    + cbn. rewrite E. reflexivity.
  - destruct (Ascii.eqb c1 ".") eqn:E.
    + apply Ascii.eqb_eq in E. subst c1. discriminate.
    + cbn. rewrite E. reflexivity.
Qed.

End Confinement.

(** X9.  An upsert whose id is a single path component writes no file
    but the index, and the metadata file and the placeholder image in
    the post's own directory [allBlogs/<id>]: whether the run returns or
    raises, every other path holds the same file, or no file, after the
    run as before.  The id that the URL importer derives from a title is
    such a component, unless it is empty. *)
Theorem upsert_confined (script_dir : string) :
  (forall (c : call) (w : Os.world) (p : string),
      Path.component (Post.id (record_of c)) = true ->
      Os.file_at (run_call script_dir c w) p <> Os.file_at w p ->
      p = index_path script_dir \/
      p = all_blogs_dir script_dir +:+ "/" +:+ Post.id (record_of c)
            +:+ "/blog.json" \/
      p = all_blogs_dir script_dir +:+ "/" +:+ Post.id (record_of c) +:+ "/"
            +:+ Slug.slugify (Post.category (record_of c)) +:+ ".svg") /\
  (forall s : string,
      Slug.slugify s = ""%string \/ Path.component (Slug.slugify s) = true).
Proof.
  split; [|apply slug_is_component].
  intros c w p Hc Hch. unfold run_call in Hch. rewrite invoke_upsert in Hch.
  set (r := record_of c) in *.
  destruct (component_paths script_dir r Hc) as (Hbd & Hbj & Hdest & Hne).
  rewrite <- Hbj, <- Hdest.
  destruct (decide (p = index_path script_dir)) as [->|N1]; [now left|].
  destruct (decide (p = blog_json_path_of script_dir (Post.id r))) as [->|N2];
    [right; now left|].
  destruct (decide (p = placeholder_path_of script_dir r)) as [->|N3];
    [right; now right|].
  exfalso. apply Hch.
  destruct (decide (p = blog_dir_of script_dir (Post.id r))) as [->|N4].
  - now apply upsert_keeps_post_dir.
  - apply file_at_same, upsert_touches.
    intros [H|[H|[H|H]]]; contradiction.
Qed.

Lemma upsert_confined_witness :
  blog_json_path_of Sample.root "b" = index_path Sample.root \/
  blog_json_path_of Sample.root "b"
    = all_blogs_dir Sample.root +:+ "/" +:+ "b" +:+ "/blog.json" \/
  blog_json_path_of Sample.root "b"
    = all_blogs_dir Sample.root +:+ "/" +:+ "b" +:+ "/"
        +:+ Slug.slugify "AWS" +:+ ".svg".
Proof.
  apply (proj1 (upsert_confined Sample.root) (AddManual Sample.post_b)
           (run_calls Sample.root [AddManual Sample.post_a] Sample.nothing)
           (blog_json_path_of Sample.root "b")).
  - reflexivity.
  - vm_compute. discriminate.
Defined.

(* ===================================================================== *)
(** * Further properties of the index order                               *)
(* ===================================================================== *)

Section DateOrder.

Lemma leb_cases a b : String.leb a b = true <-> String.ltb a b = true \/ a = b.
Proof.
  unfold String.leb, String.ltb. split.
  - destruct (String.compare a b) eqn:E; intros H; try discriminate; auto.
    right. now apply String.compare_eq_iff.
  - intros [H| ->].
    + now destruct (String.compare a b).
    + assert (E : String.compare b b = Eq)
        by (apply OrderedTypeEx.String_as_OT.cmp_eq; reflexivity).
      now rewrite E.
Qed.

Lemma ltb_trans a b c :
  String.ltb a b = true -> String.ltb b c = true -> String.ltb a c = true.
Proof.
  unfold String.ltb. intros H1 H2.
  assert (L1 : String.compare a b = Lt) by now destruct (String.compare a b).
  assert (L2 : String.compare b c = Lt) by now destruct (String.compare b c).
  apply OrderedTypeEx.String_as_OT.cmp_lt in L1, L2.
  pose proof (OrderedTypeEx.String_as_OT.lt_trans _ _ _ L1 L2) as L.
  apply OrderedTypeEx.String_as_OT.cmp_lt in L.
  unfold OrderedTypeEx.String_as_OT.cmp in L. now rewrite L.
Qed.

Lemma leb_trans a b c :
  String.leb a b = true -> String.leb b c = true -> String.leb a c = true.
Proof.
  intros H1 H2. apply leb_cases in H1, H2. apply leb_cases.
  destruct H1 as [H1| ->], H2 as [H2| ->]; auto.
  left. eapply ltb_trans; eauto.
Qed.

Lemma date_ge_trans : Relations_1.Transitive Index.date_ge.
Proof.
  intros a b c Hab Hbc. unfold Index.date_ge in *. eapply leb_trans; eauto.
Qed.

Lemma sorted_desc_strong l :
  Index.sorted_desc l -> StronglySorted Index.date_ge l.
Proof. apply Sorted_StronglySorted, date_ge_trans. Qed.

Lemma strongly_sorted_nth (l : list Entry.t) :
  StronglySorted Index.date_ge l ->
  forall i j a b, i < j -> nth_error l i = Some a -> nth_error l j = Some b ->
                  Index.date_ge a b.
Proof.
  induction 1 as [|x l Hs IH Hall]; intros i j a b Hij Ha Hb.
  - destruct i; discriminate.
  - destruct j as [|j]; [lia|]. cbn in Hb. destruct i as [|i].
    + cbn in Ha. injection Ha as <-.
      rewrite List.Forall_forall in Hall. apply Hall.
      eapply nth_error_In; eauto.
    + cbn in Ha. apply (IH i j); auto. lia.
Qed.

Lemma replace_or_append_new e l :
  Index.has_id (Entry.id e) l = false ->
  Index.replace_or_append e l = l ++ [e].
Proof.
  unfold Index.has_id. induction l as [|x l IH]; [reflexivity|].
  cbn [existsb Index.replace_or_append app].
  destruct (String.eqb (Entry.id x) (Entry.id e)); [discriminate|].
  cbn [orb]. intros H. now rewrite IH.
Qed.

Lemma sort_desc_app l e :
  Index.sort_desc (l ++ [e]) = fold_right Index.insert_desc [e] l.
Proof. unfold Index.sort_desc. now rewrite fold_right_app. Qed.

Lemma insert_desc_head x l :
  HdRel Index.date_ge x l -> Index.insert_desc x l = x :: l.
Proof.
  destruct l as [|y l]; [reflexivity|].
  intros H. inversion H as [|? ? Hge]; subst. cbn.
  now rewrite (leb_ltb_false _ _ Hge).
Qed.

(** A stable sort puts a new last element behind the entries that are
    not older and before the older ones. *)
Lemma sort_desc_new_last l e :
  Index.sorted_desc l ->
  exists l1 l2,
    l = l1 ++ l2 /\
    fold_right Index.insert_desc [e] l = l1 ++ e :: l2 /\
    Forall (fun x => String.leb (Entry.publishedDate e)
                       (Entry.publishedDate x) = true) l1 /\
    Forall (fun x => String.ltb (Entry.publishedDate x)
                       (Entry.publishedDate e) = true) l2.
Proof.
  unfold Index.sorted_desc.
  induction l as [|x l IH]; intros Hs.
  - exists [], []. repeat split; constructor.
  - inversion Hs as [|? ? Hl Hhd]; subst.
    destruct (IH Hl) as (l1 & l2 & -> & HF & H1 & H2).
    cbn [fold_right]. rewrite HF.
    destruct l1 as [|y l1].
    + cbn [app] in *. cbn [Index.insert_desc].
      destruct (String.ltb (Entry.publishedDate x) (Entry.publishedDate e))
        eqn:Hlt.
      * exists [], (x :: l2). rewrite (insert_desc_head x l2 Hhd).
        repeat split; auto.
      * exists [x], l2. repeat split; auto.
        constructor; [now apply ltb_false_leb | constructor].
    + exists (x :: y :: l1), l2.
      inversion Hhd as [|? ? Hge]; subst.
      inversion H1 as [|? ? Hy H1']; subst.
      assert (Hx : String.leb (Entry.publishedDate e) (Entry.publishedDate x)
                   = true) by (eapply leb_trans; eauto).
      split; [reflexivity|]. split.
      * cbn [app Index.insert_desc]. now rewrite (leb_ltb_false _ _ Hge).
      * split; [constructor; assumption | assumption].
Qed.

Lemma replace_or_append_dates e l :
  (forall old, In old l -> Entry.id old = Entry.id e ->
               Entry.publishedDate old = Entry.publishedDate e) ->
  Index.has_id (Entry.id e) l = true ->
  map Entry.publishedDate (Index.replace_or_append e l)
  = map Entry.publishedDate l.
Proof.
  unfold Index.has_id. induction l as [|x l IH]; [discriminate|].
  intros Hsame. cbn [existsb Index.replace_or_append].
  destruct (String.eqb (Entry.id x) (Entry.id e)) eqn:E.
  - intros _. cbn. f_equal. symmetry. apply Hsame; [now left|].
    now apply String.eqb_eq.
  - cbn [orb]. intros H. cbn. f_equal. apply IH; auto.
    intros old Hin. apply Hsame. now right.
Qed.

End DateOrder.

(** X10.  After every upsert that returns, the index is ordered as a
    whole, not only between neighbours: an entry listed before another
    never has the smaller date, so the first entry is a newest one. *)
Theorem index_pairwise_ordered (script_dir : string) (c : call)
    (w w' : Os.world) (id : string) :
  invoke script_dir c w = (Os.Return id, w') ->
  exists l,
    index_file script_dir w' = Some l /\
    forall i j a b,
      i < j -> nth_error l i = Some a -> nth_error l j = Some b ->
      String.leb (Entry.publishedDate b) (Entry.publishedDate a) = true.
Proof.
  intros E. rewrite invoke_upsert in E.
  pose proof (upsert_effect script_dir (record_of c) w) as He.
  unfold index_effect in He. rewrite E in He. simpl in He.
  destruct He as (l0 & _ & Hres).
  eexists. split; [exact Hres|].
  apply strongly_sorted_nth, sorted_desc_strong, sort_desc_sorted.
Qed.

Lemma index_pairwise_ordered_witness :
  exists l,
    index_file Sample.root Sample.two_posts = Some l /\
    forall i j a b,
      i < j -> nth_error l i = Some a -> nth_error l j = Some b ->
      String.leb (Entry.publishedDate b) (Entry.publishedDate a) = true.
Proof.
  apply (index_pairwise_ordered Sample.root (AddManual Sample.post_b)
           (run_calls Sample.root [AddManual Sample.post_a] Sample.nothing)
           Sample.two_posts "b"%string).
  vm_compute. reflexivity.
Defined.

(** X11.  When an upsert of a record with a new id returns and the index
    it loaded was sorted, the record's entry stands behind all entries
    with the same or a later date and before all entries with an earlier
    date; the other entries keep their order. *)
Theorem upsert_new_entry_position (script_dir : string) (c : call)
    (w w' : Os.world) (i : string) (l : list Entry.t) :
  invoke script_dir c w = (Os.Return i, w') ->
  loaded_index script_dir w = Some l ->
  Index.sorted_desc l ->
  Index.has_id (Post.id (record_of c)) l = false ->
  exists l1 l2,
    l = l1 ++ l2 /\
    index_file script_dir w' = Some (l1 ++ entry_of (record_of c) :: l2) /\
    Forall (fun x => String.leb (Post.publishedDate (record_of c))
                       (Entry.publishedDate x) = true) l1 /\
    Forall (fun x => String.ltb (Entry.publishedDate x)
                       (Post.publishedDate (record_of c)) = true) l2.
Proof.
  intros E Hl Hs Hid. rewrite invoke_upsert in E.
  apply upsert_returns_index in E as (_ & l0 & Hl0 & I).
  rewrite Hl in Hl0. injection Hl0 as <-.
  destruct (sort_desc_new_last l (entry_of (record_of c)) Hs)
    as (l1 & l2 & Hsplit & HF & H1 & H2).
  exists l1, l2. split; [exact Hsplit|].
  split; [|split; assumption].
  rewrite I, replace_or_append_new by exact Hid.
  now rewrite sort_desc_app, HF.
Qed.

Lemma upsert_new_entry_position_witness :
  exists l1 l2,
    [entry_of Sample.post_b; entry_of Sample.post_a] = l1 ++ l2 /\
    index_file Sample.root
      (run_call Sample.root (AddManual Demo3.post_c) Sample.two_posts)
      = Some (l1 ++ entry_of Demo3.post_c :: l2) /\
    Forall (fun x => String.leb "2024-06-01" (Entry.publishedDate x) = true) l1 /\
    Forall (fun x => String.ltb (Entry.publishedDate x) "2024-06-01" = true) l2.
Proof.
  apply (upsert_new_entry_position Sample.root (AddManual Demo3.post_c)
           Sample.two_posts
           (run_call Sample.root (AddManual Demo3.post_c) Sample.two_posts)
           "c" [entry_of Sample.post_b; entry_of Sample.post_a]).
  - vm_compute. reflexivity.
  - vm_compute. reflexivity.
  - repeat constructor.
  - vm_compute. reflexivity.
Defined.

(** X12.  When an upsert of a record returns, the index it loaded was
    sorted and listed the record's id with the same date, the entry is
    replaced where it stands: no entry changes its place. *)
Theorem upsert_same_date_in_place (script_dir : string) (c : call)
    (w w' : Os.world) (i : string) (l : list Entry.t) :
  invoke script_dir c w = (Os.Return i, w') ->
  loaded_index script_dir w = Some l ->
  Index.sorted_desc l ->
  Index.has_id (Post.id (record_of c)) l = true ->
  (forall old, In old l -> Entry.id old = Post.id (record_of c) ->
               Entry.publishedDate old = Post.publishedDate (record_of c)) ->
  exists l',
    index_file script_dir w' = Some l' /\
    l' = Index.replace_or_append (entry_of (record_of c)) l /\
    Index.ids l' = Index.ids l /\
    map Entry.publishedDate l' = map Entry.publishedDate l.
Proof.
  intros E Hl Hs Hid Hsame. rewrite invoke_upsert in E.
  apply upsert_returns_index in E as (_ & l0 & Hl0 & I).
  rewrite Hl in Hl0. injection Hl0 as <-.
  assert (Hd : map Entry.publishedDate
                 (Index.replace_or_append (entry_of (record_of c)) l)
               = map Entry.publishedDate l)
    by now apply replace_or_append_dates.
  exists (Index.replace_or_append (entry_of (record_of c)) l).
  split.
  - rewrite I. f_equal. apply sort_desc_fixed.
    eapply sorted_desc_dates; eauto.
  - split; [reflexivity|]. split; [|exact Hd].
    rewrite replace_or_append_ids.
    change (Entry.id (entry_of (record_of c))) with (Post.id (record_of c)).
    now rewrite Hid.
Qed.

Lemma upsert_same_date_in_place_witness :
  exists l',
    index_file Sample.root
      (run_call Sample.root (AddManual Demo3.post_a_edited) Sample.two_posts)
      = Some l' /\
    l' = Index.replace_or_append (entry_of Demo3.post_a_edited)
           [entry_of Sample.post_b; entry_of Sample.post_a] /\
    Index.ids l' = ["b"; "a"]%string /\
    map Entry.publishedDate l' = ["2024-06-01"; "2024-01-01"]%string.
Proof.
  apply (upsert_same_date_in_place Sample.root (AddManual Demo3.post_a_edited)
           Sample.two_posts
           (run_call Sample.root (AddManual Demo3.post_a_edited)
              Sample.two_posts)
           "a" [entry_of Sample.post_b; entry_of Sample.post_a]).
  - vm_compute. reflexivity.
  - vm_compute. reflexivity.
  - repeat constructor.
  - vm_compute. reflexivity.
  - intros old [<-|[<-|[]]]; [discriminate | reflexivity].
Defined.

(* ===================================================================== *)
(** * Further properties of slug generation                               *)
(* ===================================================================== *)

Section SlugResults.
Import Chars Slug SlugSpec.

Local Ltac each_char c :=
  destruct c as [[] [] [] [] [] [] [] []]; vm_compute;
  try reflexivity; try discriminate; intros; try discriminate; auto.

Lemma lower_char_alnum c : is_alnum (lower_char c) = is_alnum c.
Proof. each_char c. Qed.

Lemma alnum_kept c : is_alnum c = true -> kept_in_code c = true.
Proof. each_char c. Qed.

Lemma alnum_not_separator c : is_alnum c = true -> is_separator c = false.
Proof. each_char c. Qed.

Lemma kept_separator c :
  kept_in_code c = true -> is_alnum c = false -> is_separator c = true.
Proof. each_char c. Qed.

Lemma text_empty l : text l = ""%string -> l = [].
Proof. intros H. apply (f_equal chars) in H. now rewrite chars_text in H. Qed.

Lemma in_drop_while p x l :
  In x l -> p x = false -> In x (drop_while p l).
Proof.
  intros Hin Hx. induction l as [|c l IH]; [contradiction|].
  cbn [drop_while]. destruct (p c) eqn:Hc; [|exact Hin].
  destruct Hin as [->|Hin]; [congruence | now apply IH].
Qed.

Lemma in_trim p x l : In x l -> p x = false -> In x (trim p l).
Proof.
  intros Hin Hx. unfold trim. apply in_rev. rewrite rev_involutive.
  apply in_drop_while; [|exact Hx]. apply -> in_rev.
  now apply in_drop_while.
Qed.

Lemma in_collapse x l :
  In x l -> is_separator x = false -> In x (collapse_runs is_separator l).
Proof.
  intros Hin Hx. induction l as [|c l IH]; [contradiction|].
  cbn [collapse_runs]. destruct (is_separator c) eqn:Hc.
  - destruct Hin as [->|Hin]; [congruence|].
    destruct l as [|c' l']; [contradiction|].
    destruct (is_separator c'); [now apply IH | right; now apply IH].
  - destruct Hin as [->|Hin]; [now left | right; now apply IH].
Qed.

Lemma collapse_separators l :
  forallb is_separator l = true ->
  collapse_runs is_separator l = [] \/ collapse_runs is_separator l = ["-"].
Proof.
  induction l as [|c l IH]; [now left|].
  cbn [forallb collapse_runs]. intros H.
  apply andb_true_iff in H as [Hc Hl]. rewrite Hc.
  destruct l as [|c' l']; [now right|].
  pose proof Hl as Hl'. cbn [forallb] in Hl'.
  apply andb_true_iff in Hl' as [Hc' _]. rewrite Hc'. now apply IH.
Qed.

(** A text with an alphanumeric character has a slug that is not
    empty, and the other texts have the empty slug. *)
Lemma pipeline_empty l :
  pipeline kept_in_code l = [] <->
  forallb (fun c => negb (is_alnum c)) l = true.
Proof.
  unfold pipeline. split.
  - intros H. apply forallb_forall. intros c Hin.
    destruct (is_alnum c) eqn:Hc; [exfalso | reflexivity].
    assert (Ha : is_alnum (lower_char c) = true)
      by now rewrite lower_char_alnum.
    assert (Hk : In (lower_char c)
                   (List.filter kept_in_code (map lower_char l))).
    { apply filter_In. split; [now apply in_map | now apply alnum_kept]. }
    assert (Hs : is_separator (lower_char c) = false)
      by now apply alnum_not_separator.
    apply (in_collapse _ _ Hk) in Hs as Hin'.
    apply (in_trim is_hyphen) in Hin'.
    + rewrite H in Hin'. contradiction.
    + now apply not_separator_not_hyphen.
  - intros H.
    assert (Hsep : forallb is_separator
                     (List.filter kept_in_code (map lower_char l)) = true).
    { apply forallb_forall. intros c Hin.
      apply filter_In in Hin as [Hin Hk].
      apply in_map_iff in Hin as (c0 & <- & Hin0).
      apply kept_separator; [exact Hk|].
      rewrite lower_char_alnum.
      rewrite forallb_forall in H. specialize (H c0 Hin0).
      now destruct (is_alnum c0). }
    destruct (collapse_separators _ Hsep) as [-> | ->]; reflexivity.
Qed.

End SlugResults.

(** X13.  [slugify] maps every text to a slug, that is to words of
    lower-case alphanumerics joined by single hyphens, and the texts it
    leaves unchanged are exactly the slugs. *)
Theorem slugify_fixed_points (s : string) :
  SlugSpec.is_slug (Slug.chars (Slug.slugify s)) = true /\
  (Slug.slugify s = s <-> SlugSpec.is_slug (Slug.chars s) = true).
Proof.
  assert (Hs : forall x, SlugSpec.is_slug (Slug.chars (Slug.slugify x)) = true).
  { intros x. unfold Slug.slugify.
    rewrite chars_text, slugify_chars_pipeline. apply pipeline_is_slug. }
  split; [apply Hs|]. split.
  - intros H. rewrite <- H. apply Hs.
  - intros H. unfold Slug.slugify.
    rewrite slugify_chars_pipeline, (pipeline_fixes_slug _ H).
    apply string_of_list_ascii_of_string.
Qed.

(** X14.  The slug of a text is empty exactly when the text has no
    alphanumeric character. *)
Theorem slugify_empty_iff (s : string) :
  Slug.slugify s = ""%string <->
  forallb (fun c => negb (Chars.is_alnum c)) (Slug.chars s) = true.
Proof.
  unfold Slug.slugify. rewrite slugify_chars_pipeline, <- pipeline_empty.
  split; [apply text_empty | now intros ->].
Qed.

(** X15.  A page title without any alphanumeric character, imported
    without an id, gives the empty id: a run that returns has returned
    the empty string and written the metadata to [blog.json] directly
    inside [allBlogs], and the stored image path has an empty directory
    name. *)
Theorem import_without_letters (script_dir : string) (d : UrlData.t)
    (blog_id category : option string) (w w' : Os.world) (i : string) :
  forallb (fun c => negb (Chars.is_alnum c)) (Slug.chars (UrlData.title d))
    = true ->
  blog_id = None \/ blog_id = Some ""%string ->
  create_blog_structure_from_url script_dir d blog_id category w
    = (Os.Return i, w') ->
  i = ""%string /\
  Os.fs w' !! (all_blogs_dir script_dir +:+ "/blog.json")
    = Some (Os.File (Os.BlogDoc (blog_of (resolve d blog_id category)))) /\
  Blog.image (blog_of (resolve d blog_id category))
    = ("allBlogs//" +:+
       image_filename_of (Post.category (resolve d blog_id category))).
Proof.
  intros Ht Hid E. unfold create_blog_structure_from_url in E.
  set (r := resolve d blog_id category) in *.
  assert (Hr : Post.id r = ""%string).
  { subst r. cbn [resolve Post.id].
    assert (E0 : Slug.slugify (UrlData.title d) = ""%string).
    { unfold Slug.slugify. rewrite slugify_chars_pipeline.
      now rewrite (proj2 (pipeline_empty _) Ht). }
    destruct Hid as [-> | ->]; exact E0. }
  pose proof (upsert_returns_blog script_dir r w i w' E) as Hb.
  apply upsert_returns_index in E as (-> & _).
  split; [exact Hr|]. split.
  - rewrite Hr in Hb.
    assert (Hp : blog_json_path_of script_dir ""
                 = all_blogs_dir script_dir +:+ "/blog.json").
    { rewrite blog_json_plain by reflexivity.
      change (String.eqb "" "") with true. cbv iota.
      change ("/" +:+ "")%string with "/"%string.
      change ("" +:+ "blog.json")%string with "blog.json"%string.
      now rewrite app_assoc_string. }
    now rewrite <- Hp.
  - cbn [blog_of Blog.image]. unfold image_path_of. now rewrite Hr.
Qed.

Lemma import_without_letters_witness :
  ""%string = ""%string /\
  Os.fs (run_call Sample.root (AddFromUrl Demo3.untitled None None)
           Sample.nothing)
    !! (all_blogs_dir Sample.root +:+ "/blog.json")
    = Some (Os.File (Os.BlogDoc
                       (blog_of (resolve Demo3.untitled None None)))) /\
  Blog.image (blog_of (resolve Demo3.untitled None None))
    = ("allBlogs//" +:+
       image_filename_of (Post.category (resolve Demo3.untitled None None))).
Proof.
  apply (import_without_letters Sample.root Demo3.untitled None None
           Sample.nothing
           (run_call Sample.root (AddFromUrl Demo3.untitled None None)
              Sample.nothing) "").
  - vm_compute. reflexivity.
  - now left.
  - vm_compute. reflexivity.
Defined.

(* ===================================================================== *)
(** * Properties of the URL importer                                      *)
(* ===================================================================== *)

Section TextFacts.
Import SlugSpec.

Lemma drop_while_idem p l : drop_while p (drop_while p l) = drop_while p l.
Proof.
  induction l as [|c l IH]; [reflexivity|].
  cbn [drop_while]. destruct (p c) eqn:Hc; [exact IH|].
  cbn [drop_while]. now rewrite Hc.
Qed.

Lemma drop_while_split p l :
  exists k, l = k ++ drop_while p l.
Proof.
  induction l as [|c l [k IH]]; [now exists []|].
  cbn [drop_while]. destruct (p c).
  - exists (c :: k). cbn [app]. now f_equal.
  - now exists [].
Qed.

(** A list that [drop_while] leaves alone keeps that property when
    something is cut off at its end, as long as something is left. *)
Lemma drop_while_fixed_prefix p a b :
  drop_while p (a ++ b) = a ++ b -> drop_while p a = a.
Proof.
  destruct a as [|c a]; [reflexivity|].
  cbn [app drop_while]. destruct (p c); [|reflexivity].
  intros H. pose proof (drop_while_length p (a ++ b)) as Hlen.
  rewrite H in Hlen. simpl in Hlen. lia.
Qed.

Lemma trim_clean p l :
  drop_while p (trim p l) = trim p l /\
  drop_while p (rev (trim p l)) = rev (trim p l).
Proof.
  unfold trim. set (m := drop_while p l).
  set (n := drop_while p (rev m)). split.
  - destruct (drop_while_split p (rev m)) as [k Hk]. fold n in Hk.
    assert (Hm : m = rev n ++ rev k).
    { rewrite <- rev_app_distr, <- Hk. now rewrite rev_involutive. }
    apply (drop_while_fixed_prefix p (rev n) (rev k)).
    rewrite <- Hm. apply drop_while_idem.
  - rewrite rev_involutive. apply drop_while_idem.
Qed.

Lemma trim_fixed p l :
  drop_while p l = l -> drop_while p (rev l) = rev l -> trim p l = l.
Proof.
  intros H1 H2. unfold trim. rewrite H1, H2. apply rev_involutive.
Qed.

Lemma trim_idem p l : trim p (trim p l) = trim p l.
Proof. destruct (trim_clean p l). now apply trim_fixed. Qed.

Lemma in_drop_while_inv p x l : In x (drop_while p l) -> In x l.
Proof.
  induction l as [|c l IH]; [intros []|].
  cbn [drop_while]. destruct (p c); [right; now apply IH | now intros H].
Qed.

Lemma in_trim_inv p x l : In x (trim p l) -> In x l.
Proof.
  unfold trim. intros H. apply in_rev in H.
  apply in_drop_while_inv in H. apply in_rev in H.
  now apply in_drop_while_inv in H.
Qed.

Lemma strip_idem s : Text.strip (Text.strip s) = Text.strip s.
Proof.
  unfold Text.strip. rewrite chars_text. now rewrite trim_idem.
Qed.

Lemma in_strip c s :
  In c (Slug.chars (Text.strip s)) -> In c (Slug.chars s).
Proof. unfold Text.strip. rewrite chars_text. apply in_trim_inv. Qed.

Lemma before_without sep l : ~ In sep (Text.before sep l).
Proof.
  induction l as [|c l IH]; [intros []|].
  cbn [Text.before]. destruct (Ascii.eqb c sep) eqn:E; [intros []|].
  intros [->|H]; [|now apply IH].
  now rewrite Ascii.eqb_refl in E.
Qed.

Lemma first_field_without sep s :
  ~ In sep (Slug.chars (Text.first_field sep s)).
Proof. unfold Text.first_field. rewrite chars_text. apply before_without. Qed.

Lemma length_chars s : length (Slug.chars s) = String.length s.
Proof. induction s as [|c s IH]; [reflexivity|]. simpl. now f_equal. Qed.

Lemma length_text l : String.length (Slug.text l) = length l.
Proof. now rewrite <- length_chars, chars_text. Qed.

Lemma prefix_length n s : String.length (Text.prefix n s) <= n.
Proof. unfold Text.prefix. rewrite length_text. apply firstn_le_length. Qed.

Lemma prefix_all n s : String.length s <= n -> Text.prefix n s = s.
Proof.
  intros H. unfold Text.prefix.
  rewrite firstn_all2 by now rewrite length_chars.
  apply string_of_list_ascii_of_string.
Qed.

End TextFacts.

Section Extraction.
Import Os Medium.

Lemma bind_print {B} line (k : unit -> M B) w :
  bind (print line) k w = k tt (World (fs w) (stdout w ++ [line])).
Proof. reflexivity. Qed.

Lemma bind_ret {A B} (a : A) (k : A -> M B) w : bind (ret a) k w = k a w.
Proof. reflexivity. Qed.

(** What makes the body of the [try] raise: the request fails, the page
    has no title, or one of the three [meta] elements is there without
    its [content] attribute. *)
Lemma extract_cases url today r :
  match extract url today r with
  | inl _ =>
      match r with
      | Failed _ => True
      | Loaded p =>
          title p = None \/ author p = Some None \/
          published p = Some None \/ description p = Some None
      end
  | inr d =>
      exists p, r = Loaded p /\
        (exists t, title p = Some t /\
           UrlData.title d = Text.strip (Text.first_field "|" t)) /\
        author p <> Some None /\ published p <> Some None /\
        description p <> Some None /\
        UrlData.mediumUrl d = url /\
        UrlData.publishedDate d =
          match published p with
          | Some (Some c) => Text.first_field "T" c
          | _ => today
          end /\
        UrlData.excerpt d =
          match description p, first_paragraph p with
          | Some (Some e), _ => e
          | _, Some first_para => Text.prefix 200 first_para +:+ "..."
          | _, None => "Read about " +:+ UrlData.title d
          end
  end.
Proof.
  destruct r as [reason|p]; [exact I|].
  destruct p as [t art au pub de fp]. unfold extract.
  cbn [title article author published description first_paragraph].
  destruct t as [t|]; cbn [and_then]; [|now left].
  destruct au as [[au|]|]; cbn [and_then content_of]; try (right; now left).
  all: destruct pub as [[pub|]|]; cbn [and_then content_of];
    try (right; right; now left).
  all: destruct de as [[de|]|]; cbn [and_then content_of];
    try (right; right; now right).
  all: try destruct fp as [fp|].
  all: eexists; split; [reflexivity|];
    cbn [title author published description first_paragraph
         UrlData.title UrlData.mediumUrl UrlData.publishedDate
         UrlData.excerpt];
    repeat split; try discriminate; eauto.
Qed.

End Extraction.

(** X16.  When the request fails, the page has no title, or a [meta]
    element for the author, the date or the description lacks its
    [content] attribute, the URL importer reports the error, leaves with
    status 1 and changes no file. *)
Theorem url_import_fails (script_dir url : string)
    (blog_id category : option string) (today : string)
    (r : Medium.response) (w : Os.world) :
  match r with
  | Medium.Failed _ => True
  | Medium.Loaded p =>
      Medium.title p = None \/ Medium.author p = Some None \/
      Medium.published p = Some None \/ Medium.description p = Some None
  end ->
  exists e,
    url_main script_dir url blog_id category today r w =
      (Os.Raise (Os.SystemExit 1),
       Os.World (Os.fs w)
         (Os.stdout w ++
            ["Fetching blog data from " +:+ url +:+ "...";
             "Error extracting information from " +:+ url +:+ ": " +:+ e;
             "Failed to extract blog data. Exiting."]%string)).
Proof.
  intros Hr.
  pose proof (extract_cases url today r) as Hc.
  unfold url_main, Medium.extract_medium_info.
  destruct (Medium.extract url today r) as [e|d].
  - exists e. unfold Os.bind, Os.print, Os.ret, Os.raise. cbn [Os.fs Os.stdout].
    now rewrite <- !app_assoc.
  - exfalso. destruct Hc as (p & -> & (t & Ht & _) & Ha & Hp & Hd & _).
    destruct Hr as [H|[H|[H|H]]]; congruence.
Qed.

Lemma url_import_fails_witness :
  exists e,
    url_main Sample.root "https://medium.com/p/1" None None "2024-03-01"
      (Medium.Failed "timed out") Sample.two_posts =
      (Os.Raise (Os.SystemExit 1),
       Os.World (Os.fs Sample.two_posts)
         (Os.stdout Sample.two_posts ++
            ["Fetching blog data from " +:+ "https://medium.com/p/1" +:+ "...";
             "Error extracting information from " +:+ "https://medium.com/p/1"
               +:+ ": " +:+ e;
             "Failed to extract blog data. Exiting."]%string)).
Proof.
  apply (url_import_fails Sample.root "https://medium.com/p/1" None None
           "2024-03-01" (Medium.Failed "timed out") Sample.two_posts).
  exact I.
Defined.

(** X17.  Whatever the page, the title of an extracted record has no
    ['|'] and no white space at either end, the date is today's when the
    page gives none and has no ['T'] otherwise, and the record carries
    the URL that was asked for. *)
Theorem extracted_title_and_date (url today : string) (p : Medium.page)
    (d : UrlData.t) :
  Medium.extract url today (Medium.Loaded p) = inr d ->
  ~ In "|" (Slug.chars (UrlData.title d)) /\
  Text.strip (UrlData.title d) = UrlData.title d /\
  (Medium.published p = None -> UrlData.publishedDate d = today) /\
  (Medium.published p <> None ->
     ~ In "T" (Slug.chars (UrlData.publishedDate d))) /\
  UrlData.mediumUrl d = url.
Proof.
  intros E. pose proof (extract_cases url today (Medium.Loaded p)) as Hc.
  rewrite E in Hc.
  destruct Hc as (p' & [= <-] & (t & Ht & Htitle) & _ & Hp & _ & Hu & Hd & _).
  rewrite Htitle. split; [|split; [|split; [|split]]].
  - intros H. apply in_strip in H. revert H. apply first_field_without.
  - apply strip_idem.
  - intros Hn. now rewrite Hd, Hn.
  - intros Hn. rewrite Hd.
    destruct (Medium.published p) as [[c|]|]; try congruence.
    apply first_field_without.
  - exact Hu.
Qed.

Lemma extracted_title_and_date_witness :
  ~ In "|" (Slug.chars (UrlData.title Demo3.extracted)) /\
  Text.strip (UrlData.title Demo3.extracted) = UrlData.title Demo3.extracted /\
  (Medium.published Demo3.article_page = None ->
     UrlData.publishedDate Demo3.extracted = "2024-03-01"%string) /\
  (Medium.published Demo3.article_page <> None ->
     ~ In "T" (Slug.chars (UrlData.publishedDate Demo3.extracted))) /\
  UrlData.mediumUrl Demo3.extracted = "https://medium.com/p/1"%string.
Proof.
  apply (extracted_title_and_date "https://medium.com/p/1" "2024-03-01"
           Demo3.article_page Demo3.extracted).
  vm_compute. reflexivity.
Defined.

(** X18.  Without a description element the excerpt is taken from the
    first paragraph: it is never longer than 203 characters and always
    ends with three dots, also when the paragraph was short enough to be
    kept whole. *)
Theorem extracted_excerpt (url today : string) (p : Medium.page)
    (d : UrlData.t) (first_para : string) :
  Medium.extract url today (Medium.Loaded p) = inr d ->
  Medium.description p = None ->
  Medium.first_paragraph p = Some first_para ->
  String.length (UrlData.excerpt d) <= 203 /\
  Path.ends_with "..." (UrlData.excerpt d) = true /\
  (String.length first_para <= 200 ->
     UrlData.excerpt d = first_para +:+ "...").
Proof.
  intros E Hd Hf. pose proof (extract_cases url today (Medium.Loaded p)) as Hc.
  rewrite E in Hc.
  destruct Hc as (p' & [= <-] & _ & _ & _ & _ & _ & _ & He).
  rewrite Hd, Hf in He. rewrite He. split; [|split].
  - rewrite app_length_string.
    pose proof (prefix_length 200 first_para). simpl. lia.
  - now rewrite ends_with_app by (simpl; lia).
  - intros Hlen. now rewrite prefix_all.
Qed.

Lemma extracted_excerpt_witness :
  String.length (UrlData.excerpt Demo3.extracted) <= 203 /\
  Path.ends_with "..." (UrlData.excerpt Demo3.extracted) = true /\
  (String.length "Short." <= 200 ->
     UrlData.excerpt Demo3.extracted = "Short." +:+ "...").
Proof.
  apply (extracted_excerpt "https://medium.com/p/1" "2024-03-01"
           Demo3.article_page Demo3.extracted "Short.");
    vm_compute; reflexivity.
Defined.

(** X19.  When the extraction gives a record and the URL importer ends
    normally, the upsert has been run on the record with the resolved id
    and category: the index that was loaded is written back sorted with
    the record's entry replaced or appended, the metadata file holds the
    record, and four lines were printed, the third giving the id. *)
Theorem url_import_succeeds (script_dir url : string)
    (blog_id category : option string) (today : string)
    (r : Medium.response) (d : UrlData.t) (w w' : Os.world) :
  Medium.extract url today r = inr d ->
  url_main script_dir url blog_id category today r w = (Os.Return tt, w') ->
  exists l,
    loaded_index script_dir w = Some l /\
    index_file script_dir w' =
      Some (Index.sort_desc
              (Index.replace_or_append
                 (entry_of (resolve d blog_id category)) l)) /\
    Os.fs w' !! blog_json_path_of script_dir
                  (Post.id (resolve d blog_id category))
      = Some (Os.File (Os.BlogDoc (blog_of (resolve d blog_id category)))) /\
    Os.stdout w' =
      Os.stdout w ++
        ["Fetching blog data from " +:+ url +:+ "...";
         "Creating blog structure for '" +:+ UrlData.title d +:+ "'...";
         "Blog successfully added with ID: "
           +:+ Post.id (resolve d blog_id category);
         "Blog directory: /Users/saif/Projects/Public-Assets/Blogs/allBlogs/"
           +:+ Post.id (resolve d blog_id category) +:+ "/"]%string.
Proof.
  intros E H. set (rec := resolve d blog_id category) in *.
  unfold url_main, Medium.extract_medium_info in H. rewrite E in H.
  unfold create_blog_structure_from_url in H.
  rewrite bind_print, bind_ret, bind_print in H. cbn [Os.fs Os.stdout] in H.
  change (resolve d blog_id category) with rec in H.
  apply bind_returns in H as (i & w2 & U & H).
  rewrite bind_print in H. unfold report, Os.print in H.
  cbn [Os.fs Os.stdout] in H. injection H as <-.
  pose proof (upsert_returns_blog script_dir rec _ i w2 U) as Hb.
  pose proof (upsert_returns_stdout script_dir rec _ i w2 U) as Ho.
  apply upsert_returns_index in U as (-> & l & Hl & I).
  exists l. split; [exact Hl|]. split; [exact I|]. split; [exact Hb|].
  cbn [Os.stdout] in *. rewrite Ho. now rewrite <- !app_assoc.
Qed.

Lemma url_import_succeeds_witness :
  exists l,
    loaded_index Sample.root Sample.two_posts = Some l /\
    index_file Sample.root
      (snd (url_main Sample.root "https://medium.com/p/1" None None "2024-03-01"
              (Medium.Loaded Demo3.article_page) Sample.two_posts)) =
      Some (Index.sort_desc
              (Index.replace_or_append
                 (entry_of (resolve Demo3.extracted None None)) l)) /\
    Os.fs (snd (url_main Sample.root "https://medium.com/p/1" None None
                  "2024-03-01" (Medium.Loaded Demo3.article_page)
                  Sample.two_posts))
      !! blog_json_path_of Sample.root
           (Post.id (resolve Demo3.extracted None None))
      = Some (Os.File (Os.BlogDoc (blog_of (resolve Demo3.extracted None None))))
    /\
    Os.stdout (snd (url_main Sample.root "https://medium.com/p/1" None None
                      "2024-03-01" (Medium.Loaded Demo3.article_page)
                      Sample.two_posts)) =
      Os.stdout Sample.two_posts ++
        ["Fetching blog data from " +:+ "https://medium.com/p/1" +:+ "...";
         "Creating blog structure for '" +:+ UrlData.title Demo3.extracted
           +:+ "'...";
         "Blog successfully added with ID: "
           +:+ Post.id (resolve Demo3.extracted None None);
         "Blog directory: /Users/saif/Projects/Public-Assets/Blogs/allBlogs/"
           +:+ Post.id (resolve Demo3.extracted None None) +:+ "/"]%string.
Proof.
  apply (url_import_succeeds Sample.root "https://medium.com/p/1" None None
           "2024-03-01" (Medium.Loaded Demo3.article_page) Demo3.extracted
           Sample.two_posts).
  - vm_compute. reflexivity.
  - vm_compute. reflexivity.
Defined.

(* ===================================================================== *)
(** * Properties of the interactive script                                *)
(* ===================================================================== *)

Section Prompts.
Import Os.

Lemma get_user_input_default prompt default typed w :
  exists line,
    Prompt.get_user_input prompt (Some default) typed w =
      (Return (match typed with
               | EmptyString => default
               | _ => typed
               end),
       World (fs w) (stdout w ++ [line])).
Proof. destruct default, typed; eexists; reflexivity. Qed.

Lemma get_user_input_plain prompt typed w :
  Prompt.get_user_input prompt None typed w =
    (Return typed, World (fs w) (stdout w ++ [prompt +:+ ": "])).
Proof. reflexivity. Qed.

Lemma get_multiline_input_run prompt edited w :
  exists lines,
    Prompt.get_multiline_input prompt edited w =
      (Return edited, World (fs w) (stdout w ++ lines)).
Proof.
  exists [prompt +:+ " (Your default editor will open)";
          "Press Enter when you've finished editing the content..."]%string.
  unfold Prompt.get_multiline_input, Prompt.input.
  unfold bind, print, ret. cbn [fs stdout].
  now rewrite <- app_assoc.
Qed.

End Prompts.

(** X20.  The interactive script upserts the record made of the user's
    answers, with an empty answer replaced by its default: the slug of
    the title for the id, ["SolutionsGSI Team"] for the author, ["AWS"]
    for the category and today's date.  When the script ends normally,
    the index that was loaded is written back sorted with that record's
    entry replaced or appended, and the metadata file holds the
    record. *)
Theorem manual_run_stores_answers (script_dir today : string)
    (a : Prompt.answers) (w w' : Os.world) :
  manual_main script_dir today a w = (Os.Return tt, w') ->
  exists l,
    loaded_index script_dir w = Some l /\
    index_file script_dir w' =
      Some (Index.sort_desc
              (Index.replace_or_append (entry_of (answered today a)) l)) /\
    Os.fs w' !! blog_json_path_of script_dir (Post.id (answered today a))
      = Some (Os.File (Os.BlogDoc (blog_of (answered today a)))).
Proof.
  intros H. unfold manual_main in H.
  rewrite bind_print in H.
  rewrite (bind_return _ _ _ _ _ (get_user_input_plain _ _ _)) in H.
  match type of H with
  | context [Os.bind (Prompt.get_user_input ?p (Some ?d) ?t) _ ?w0] =>
      destruct (get_user_input_default p d t w0) as [line1 E1]
  end.
  rewrite (bind_return _ _ _ _ _ E1) in H. clear E1.
  match type of H with
  | context [Os.bind (Prompt.get_user_input ?p (Some ?d) ?t) _ ?w0] =>
      destruct (get_user_input_default p d t w0) as [line2 E2]
  end.
  rewrite (bind_return _ _ _ _ _ E2) in H. clear E2.
  match type of H with
  | context [Os.bind (Prompt.get_user_input ?p (Some ?d) ?t) _ ?w0] =>
      destruct (get_user_input_default p d t w0) as [line3 E3]
  end.
  rewrite (bind_return _ _ _ _ _ E3) in H. clear E3.
  match type of H with
  | context [Os.bind (Prompt.get_user_input ?p (Some ?d) ?t) _ ?w0] =>
      destruct (get_user_input_default p d t w0) as [line4 E4]
  end.
  rewrite (bind_return _ _ _ _ _ E4) in H. clear E4.
  match type of H with
  | context [Os.bind (Prompt.get_user_input ?p (Some ?d) ?t) _ ?w0] =>
      destruct (get_user_input_default p d t w0) as [line5 E5]
  end.
  rewrite (bind_return _ _ _ _ _ E5) in H. clear E5.
  rewrite (bind_return _ _ _ _ _ (get_user_input_plain _ _ _)) in H.
  rewrite bind_print in H.
  match type of H with
  | context [Os.bind (Prompt.get_multiline_input ?p ?t) _ ?w0] =>
      destruct (get_multiline_input_run p t w0) as [lines E6]
  end.
  rewrite (bind_return _ _ _ _ _ E6) in H. clear E6.
  rewrite bind_print in H. cbn [Os.fs Os.stdout] in H.
  unfold create_blog_structure_manual in H.
  assert (Hm : forall t : string,
             match t with EmptyString => ""%string | _ => t end = t)
    by now intros [].
  rewrite Hm in H.
  match type of H with
  | context [Os.bind (upsert script_dir ?r0) _ ?w0] =>
      change r0 with (answered today a) in H; set (w1 := w0) in H
  end.
  apply bind_returns in H as (i & w2 & U & H).
  rewrite bind_print in H. unfold report, Os.print in H.
  cbn [Os.fs Os.stdout] in H. injection H as <-.
  pose proof (upsert_returns_blog script_dir _ _ i w2 U) as Hb.
  apply upsert_returns_index in U as (-> & l & Hl & I).
  exists l. split; [exact Hl|]. split; [exact I | exact Hb].
Qed.

Lemma manual_run_stores_answers_witness :
  exists l,
    loaded_index Sample.root Sample.two_posts = Some l /\
    index_file Sample.root
      (snd (manual_main Sample.root "2024-03-01" Demo3.typed Sample.two_posts))
      = Some (Index.sort_desc
                (Index.replace_or_append
                   (entry_of (answered "2024-03-01" Demo3.typed)) l)) /\
    Os.fs (snd (manual_main Sample.root "2024-03-01" Demo3.typed
                  Sample.two_posts))
      !! blog_json_path_of Sample.root
           (Post.id (answered "2024-03-01" Demo3.typed))
      = Some (Os.File (Os.BlogDoc
                         (blog_of (answered "2024-03-01" Demo3.typed)))).
Proof.
  apply (manual_run_stores_answers Sample.root "2024-03-01" Demo3.typed
           Sample.two_posts).
  vm_compute. reflexivity.
Defined.
